(** * NL-2-SQL benchmark harness: a shallow embedding and its properties

    The development follows the layout of [src/benchmarks]:
    - [PyStr]         Python [str] values and the string methods the code calls
    - [Regex]         [re.sub] for the six patterns of [core/normalizer.py]
    - [Normalizer]    [SQLNormalizer] of [core/normalizer.py]
    - [PyRepr]        [str], [repr], comparison and sorting of tuples of strings
    - [Results]       [BenchmarkResult] and [BenchmarkReport] of [core/results.py]
    - [Runtime]       the collaborators of the harness and its state
    - [Execution]     [ExecutionEvaluator] of [evaluators/execution.py]
    - [DataLoader]    schema synthesis of [core/data_loader.py]
    - [Orchestrator]  [SpiderBenchmark] of [spider_benchmark.py]
    - [NormalForm]    the normal form that [normalize] returns
    - [Ratios]        the ratios of a report after the loop
    - [ResultSets]    what [results_match] compares
    - [EvaluatorPaths] the paths through the execution evaluator
    - [RunFacts]      the results and the counters of a run
    - [Loader]        [SpiderDataLoader] of [core/data_loader.py]
    - [Runner]        [SpiderBenchmark.run]
    - [Spacing]       statements that differ in spacing

    Python strings are sequences of code points.  The embedding covers the
    code points below 256 (Latin-1), which the 8-bit type [ascii]
    enumerates exactly; on that range [str.lower], [str.isspace] and the
    regular-expression class [\s] are given by the tables below.

    Conventions of the embedding:
    - a Python [int] is a [Z]; a quotient of two [int]s is the rational it
      denotes, of which the [float] Python returns is the nearest double;
    - [Optional[T]] is [option T]; a tuple is a product or a list;
    - a function that calls out of the program runs in the monad [M] of
      [Runtime]: it threads the state of the world and may raise.
      Exceptions are those derived from [Exception], the ones an
      [except Exception] clause catches;
    - [Path.exists()] answers or raises the [OSError] of the underlying
      [stat] (a name that is too long, a directory that may not be
      searched); the progress lines the orchestrator prints are left
      out. *)

From Stdlib Require Import List Ascii String ZArith NArith QArith Bool Lia.
From Stdlib Require Import DecimalString Permutation.
From stdpp Require Import base list gmap strings.

Import ListNotations.
Local Open Scope list_scope.

(** ** Python strings *)
Module PyStr.

Abbreviation pystr := (list ascii).

(** String literals are written [py "text"]. *)
Definition py (s : string) : pystr := list_ascii_of_string s.

Definition code (c : ascii) : N := N_of_ascii c.

Definition ch_eqb (a b : ascii) : bool := Ascii.eqb a b.

Definition newline : ascii := ascii_of_N 10.
Definition space : ascii := ascii_of_N 32.
Definition dquote : ascii := ascii_of_N 34.
Definition squote : ascii := ascii_of_N 39.

(** [Py_UNICODE_ISSPACE] on code points below 256: TAB, LF, VT, FF, CR,
    FS, GS, RS, US, SPACE, NEL (0x85) and NBSP (0xA0).  [str.split],
    [str.strip] and the class [\s] of a [str] pattern all use it. *)
Definition is_space (c : ascii) : bool :=
  let n := code c in
  ((9 <=? n) && (n <=? 13) || (28 <=? n) && (n <=? 32)
   || (n =? 133) || (n =? 160))%N.

(** [str.lower] on one code point below 256: A-Z and the Latin-1 capitals
    0xC0-0xDE (the multiplication sign 0xD7 apart) move up by 32. *)
Definition lower_char (c : ascii) : ascii :=
  let n := code c in
  if ((65 <=? n) && (n <=? 90)
      || (192 <=? n) && (n <=? 222) && negb (n =? 215))%N
  then ascii_of_N (n + 32) else c.

(** [str.upper] on one code point below 256: a-z and 0xE0-0xFE (the
    division sign 0xF7 apart) move down by 32, and the sharp s (0xDF)
    becomes the two letters [SS].  The capitals of the micro sign (0xB5)
    and of y with diaeresis (0xFF) are U+039C and U+0178, beyond the code
    points of the embedding: [upper_char] leaves the two as they are, and
    [capital_below_256] tells the texts on which it is [str.upper]. *)
Definition upper_char (c : ascii) : pystr :=
  let n := code c in
  if (n =? 223)%N then ["S"%char; "S"%char]
  else if ((97 <=? n) && (n <=? 122)
           || (224 <=? n) && (n <=? 254) && negb (n =? 247))%N
  then [ascii_of_N (n - 32)] else [c].

Definition capital_below_256 (c : ascii) : bool :=
  let n := code c in negb ((n =? 181) || (n =? 255))%N.

Definition lower (s : pystr) : pystr := map lower_char s.
Definition upper (s : pystr) : pystr := flat_map upper_char s.

Fixpoint take_while (p : ascii -> bool) (s : pystr) : pystr :=
  match s with
  | c :: s' => if p c then c :: take_while p s' else []
  | [] => []
  end.

Fixpoint drop_while (p : ascii -> bool) (s : pystr) : pystr :=
  match s with
  | c :: s' => if p c then drop_while p s' else s
  | [] => []
  end.

(** [s.lstrip()], [s.rstrip()], [s.strip()]: whitespace off the ends. *)
Definition lstrip (s : pystr) : pystr := drop_while is_space s.
Definition rstrip_by (p : ascii -> bool) (s : pystr) : pystr :=
  rev (drop_while p (rev s)).
Definition rstrip (s : pystr) : pystr := rstrip_by is_space s.
Definition strip (s : pystr) : pystr := rstrip (lstrip s).

(** [s.rstrip(';')] *)
Definition rstrip_semicolons (s : pystr) : pystr :=
  rstrip_by (ch_eqb ";"%char) s.

(** [s.replace(a, b)] for one-character [a] and [b]. *)
Definition replace_char (a b : ascii) (s : pystr) : pystr :=
  map (fun c => if ch_eqb c a then b else c) s.

(** [s.split()]: the maximal runs of non-whitespace, [cur] being the run
    under construction. *)
Fixpoint split_from (cur : pystr) (s : pystr) : list pystr :=
  match s with
  | [] => match cur with [] => [] | _ => [cur] end
  | c :: s' =>
      if is_space c
      then match cur with
           | [] => split_from [] s'
           | _ => cur :: split_from [] s'
           end
      else split_from (cur ++ [c]) s'
  end.

Definition split (s : pystr) : list pystr := split_from [] s.

(** [a == b] on strings *)
Fixpoint str_eqb (a b : pystr) : bool :=
  match a, b with
  | [], [] => true
  | x :: a', y :: b' => ch_eqb x y && str_eqb a' b'
  | _, _ => false
  end.

(** [sep.join(words)] *)
Fixpoint join (sep : pystr) (words : list pystr) : pystr :=
  match words with
  | [] => []
  | [w] => w
  | w :: ws => w ++ sep ++ join sep ws
  end.

(** The first character of [s] satisfies [p]. *)
Definition head_is (p : ascii -> bool) (s : pystr) : bool :=
  match s with c :: _ => p c | [] => false end.

(** The last character of [s] satisfies [p]: [s.endswith(c)] for a class
    of characters. *)
Definition ends_with (p : ascii -> bool) (s : pystr) : bool := head_is p (rev s).

(** *** Facts about the string methods *)

Lemma take_while_cons p c s :
  take_while p (c :: s) = if p c then c :: take_while p s else [].
Proof. reflexivity. Qed.

Lemma drop_while_cons p c s :
  drop_while p (c :: s) = if p c then drop_while p s else c :: s.
Proof. reflexivity. Qed.

Lemma drop_while_length p s : length (drop_while p s) <= length s.
Proof. induction s as [|c s IH]; simpl; [lia|]. destruct (p c); simpl; lia. Qed.

Lemma drop_while_Forall (P : ascii -> Prop) p s : Forall P s -> Forall P (drop_while p s).
Proof.
  induction 1 as [|c s Hc Hs IH]; simpl; [constructor|].
  destruct (p c); auto.
Qed.

Lemma drop_while_head p s c r : drop_while p s = c :: r -> p c = false.
Proof.
  induction s as [|d s IH]; simpl; [discriminate|].
  destruct (p d) eqn:E; auto. intros [= -> ->]. exact E.
Qed.

Lemma head_is_app p x y :
  head_is p (x ++ y) = match x with [] => head_is p y | _ => head_is p x end.
Proof. destruct x; reflexivity. Qed.

Lemma drop_while_id p s : head_is p s = false -> drop_while p s = s.
Proof. destruct s as [|c s]; simpl; [reflexivity|]. intros ->. reflexivity. Qed.

Lemma rstrip_by_id p s : ends_with p s = false -> rstrip_by p s = s.
Proof.
  unfold ends_with, rstrip_by. intros H. rewrite drop_while_id by exact H.
  apply rev_involutive.
Qed.

Lemma rstrip_by_Forall (P : ascii -> Prop) p s : Forall P s -> Forall P (rstrip_by p s).
Proof.
  intros H. unfold rstrip_by. apply Forall_rev, drop_while_Forall, Forall_rev, H.
Qed.

Lemma strip_Forall (P : ascii -> Prop) s : Forall P s -> Forall P (strip s).
Proof.
  intros H. unfold strip, rstrip, lstrip.
  apply rstrip_by_Forall, drop_while_Forall, H.
Qed.

Lemma lower_char_idempotent c : lower_char (lower_char c) = lower_char c.
Proof. destruct c as [[] [] [] [] [] [] [] []]; reflexivity. Qed.

Lemma lower_fixed s : Forall (fun c => lower_char c = c) s -> lower s = s.
Proof.
  induction 1 as [|c s Hc Hs IH]; [reflexivity|].
  unfold lower in *. simpl. rewrite Hc, IH. reflexivity.
Qed.

Lemma replace_char_fixed a b s :
  Forall (fun c => ch_eqb c a = false) s -> replace_char a b s = s.
Proof.
  induction 1 as [|c s Hc Hs IH]; [reflexivity|].
  unfold replace_char in *. simpl. rewrite Hc, IH. reflexivity.
Qed.

Lemma replace_char_gone a b s :
  ch_eqb b a = false -> Forall (fun c => ch_eqb c a = false) (replace_char a b s).
Proof.
  intros Hb. induction s as [|c s IH]; [constructor|].
  unfold replace_char in *. simpl. constructor; [|exact IH].
  destruct (ch_eqb c a) eqn:E; assumption.
Qed.

Lemma replace_char_Forall (P : ascii -> Prop) a b s :
  P b -> Forall P s -> Forall P (replace_char a b s).
Proof.
  intros Hb. induction 1 as [|c s Hc Hs IH]; [constructor|].
  unfold replace_char in *. simpl. constructor; [|exact IH].
  destruct (ch_eqb c a); assumption.
Qed.

Lemma split_from_cons cur s : cur <> [] -> split_from cur s <> [].
Proof.
  revert cur. induction s as [|c s IH]; intros cur H; simpl.
  - destruct cur; congruence.
  - destruct (is_space c).
    + destruct cur; congruence.
    + apply IH. destruct cur; discriminate.
Qed.

Lemma ch_eqb_not_space a c : is_space a = false -> ch_eqb a c = true -> is_space c = false.
Proof.
  unfold ch_eqb. intros Ha H. apply Ascii.eqb_eq in H. subst. exact Ha.
Qed.

Lemma str_eqb_eq a b : str_eqb a b = true <-> a = b.
Proof.
  revert b. induction a as [|x a IH]; intros [|y b]; simpl; try (split; congruence).
  unfold ch_eqb. rewrite andb_true_iff, Ascii.eqb_eq, IH. split.
  - intros [-> ->]. reflexivity.
  - intros [= -> ->]. auto.
Qed.

End PyStr.

(** ** [re.sub] for the patterns of the normalizer *)
Module Regex.
Import PyStr.

(** A pattern is given by its behaviour at one position: [m s] is
    [Some (replacement, rest)] when the pattern matches a non-empty prefix
    of [s], [rest] being what follows the match (leftmost-first semantics
    with greedy or lazy quantifiers already resolved), and [None] when it
    does not match at the start of [s]. *)
Definition matcher := pystr -> option (pystr * pystr).

(** [re.sub(pattern, repl, s)]: scan left to right; where the pattern
    matches, emit the replacement and resume after the match; elsewhere
    copy one character.  Matches are never empty, so [fuel] beyond the
    length of the text is never consumed. *)
Fixpoint re_sub_loop (m : matcher) (fuel : nat) (s : pystr) : pystr :=
  match fuel with
  | O => s
  | S fuel' =>
      match m s with
      | Some (repl, rest) => repl ++ re_sub_loop m fuel' rest
      | None =>
          match s with
          | [] => []
          | c :: s' => c :: re_sub_loop m fuel' s'
          end
      end
  end.

Definition re_sub (m : matcher) (s : pystr) : pystr :=
  re_sub_loop m (S (length s)) s.

(** [r'--.*$'] with [re.MULTILINE], replaced by [''].  [.] excludes only
    the line feed, so the greedy [.*] stops at the end of the text or just
    before a line feed, where [$] holds. *)
Definition line_comment : matcher := fun s =>
  match s with
  | c1 :: c2 :: s' =>
      if ch_eqb c1 "-"%char && ch_eqb c2 "-"%char
      then Some ([], drop_while (fun c => negb (ch_eqb c newline)) s')
      else None
  | _ => None
  end.

(** What follows the first [*/] of [s], if there is one: the lazy [.*?]
    followed by [\*/], with [re.DOTALL]. *)
Fixpoint after_close (s : pystr) : option pystr :=
  match s with
  | [] => None
  | c :: s' =>
      match s' with
      | d :: r =>
          if ch_eqb c "*"%char && ch_eqb d "/"%char then Some r
          else after_close s'
      | [] => None
      end
  end.

(** [r'/\*.*?\*/'] with [re.DOTALL], replaced by ['']. *)
Definition block_comment : matcher := fun s =>
  match s with
  | c1 :: c2 :: s' =>
      if ch_eqb c1 "/"%char && ch_eqb c2 "*"%char
      then match after_close s' with
           | Some rest => Some ([], rest)
           | None => None
           end
      else None
  | _ => None
  end.

(** [r'\s+'] replaced by [' ']. *)
Definition ws_run : matcher := fun s =>
  match s with
  | c :: s' =>
      if is_space c then Some ([space], drop_while is_space s') else None
  | [] => None
  end.

(** The four spacing patterns have one shape, [\s*(X)\s*] replaced by
    [pre \1 post], where [X] is either one character of the class [p] or
    ([run = true]) a greedy run [p+] of them.  The leading [\s*] takes all
    the whitespace there is; giving some back cannot help, because [X]
    does not match whitespace. *)
Definition spaced (p : ascii -> bool) (run : bool) (pre post : pystr)
  : matcher := fun s =>
  match drop_while is_space s with
  | c :: s' =>
      if p c then
        let grp := if run then c :: take_while p s' else [c] in
        let s'' := if run then drop_while p s' else s' in
        Some (pre ++ grp ++ post, drop_while is_space s'')
      else None
  | [] => None
  end.

Definition is_operator (c : ascii) : bool :=
  ch_eqb c "="%char || ch_eqb c "<"%char || ch_eqb c ">"%char
  || ch_eqb c "!"%char.

(** [r'\s*([=<>!]+)\s*'] replaced by [r' \1 '] *)
Definition operators : matcher := spaced is_operator true [space] [space].
(** [r'\s*,\s*'] replaced by [', '] *)
Definition commas : matcher := spaced (ch_eqb ","%char) false [] [space].
(** [r'\s*\(\s*'] replaced by [' ('] *)
Definition open_paren : matcher := spaced (ch_eqb "("%char) false [space] [].
(** [r'\s*\)\s*'] replaced by [') '] *)
Definition close_paren : matcher := spaced (ch_eqb ")"%char) false [] [space].

(** The pattern matches nowhere in [s]. *)
Fixpoint no_match (m : matcher) (s : pystr) : bool :=
  match m s with
  | Some _ => false
  | None =>
      match s with
      | [] => true
      | _ :: s' => no_match m s'
      end
  end.

(** A pattern whose matches are never empty. *)
Definition consuming (m : matcher) : Prop :=
  forall s repl rest, m s = Some (repl, rest) -> length rest < length s.

(** *** Facts about the scanning loop and the patterns *)

Lemma re_sub_loop_fuel (m : matcher) (Hm : consuming m) :
  forall n k s, length s < n -> length s < k ->
    re_sub_loop m n s = re_sub_loop m k s.
Proof.
  induction n as [|n IH]; intros k s Hn Hk; [lia|].
  destruct k as [|k]; [lia|]. simpl.
  destruct (m s) as [[repl rest]|] eqn:E.
  - f_equal. apply Hm in E. apply IH; lia.
  - destruct s as [|c s']; [reflexivity|]. simpl in *. f_equal. apply IH; lia.
Qed.

Lemma re_sub_loop_S (m : matcher) n s :
  re_sub_loop m (S n) s =
  match m s with
  | Some (repl, rest) => repl ++ re_sub_loop m n rest
  | None => match s with [] => [] | c :: s' => c :: re_sub_loop m n s' end
  end.
Proof. reflexivity. Qed.

Lemma re_sub_match (m : matcher) (Hm : consuming m) s repl rest :
  m s = Some (repl, rest) -> re_sub m s = repl ++ re_sub m rest.
Proof.
  intros E. unfold re_sub. rewrite re_sub_loop_S, E. f_equal.
  pose proof (Hm _ _ _ E). apply re_sub_loop_fuel; auto; lia.
Qed.

Lemma re_sub_skip (m : matcher) (Hm : consuming m) c s :
  m (c :: s) = None -> re_sub m (c :: s) = c :: re_sub m s.
Proof.
  intros E. unfold re_sub. rewrite re_sub_loop_S, E. reflexivity.
Qed.

Lemma re_sub_nil (m : matcher) : m [] = None -> re_sub m [] = [].
Proof. intros E. unfold re_sub. rewrite re_sub_loop_S, E. reflexivity. Qed.

Lemma re_sub_loop_no_match (m : matcher) :
  forall n s, no_match m s = true -> re_sub_loop m n s = s.
Proof.
  induction n as [|n IH]; intros s H; [reflexivity|].
  simpl. destruct s as [|c s']; simpl in H; destruct (m _); try discriminate; auto.
  f_equal. auto.
Qed.

Lemma re_sub_no_match (m : matcher) s : no_match m s = true -> re_sub m s = s.
Proof. apply re_sub_loop_no_match. Qed.

Lemma re_sub_loop_Forall (P : ascii -> Prop) (m : matcher) :
  (forall s repl rest, Forall P s -> m s = Some (repl, rest) ->
     Forall P repl /\ Forall P rest) ->
  forall n s, Forall P s -> Forall P (re_sub_loop m n s).
Proof.
  intros Hm. induction n as [|n IH]; intros s Hs; [exact Hs|].
  simpl. destruct (m s) as [[repl rest]|] eqn:E.
  - destruct (Hm _ _ _ Hs E) as [H1 H2]. apply Forall_app. split; auto.
  - destruct s as [|c s']; [constructor|].
    inversion Hs; subst. constructor; auto.
Qed.

Lemma spaced_consuming p run pre post : consuming (spaced p run pre post).
Proof.
  intros s repl rest. unfold spaced.
  pose proof (drop_while_length is_space s) as H1.
  destruct (drop_while is_space s) as [|c s'] eqn:E; [discriminate|].
  destruct (p c); [|discriminate]. intros [= <- <-].
  simpl in H1.
  destruct run.
  - pose proof (drop_while_length is_space (drop_while p s')).
    pose proof (drop_while_length p s'). lia.
  - pose proof (drop_while_length is_space s'). lia.
Qed.

Lemma after_close_Forall (P : ascii -> Prop) s : forall rest,
  Forall P s -> after_close s = Some rest -> Forall P rest.
Proof.
  induction s as [|c s IH]; intros rest H; [discriminate|].
  inversion H as [|x y Hc Hs]; subst. simpl.
  destruct s as [|d r]; [discriminate|].
  destruct (ch_eqb c "*" && ch_eqb d "/").
  - intros [= <-]. inversion Hs; assumption.
  - apply IH, Hs.
Qed.

Lemma line_comment_Forall (P : ascii -> Prop) s :
  Forall P s -> Forall P (re_sub line_comment s).
Proof.
  apply re_sub_loop_Forall. clear s. intros s repl rest H.
  unfold line_comment. destruct s as [|c1 [|c2 s]]; try discriminate.
  destruct (_ && _); [|discriminate]. intros [= <- <-].
  split; [constructor|]. apply drop_while_Forall.
  inversion H as [|x y H1 H2]; subst. inversion H2; assumption.
Qed.

Lemma block_comment_Forall (P : ascii -> Prop) s :
  Forall P s -> Forall P (re_sub block_comment s).
Proof.
  apply re_sub_loop_Forall. clear s. intros s repl rest H.
  unfold block_comment. destruct s as [|c1 [|c2 s]]; try discriminate.
  destruct (_ && _); [|discriminate].
  destruct (after_close s) as [r|] eqn:E; [|discriminate]. intros [= <- <-].
  split; [constructor|]. eapply after_close_Forall; [|exact E].
  inversion H as [|x y H1 H2]; subst. inversion H2; assumption.
Qed.

Lemma ws_run_Forall (P : ascii -> Prop) s :
  P space -> Forall P s -> Forall P (re_sub ws_run s).
Proof.
  intros Hsp. apply re_sub_loop_Forall. clear s. intros s repl rest H.
  unfold ws_run. destruct s as [|c s]; [discriminate|].
  destruct (is_space c); [|discriminate]. intros [= <- <-].
  split; [repeat constructor; exact Hsp|]. apply drop_while_Forall.
  inversion H; assumption.
Qed.

Lemma ws_run_consuming : consuming ws_run.
Proof.
  intros s repl rest. unfold ws_run. destruct s as [|c s]; [discriminate|].
  destruct (is_space c); [|discriminate]. intros [= <- <-].
  pose proof (drop_while_length is_space s). simpl. lia.
Qed.

Lemma after_close_length s : forall rest,
  after_close s = Some rest -> length rest < length s.
Proof.
  induction s as [|c s IH]; intros rest; [discriminate|].
  simpl. destruct s as [|d r]; [discriminate|].
  destruct (ch_eqb c "*" && ch_eqb d "/").
  - intros [= <-]. simpl. lia.
  - intros E. apply IH in E. simpl in *. lia.
Qed.

(** The two comment patterns consume what they match, so the scanning
    loop never runs out of fuel on any of the six patterns. *)
Lemma line_comment_consuming : consuming line_comment.
Proof.
  intros s repl rest. unfold line_comment.
  destruct s as [|c1 [|c2 s]]; try discriminate.
  destruct (_ && _); [|discriminate]. intros [= <- <-].
  pose proof (drop_while_length (fun c => negb (ch_eqb c newline)) s).
  simpl. lia.
Qed.

Lemma block_comment_consuming : consuming block_comment.
Proof.
  intros s repl rest. unfold block_comment.
  destruct s as [|c1 [|c2 s]]; try discriminate.
  destruct (_ && _); [|discriminate].
  destruct (after_close s) as [r|] eqn:E; [|discriminate]. intros [= <- <-].
  apply after_close_length in E. simpl. lia.
Qed.

Lemma is_operator_not_space c : is_operator c = true -> is_space c = false.
Proof.
  unfold is_operator. intros H.
  repeat (apply orb_prop in H; destruct H as [H|H]);
    (eapply ch_eqb_not_space; [|rewrite <- H; unfold ch_eqb; apply Ascii.eqb_sym]); reflexivity.
Qed.

End Regex.

(** ** [core/normalizer.py] *)
Module Normalizer.
Import PyStr Regex.

(** Lines 35-42 of [normalize]: the spacing passes and the final cleanup. *)
Definition respace (sql : pystr) : pystr :=
  let sql := re_sub operators sql in
  let sql := re_sub commas sql in
  let sql := re_sub open_paren sql in
  let sql := re_sub close_paren sql in
  join [space] (split sql).

(** [SQLNormalizer.normalize] *)
Definition normalize (sql : pystr) : pystr :=
  match sql with
  | [] => []
  | _ =>
      let sql := lower sql in
      let sql := re_sub line_comment sql in
      let sql := re_sub block_comment sql in
      let sql := re_sub ws_run sql in
      let sql := rstrip_semicolons (strip sql) in
      let sql := replace_char dquote squote sql in
      let sql := respace sql in
      strip sql
  end.

(** [SQLNormalizer.exact_match] *)
Definition exact_match (gold predicted : pystr) : bool :=
  str_eqb (normalize gold) (normalize predicted).

(** *** Texts up to the length of their whitespace runs

    The spacing passes only change where whitespace stands between the
    other characters, and the final cleanup reduces every run of
    whitespace to one space.  The definitions below describe a text by
    its non-whitespace characters and the gaps between them. *)

(** A text seen as its non-whitespace characters, each with a flag telling
    whether whitespace precedes it, and a last flag for trailing
    whitespace.  [b] is the flag accumulated so far. *)
Definition item := (bool * ascii)%type.

Fixpoint gaps_from (b : bool) (s : pystr) : list item * bool :=
  match s with
  | [] => ([], b)
  | c :: s' =>
      if is_space c then gaps_from true s'
      else ((b, c) :: fst (gaps_from false s'), snd (gaps_from false s'))
  end.

Definition gaps (s : pystr) : list item * bool := gaps_from false s.

(** A spacing rule decides a gap from the characters on its two sides
    ([None] at the ends of the text) and from whether it was there. *)
Definition gap_rule := option ascii -> option ascii -> bool -> bool.

Fixpoint regap (f : gap_rule) (prev : option ascii) (l : list item) (e : bool)
  : list item * bool :=
  match l with
  | [] => ([], f prev None e)
  | (b, c) :: l' =>
      ((f prev (Some c) b, c) :: fst (regap f (Some c) l' e),
       snd (regap f (Some c) l' e))
  end.

Definition regap_all (f : gap_rule) (prev : option ascii) (g : list item * bool) :=
  regap f prev (fst g) (snd g).

Definition holds (p : ascii -> bool) (o : option ascii) : bool :=
  match o with Some c => p c | None => false end.

(** What [re.sub] with [spaced p run pre post] does to the gaps. *)
Definition spaced_gap (p : ascii -> bool) (run preb postb : bool) : gap_rule :=
  fun prev cur b =>
    match holds p prev, holds p cur with
    | true, true => if run then b && (postb || preb) else postb || preb
    | true, false => postb
    | false, true => preb
    | false, false => b
    end.

Definition blank (b : bool) : pystr := if b then [space] else [].

Fixpoint render_tail (l : list item) : pystr :=
  match l with
  | [] => []
  | (b, c) :: l' => blank b ++ c :: render_tail l'
  end.

Definition render (l : list item) : pystr :=
  match l with
  | [] => []
  | (_, c) :: l' => c :: render_tail l'
  end.

Definition clear_first (l : list item) : list item :=
  match l with
  | [] => []
  | (_, c) :: l' => (false, c) :: l'
  end.

Definition solid (l : list item) : Prop :=
  Forall (fun it : item => is_space (snd it) = false) l.

Definition then_rule (f g : gap_rule) : gap_rule :=
  fun prev cur b => g prev cur (f prev cur b).

Definition settled (f : gap_rule) : Prop :=
  forall prev cur b, f prev cur (f prev cur b) = f prev cur b.

(** The rules of the four spacing passes, in the order they are applied. *)
Definition respace_rule : gap_rule :=
  then_rule (then_rule (then_rule
    (spaced_gap is_operator true true true)
    (spaced_gap (ch_eqb ","%char) false false true))
    (spaced_gap (ch_eqb "("%char) false true false))
    (spaced_gap (ch_eqb ")"%char) false false true).

(** *** The spacing passes act on the gaps *)

Lemma gaps_from_blank b b' s : gaps_from b (blank b' ++ s) = gaps_from (b || b') s.
Proof.
  destruct b'; simpl.
  - destruct b; reflexivity.
  - rewrite orb_false_r. reflexivity.
Qed.

Lemma gaps_from_drop_ws s : forall b,
  gaps_from b s = gaps_from (b || head_is is_space s) (drop_while is_space s).
Proof.
  induction s as [|c s IH]; intros b; simpl.
  - rewrite orb_false_r. reflexivity.
  - destruct (is_space c) eqn:E.
    + rewrite IH, orb_true_r. simpl. destruct s as [|d s']; simpl; [reflexivity|].
      destruct (is_space d) eqn:E'; simpl; [reflexivity|]. rewrite E'. reflexivity.
    + rewrite orb_false_r. simpl. rewrite E. reflexivity.
Qed.

Lemma gaps_from_all_ws s : forall b,
  drop_while is_space s = [] -> gaps_from b s = ([], b || head_is is_space s).
Proof. intros b H. rewrite gaps_from_drop_ws, H. reflexivity. Qed.

Section Spaced.
Variables (p : ascii -> bool) (run preb postb : bool).
Hypothesis p_not_space : forall c, p c = true -> is_space c = false.

Let m : matcher := spaced p run (blank preb) (blank postb).
Let f : gap_rule := spaced_gap p run preb postb.

Local Lemma m_consuming : consuming m.
Proof using Type. apply spaced_consuming. Qed.

Local Lemma m_all_ws s : drop_while is_space s = [] -> no_match m s = true.
Proof using Type.
  induction s as [|c s IH]; intros H.
  - reflexivity.
  - simpl in H. destruct (is_space c) eqn:E; [|discriminate].
    simpl. unfold m at 1, spaced. simpl. rewrite E, H. auto.
Qed.

Local Lemma m_skip_ws s d r :
  drop_while is_space s = d :: r -> p d = false ->
  re_sub m s = take_while is_space s ++ d :: re_sub m r.
Proof using Type.
  induction s as [|c s IH]; intros H Hd; [discriminate|].
  assert (Hn : m (c :: s) = None).
  { unfold m, spaced. rewrite H, Hd. reflexivity. }
  rewrite (re_sub_skip _ m_consuming _ _ Hn).
  simpl in H |- *. destruct (is_space c) eqn:E.
  - simpl. f_equal. auto.
  - injection H as -> ->. reflexivity.
Qed.

Local Lemma gaps_from_take_ws s d r b :
  drop_while is_space s = d :: r ->
  forall x, gaps_from b (take_while is_space s ++ d :: x)
            = ((b || head_is is_space s, d) :: fst (gaps x), snd (gaps x)).
Proof using Type.
  intros H x. pose proof (drop_while_head _ _ _ _ H) as Hd.
  revert b H. induction s as [|c s IH]; intros b H; [discriminate|].
  simpl in H |- *. destruct (is_space c) eqn:E.
  - simpl. rewrite E, IH by assumption. rewrite orb_true_r. reflexivity.
  - injection H as -> ->. simpl. rewrite E, orb_false_r. reflexivity.
Qed.

(** The part of a match after its first character. *)
Local Lemma matched_tail n
  (IHB : forall s q bw, length s < n -> p q = true ->
     head_is is_space s = false ->
     (run = true -> bw = false -> head_is p s = false) ->
     gaps_from postb (re_sub m s) = regap_all f (Some q) (gaps_from bw s)) :
  forall s d, length s < n -> p d = true ->
    gaps_from false
      ((if run then take_while p s else []) ++ blank postb ++
       re_sub m (drop_while is_space (if run then drop_while p s else s)))
    = regap_all f (Some d) (gaps s).
Proof using p_not_space.
  assert (Hstop : forall s d, length s < n -> p d = true ->
            (run = true -> head_is p s = false) ->
            gaps_from false (blank postb ++ re_sub m (drop_while is_space s))
            = regap_all f (Some d) (gaps s)).
  { intros s d Hs Hd Hr. rewrite gaps_from_blank. simpl.
    unfold gaps. rewrite (gaps_from_drop_ws s). simpl.
    apply IHB; auto.
    - pose proof (drop_while_length is_space s). lia.
    - destruct (drop_while is_space s) as [|c r] eqn:E; [reflexivity|].
      simpl. eapply drop_while_head; eauto.
    - intros Hrun Hb. destruct s as [|c s']; [reflexivity|].
      simpl in Hb |- *. rewrite Hb. apply (Hr Hrun). }
  destruct run eqn:Hrun.
  - induction s as [|g s IH]; intros d Hs Hd.
    + apply (Hstop [] d); auto.
    + rewrite (take_while_cons p), (drop_while_cons p). destruct (p g) eqn:Hg.
      * rewrite <- app_comm_cons. unfold gaps. simpl gaps_from. rewrite (p_not_space g Hg).
        unfold regap_all. simpl. unfold regap_all, gaps in IH. rewrite <- IH; auto.
        2:{ simpl in Hs. lia. }
        simpl. unfold f at 1, spaced_gap. simpl. rewrite Hd, Hg. reflexivity.
      * rewrite app_nil_l. apply Hstop; auto; intros _; exact Hg.
  - intros s d Hs Hd. rewrite app_nil_l. apply Hstop; auto; discriminate.
Qed.

Local Lemma spaced_gaps_both n :
  (forall s prev, length s < n -> holds p prev = false ->
     gaps (re_sub m s) = regap_all f prev (gaps s)) /\
  (forall s q bw, length s < n -> p q = true ->
     head_is is_space s = false ->
     (run = true -> bw = false -> head_is p s = false) ->
     gaps_from postb (re_sub m s) = regap_all f (Some q) (gaps_from bw s)).
Proof using p_not_space.
  induction n as [|n [IHA IHB]]; [split; intros; lia|].
  assert (Hmatch : forall s d r b0, length s < S n ->
            drop_while is_space s = d :: r -> p d = true ->
            gaps_from b0 (re_sub m s)
            = ((b0 || preb, d) :: fst (regap_all f (Some d) (gaps r)),
               snd (regap_all f (Some d) (gaps r)))).
  { intros s d r b0 Hs Hdw Hd.
    assert (Hm : m s = Some (blank preb ++
                   (if run then d :: take_while p r else [d]) ++ blank postb,
                   drop_while is_space (if run then drop_while p r else r))).
    { unfold m, spaced. rewrite Hdw, Hd. reflexivity. }
    rewrite (re_sub_match _ m_consuming _ _ _ Hm).
    rewrite <- !app_assoc, gaps_from_blank.
    assert (Hr : length r < n).
    { pose proof (drop_while_length is_space s) as H. rewrite Hdw in H. simpl in H. lia. }
    pose proof (matched_tail n IHB r d Hr Hd) as HT.
    replace ((if run then d :: take_while p r else [d]) ++ blank postb ++
             re_sub m (drop_while is_space (if run then drop_while p r else r)))
      with (d :: ((if run then take_while p r else []) ++ blank postb ++
             re_sub m (drop_while is_space (if run then drop_while p r else r))))
      by (destruct run; reflexivity).
    simpl gaps_from. rewrite (p_not_space d Hd). rewrite HT. reflexivity. }
  split.
  - intros s prev Hs Hprev.
    destruct (drop_while is_space s) as [|d r] eqn:Hdw.
    + rewrite (re_sub_no_match _ _ (m_all_ws s Hdw)).
      unfold gaps. rewrite (gaps_from_all_ws s false Hdw).
      unfold regap_all. simpl. unfold f, spaced_gap. rewrite Hprev. reflexivity.
    + assert (Hr : length r < n).
      { pose proof (drop_while_length is_space s) as H. rewrite Hdw in H. simpl in H. lia. }
      destruct (p d) eqn:Hd.
      * unfold gaps at 1. rewrite (Hmatch s d r false Hs Hdw Hd).
        unfold gaps at 3. rewrite (gaps_from_drop_ws s), Hdw.
        pose proof (drop_while_head _ _ _ _ Hdw) as Hsp.
        simpl gaps_from. rewrite Hsp. unfold regap_all. simpl.
        unfold f, spaced_gap. rewrite Hprev. simpl. rewrite Hd.
        reflexivity.
      * rewrite (m_skip_ws s d r Hdw Hd).
        unfold gaps at 1. rewrite (gaps_from_take_ws s d r false Hdw).
        rewrite (IHA r (Some d) Hr Hd).
        unfold gaps at 3. rewrite (gaps_from_drop_ws s), Hdw.
        pose proof (drop_while_head _ _ _ _ Hdw) as Hsp.
        simpl gaps_from. rewrite Hsp. unfold regap_all. simpl.
        unfold f, spaced_gap. rewrite Hprev. simpl. rewrite Hd.
        reflexivity.
  - intros s q bw Hs Hq Hhead Hrun.
    destruct s as [|d r].
    + rewrite re_sub_nil by reflexivity. unfold regap_all. simpl.
      unfold f, spaced_gap. simpl. rewrite Hq. reflexivity.
    + simpl in Hhead. assert (Hdw : drop_while is_space (d :: r) = d :: r).
      { simpl. rewrite Hhead. reflexivity. }
      assert (Hr : length r < n) by (simpl in Hs; lia).
      destruct (p d) eqn:Hd.
      * rewrite (Hmatch (d :: r) d r postb Hs Hdw Hd).
        simpl gaps_from. rewrite Hhead. unfold regap_all. simpl.
        unfold f, spaced_gap. simpl. rewrite Hq, Hd.
        assert (Hb : (if run then bw && (postb || preb) else postb || preb) = postb || preb).
        { destruct run; [|reflexivity]. destruct bw; [reflexivity|].
          specialize (Hrun eq_refl eq_refl). simpl in Hrun. congruence. }
        rewrite Hb. reflexivity.
      * assert (Hn : m (d :: r) = None).
        { unfold m, spaced. rewrite Hdw, Hd. reflexivity. }
        rewrite (re_sub_skip _ m_consuming _ _ Hn).
        simpl gaps_from. rewrite Hhead.
        fold (gaps (re_sub m r)). rewrite (IHA r (Some d) Hr Hd).
        unfold regap_all. simpl. unfold f, spaced_gap. simpl.
        rewrite Hq, Hd. reflexivity.
Qed.

(** [re.sub] with a spacing pattern acts on the gaps alone. *)
Lemma spaced_gaps s :
  gaps (re_sub (spaced p run (blank preb) (blank postb)) s)
  = regap_all (spaced_gap p run preb postb) None (gaps s).
Proof using p_not_space.
  apply (proj1 (spaced_gaps_both (S (length s)))); [lia|reflexivity].
Qed.

End Spaced.

Lemma gaps_from_solid s : forall b, solid (fst (gaps_from b s)).
Proof.
  induction s as [|c s IH]; intros b; simpl; [constructor|].
  destruct (is_space c) eqn:E; [apply IH|].
  simpl. constructor; [exact E|apply IH].
Qed.

Lemma split_from_nil s : forall b,
  match fst (gaps_from b s) with
  | [] => split_from [] s = []
  | _ => split_from [] s <> []
  end.
Proof.
  induction s as [|c s IH]; intros b; simpl; [reflexivity|].
  destruct (is_space c); [apply IH|].
  simpl. apply split_from_cons. discriminate.
Qed.

Lemma gaps_from_head_flag s : forall b b1 c1 l,
  fst (gaps_from b s) = (b1, c1) :: l -> b = true -> b1 = true.
Proof.
  induction s as [|d s IH]; intros b b1 c1 l; simpl; [discriminate|].
  destruct (is_space d); [intros H _; eapply IH; eauto|].
  simpl. congruence.
Qed.

Lemma render_tail_gap c l : render_tail ((true, c) :: l) = space :: render ((true, c) :: l).
Proof. reflexivity. Qed.

Lemma join_split_from s : forall cur b,
  join [space] (split_from cur s) =
  match cur with
  | [] => render (fst (gaps_from b s))
  | _ => cur ++ render_tail (fst (gaps_from false s))
  end.
Proof.
  induction s as [|c s IH]; intros cur b.
  - simpl. destruct cur; [reflexivity|]. rewrite app_nil_r. reflexivity.
  - simpl. destruct (is_space c) eqn:E.
    + destruct cur as [|a cur].
      * apply (IH [] true).
      * pose proof (split_from_nil s true) as Hn.
        assert (Hj : join [space] (split_from [] s) = render (fst (gaps_from true s)))
          by apply (IH [] true).
        destruct (fst (gaps_from true s)) as [|[b1 c1] l] eqn:Eg.
        -- rewrite Hn. simpl. rewrite app_nil_r. reflexivity.
        -- destruct (split_from [] s) as [|w ws] eqn:Es; [congruence|].
           assert (Hb1 : b1 = true) by (eapply gaps_from_head_flag; eauto).
           subst b1. rewrite render_tail_gap.
           change (join [space] ((a :: cur) :: w :: ws))
             with ((a :: cur) ++ [space] ++ join [space] (w :: ws)).
           rewrite Hj. reflexivity.
    + specialize (IH (cur ++ [c]) b). rewrite IH.
      destruct cur as [|a cur]; simpl; [reflexivity|].
      rewrite <- app_assoc. reflexivity.
Qed.

(** [' '.join(s.split())] keeps the characters and the gaps between them. *)
Lemma join_split s : join [space] (split s) = render (fst (gaps s)).
Proof. apply (join_split_from s [] false). Qed.

Lemma gaps_render_tail l : solid l -> gaps_from false (render_tail l) = (l, false).
Proof.
  induction 1 as [|[b c] l Hc Hl IH]; [reflexivity|].
  simpl in Hc. simpl render_tail. rewrite gaps_from_blank. simpl.
  rewrite Hc, IH. reflexivity.
Qed.

Lemma gaps_render l : solid l -> gaps (render l) = (clear_first l, false).
Proof.
  intros H. destruct H as [|[b c] l Hc Hl]; [reflexivity|].
  simpl in Hc. unfold gaps. simpl. rewrite Hc, gaps_render_tail by assumption.
  reflexivity.
Qed.

Lemma regap_then f g : forall l prev e,
  regap_all g prev (regap f prev l e) = regap (then_rule f g) prev l e.
Proof.
  unfold regap_all. induction l as [|[b c] l IH]; intros prev e; [reflexivity|].
  simpl. rewrite IH. reflexivity.
Qed.

Lemma regap_solid f : forall l prev e, solid l -> solid (fst (regap f prev l e)).
Proof.
  induction l as [|[b c] l IH]; intros prev e H; simpl; [constructor|].
  inversion H as [|x y Hc Hl]; subst. constructor; [exact Hc|apply IH, Hl].
Qed.

Lemma regap_chars f : forall l prev e, map snd (fst (regap f prev l e)) = map snd l.
Proof.
  induction l as [|[b c] l IH]; intros prev e; simpl; [reflexivity|].
  rewrite IH. reflexivity.
Qed.

Lemma regap_settled f (Hf : settled f) : forall l prev e e',
  fst (regap f prev (fst (regap f prev l e)) e') = fst (regap f prev l e).
Proof.
  induction l as [|[b c] l IH]; intros prev e e'; simpl; [reflexivity|].
  rewrite Hf, IH. reflexivity.
Qed.

Lemma render_regap_again f (Hf : settled f) l e e' :
  render (fst (regap f None (clear_first (fst (regap f None l e))) e'))
  = render (fst (regap f None l e)).
Proof.
  destruct l as [|[b c] l]; [reflexivity|].
  simpl. rewrite regap_settled by assumption. reflexivity.
Qed.

Lemma respace_gaps s :
  respace s = render (fst (regap respace_rule None (fst (gaps s)) (snd (gaps s)))).
Proof.
  unfold respace. rewrite join_split. f_equal. f_equal.
  unfold operators, commas, open_paren, close_paren.
  change [space] with (blank true). change (@nil ascii) with (blank false).
  rewrite (spaced_gaps (ch_eqb ")"%char) false false true).
  2:{ intros c H. eapply ch_eqb_not_space; [|exact H]. reflexivity. }
  rewrite (spaced_gaps (ch_eqb "("%char) false true false).
  2:{ intros c H. eapply ch_eqb_not_space; [|exact H]. reflexivity. }
  rewrite (spaced_gaps (ch_eqb ","%char) false false true).
  2:{ intros c H. eapply ch_eqb_not_space; [|exact H]. reflexivity. }
  rewrite (spaced_gaps is_operator true true true) by apply is_operator_not_space.
  unfold regap_all at 4. rewrite !regap_then. reflexivity.
Qed.

Lemma respace_rule_settled : settled respace_rule.
Proof.
  intros prev cur b. unfold respace_rule, then_rule, spaced_gap.
  destruct prev as [a|], cur as [c|]; cbv [holds];
    repeat match goal with
           | |- context [is_operator ?x] => generalize (is_operator x); intro
           | |- context [ch_eqb ?x ?y] => generalize (ch_eqb x y); intro
           end;
    repeat match goal with x : bool |- _ => destruct x end; reflexivity.
Qed.

(** The spacing passes followed by the cleanup are idempotent. *)
Lemma respace_idempotent s : respace (respace s) = respace s.
Proof.
  rewrite (respace_gaps (respace s)), (respace_gaps s).
  rewrite gaps_render by (apply regap_solid, gaps_from_solid).
  simpl fst. simpl snd. apply render_regap_again, respace_rule_settled.
Qed.

Lemma render_tail_ends l : solid l -> ends_with is_space (render_tail l) = false.
Proof.
  unfold ends_with. induction 1 as [|[b c] l Hc Hl IH]; [reflexivity|].
  simpl in Hc. simpl render_tail. rewrite rev_app_distr. simpl rev.
  rewrite <- !app_assoc, head_is_app.
  destruct (rev (render_tail l)); [simpl; exact Hc|exact IH].
Qed.

Lemma render_ends l : solid l -> ends_with is_space (render l) = false.
Proof.
  intros H. destruct H as [|[b c] l Hc Hl]; [reflexivity|].
  apply (render_tail_ends ((false, c) :: l)). constructor; assumption.
Qed.

Lemma strip_render l : solid l -> strip (render l) = render l.
Proof.
  intros H. unfold strip, lstrip, rstrip.
  rewrite drop_while_id.
  - apply rstrip_by_id, render_ends, H.
  - destruct H as [|[b c] l Hc Hl]; [reflexivity|exact Hc].
Qed.

Lemma ws_run_render_tail l : solid l -> re_sub ws_run (render_tail l) = render_tail l.
Proof.
  induction 1 as [|[b c] l Hc Hl IH]; [reflexivity|].
  simpl in Hc. simpl render_tail.
  assert (Hskip : re_sub ws_run (c :: render_tail l) = c :: render_tail l).
  { rewrite re_sub_skip, IH; auto using ws_run_consuming.
    unfold ws_run. rewrite Hc. reflexivity. }
  destruct b; simpl blank; [|exact Hskip].
  rewrite (re_sub_match _ ws_run_consuming _ [space] (c :: render_tail l)).
  - rewrite Hskip. reflexivity.
  - unfold ws_run. simpl. rewrite Hc. reflexivity.
Qed.

Lemma ws_run_render l : solid l -> re_sub ws_run (render l) = render l.
Proof.
  intros H. destruct H as [|[b c] l Hc Hl]; [reflexivity|].
  apply (ws_run_render_tail ((false, c) :: l)). constructor; assumption.
Qed.

(** Characters that the passes keep: every pass only deletes characters,
    inserts spaces, or turns a double quote into a single quote. *)
Lemma render_tail_Forall (P : ascii -> Prop) l :
  P space -> Forall P (map snd l) -> Forall P (render_tail l).
Proof.
  intros Hsp. induction l as [|[b c] l IH]; intros H; [constructor|].
  inversion H as [|x y Hc Hl]; subst. simpl.
  apply Forall_app. split; [destruct b; repeat constructor; exact Hsp|].
  constructor; auto.
Qed.

Lemma render_Forall (P : ascii -> Prop) l :
  P space -> Forall P (map snd l) -> Forall P (render l).
Proof.
  intros Hsp H. destruct l as [|[b c] l]; [constructor|].
  inversion H as [|x y Hc Hl]; subst. simpl. constructor; [exact Hc|].
  apply render_tail_Forall; assumption.
Qed.

Lemma gaps_from_Forall (P : ascii -> Prop) s : forall b,
  Forall P s -> Forall P (map snd (fst (gaps_from b s))).
Proof.
  induction s as [|c s IH]; intros b H; [constructor|].
  inversion H as [|x y Hc Hs]; subst. simpl.
  destruct (is_space c); [apply IH, Hs|]. simpl. constructor; [exact Hc|apply IH, Hs].
Qed.

Lemma respace_Forall (P : ascii -> Prop) s :
  P space -> Forall P s -> Forall P (respace s).
Proof.
  intros Hsp H. rewrite respace_gaps. apply render_Forall; [exact Hsp|].
  rewrite regap_chars. apply gaps_from_Forall, H.
Qed.

(** The body of [normalize] also maps the empty string to itself, so the
    guard of line 16 can be dropped when reasoning. *)
Lemma normalize_unfold s :
  normalize s =
  strip (respace (replace_char dquote squote (rstrip_semicolons (strip
    (re_sub ws_run (re_sub block_comment (re_sub line_comment (lower s)))))))).
Proof. destruct s; reflexivity. Qed.

Lemma normalize_respaced s : exists x, normalize s = respace x.
Proof.
  rewrite normalize_unfold. eexists. rewrite respace_gaps at 1.
  rewrite strip_render by (apply regap_solid, gaps_from_solid).
  rewrite <- respace_gaps. reflexivity.
Qed.

Lemma respace_render s : exists l, solid l /\ respace s = render l.
Proof.
  eexists. split; [|apply respace_gaps]. apply regap_solid, gaps_from_solid.
Qed.

Lemma normalize_lowercase s : Forall (fun c => lower_char c = c) (normalize s).
Proof.
  rewrite normalize_unfold.
  apply strip_Forall, respace_Forall; [reflexivity|].
  apply replace_char_Forall; [reflexivity|].
  apply rstrip_by_Forall, strip_Forall, ws_run_Forall; [reflexivity|].
  apply block_comment_Forall, line_comment_Forall.
  unfold lower. apply Forall_map, Forall_forall. intros c _. apply lower_char_idempotent.
Qed.

Lemma normalize_no_dquote s : Forall (fun c => ch_eqb c dquote = false) (normalize s).
Proof.
  rewrite normalize_unfold.
  apply strip_Forall, respace_Forall; [reflexivity|].
  apply replace_char_gone. reflexivity.
Qed.

(** C1 (as amended).  [normalize] applied to its own output returns that
    output whenever the output holds no line comment [--...], no block
    comment [/*...*/] and does not end in a semicolon.  (Without these
    conditions idempotence fails: a statement may normalize to one that
    ends in a semicolon or holds a comment.) *)
Theorem normalize_idempotent_when_clean (s : pystr) :
  no_match line_comment (normalize s) = true ->
  no_match block_comment (normalize s) = true ->
  ends_with (ch_eqb ";"%char) (normalize s) = false ->
  normalize (normalize s) = normalize s.
Proof.
  intros Hline Hblock Hsemi.
  destruct (normalize_respaced s) as [x Hx].
  destruct (respace_render x) as [l [Hl Hr]].
  pose proof (normalize_lowercase s) as Hlow.
  pose proof (normalize_no_dquote s) as Hdq.
  assert (Ht : normalize s = render l) by congruence.
  assert (Hre : respace (normalize s) = normalize s)
    by (rewrite Hx; apply respace_idempotent).
  revert Hline Hblock Hsemi Hlow Hdq Ht Hre.
  generalize (normalize s). intros t Hline Hblock Hsemi Hlow Hdq Ht Hre.
  rewrite (normalize_unfold t), (lower_fixed _ Hlow).
  rewrite (re_sub_no_match _ _ Hline), (re_sub_no_match _ _ Hblock).
  assert (Hws : re_sub ws_run t = t) by (rewrite Ht; apply ws_run_render, Hl).
  assert (Hst : strip t = t) by (rewrite Ht; apply strip_render, Hl).
  unfold rstrip_semicolons.
  rewrite Hws, Hst, (rstrip_by_id _ _ Hsemi), (replace_char_fixed _ _ _ Hdq), Hre.
  exact Hst.
Qed.

(** The theorem at a statement with capitals, runs of blanks, an operator
    and a terminator. *)
Lemma normalize_idempotent_when_clean_witness :
  normalize (normalize (py "SELECT  Name FROM t WHERE a>=1 ;"))
  = normalize (py "SELECT  Name FROM t WHERE a>=1 ;").
Proof.
  apply (normalize_idempotent_when_clean (py "SELECT  Name FROM t WHERE a>=1 ;"));
    vm_compute; reflexivity.
Defined.

(** C1 as stated fails: [rstrip(';')] runs before the final cleanup, so
    ["a; ;"] normalizes to ["a;"], which normalizes to ["a"]. *)
Lemma normalize_not_idempotent :
  normalize (normalize (py "a; ;")) <> normalize (py "a; ;").
Proof. vm_compute. discriminate. Qed.

(** A block comment between two dashes leaves a line comment behind. *)
Example normalize_joins_dashes :
  normalize (py "-/**/-") = py "--" /\ normalize (py "--") = [].
Proof. split; vm_compute; reflexivity. Qed.

Example normalize_select :
  normalize (py "SELECT  count(*) FROM t WHERE a>=1 AND b IN (1,2) ;")
  = py "select count (*) from t where a >= 1 and b in (1, 2)".
Proof. vm_compute. reflexivity. Qed.

(** [exact_match] is symmetric. *)
Theorem exact_match_symmetric (a b : pystr) : exact_match a b = exact_match b a.
Proof.
  unfold exact_match.
  destruct (str_eqb (normalize a) (normalize b)) eqn:E1,
           (str_eqb (normalize b) (normalize a)) eqn:E2; try reflexivity.
  - apply str_eqb_eq in E1. rewrite E1, (proj2 (str_eqb_eq _ _) eq_refl) in E2.
    discriminate.
  - apply str_eqb_eq in E2. rewrite E2, (proj2 (str_eqb_eq _ _) eq_refl) in E1.
    discriminate.
Qed.

(** Two statements that differ in the case of their letters only have
    the same normal form, and so are an exact match. *)
Theorem normalize_ignores_case (a b : pystr) :
  lower a = lower b -> normalize a = normalize b /\ exact_match a b = true.
Proof.
  intros E.
  assert (N : normalize a = normalize b)
    by (rewrite (normalize_unfold a), (normalize_unfold b), E; reflexivity).
  split; [exact N|]. unfold exact_match. apply str_eqb_eq, N.
Qed.

Lemma normalize_ignores_case_witness :
  normalize (py "SELECT Name FROM Singer") = normalize (py "select name from singer")
  /\ exact_match (py "SELECT Name FROM Singer") (py "select name from singer") = true.
Proof.
  apply (normalize_ignores_case (py "SELECT Name FROM Singer")
           (py "select name from singer")).
  reflexivity.
Defined.

End Normalizer.

(** ** [str] and [repr] of the values the evaluators print *)
Module PyRepr.
Import PyStr.

(** [str(n)] for an [int] *)
Definition str_of_int (z : Z) : pystr :=
  list_ascii_of_string (NilZero.string_of_int (Z.to_int z)).

Definition hex_digit (n : N) : ascii :=
  if (n <? 10)%N then ascii_of_N (48 + n) else ascii_of_N (87 + n).

(** The escape [\xhh] *)
Definition hex_escape (c : ascii) : pystr :=
  ["\"%char; "x"%char; hex_digit (code c / 16); hex_digit (code c mod 16)].

(** [str.isprintable] on one code point below 256 *)
Definition is_printable (c : ascii) : bool :=
  let n := code c in
  ((32 <=? n) && (n <? 127) || (161 <=? n) && negb (n =? 173))%N.

Definition contains (c : ascii) (s : pystr) : bool := existsb (ch_eqb c) s.

(** The quote [repr] encloses [s] in: a double quote when [s] holds a
    single quote and no double quote, a single quote otherwise. *)
Definition repr_quote (s : pystr) : ascii :=
  if contains squote s && negb (contains dquote s) then dquote else squote.

Definition backslash : ascii := "\"%char.

(** One character of [repr(s)] for a [str], [q] being the enclosing quote. *)
Definition repr_char (q c : ascii) : pystr :=
  if ch_eqb c q || ch_eqb c backslash then [backslash; c]
  else if ch_eqb c (ascii_of_N 9) then [backslash; "t"%char]
  else if ch_eqb c (ascii_of_N 10) then [backslash; "n"%char]
  else if ch_eqb c (ascii_of_N 13) then [backslash; "r"%char]
  else if is_printable c then [c]
  else hex_escape c.

(** [repr(s)] for a [str] *)
Definition repr_str (s : pystr) : pystr :=
  let q := repr_quote s in
  q :: flat_map (repr_char q) s ++ [q].

(** One byte of [repr(b)] for a [bytes] object. *)
Definition repr_byte (q c : ascii) : pystr :=
  if ch_eqb c q || ch_eqb c backslash then [backslash; c]
  else if ch_eqb c (ascii_of_N 9) then [backslash; "t"%char]
  else if ch_eqb c (ascii_of_N 10) then [backslash; "n"%char]
  else if ch_eqb c (ascii_of_N 13) then [backslash; "r"%char]
  else if ((32 <=? code c) && (code c <? 127))%N then [c]
  else hex_escape c.

(** [repr(b)] for a [bytes] object, which is also [str(b)] *)
Definition repr_bytes (b : pystr) : pystr :=
  let q := repr_quote b in
  "b"%char :: q :: flat_map (repr_byte q) b ++ [q].

(** [repr(t)] for a tuple of strings: [()], [(x,)], [(x, y, ...)] *)
Definition repr_tuple (t : list pystr) : pystr :=
  match t with
  | [x] => py "(" ++ repr_str x ++ py ",)"
  | _ => py "(" ++ join (py ", ") (map repr_str t) ++ py ")"
  end.

(** [str(l)] for a list of tuples of strings *)
Definition str_of_rows (l : list (list pystr)) : pystr :=
  py "[" ++ join (py ", ") (map repr_tuple l) ++ py "]".

(** Lexicographic comparison of sequences, as Python compares strings
    (by code point) and tuples (by element). *)
Fixpoint lex_compare {A} (cmp : A -> A -> comparison) (a b : list A) : comparison :=
  match a, b with
  | [], [] => Eq
  | [], _ :: _ => Lt
  | _ :: _, [] => Gt
  | x :: a', y :: b' =>
      match cmp x y with
      | Eq => lex_compare cmp a' b'
      | c => c
      end
  end.

Definition char_compare (a b : ascii) : comparison := N.compare (code a) (code b).
Definition str_compare : pystr -> pystr -> comparison := lex_compare char_compare.
Definition tuple_compare : list pystr -> list pystr -> comparison :=
  lex_compare str_compare.

(** [a < b] on tuples of strings *)
Definition tuple_ltb (a b : list pystr) : bool :=
  match tuple_compare a b with Lt => true | _ => false end.

(** [list.sort()] is a stable sort that compares with [<] only; on a list
    of tuples of strings every such sort returns the same list.  It is
    modelled by stable insertion. *)
Fixpoint insert_sorted (x : list pystr) (l : list (list pystr)) : list (list pystr) :=
  match l with
  | [] => [x]
  | y :: l' => if tuple_ltb y x then y :: insert_sorted x l' else x :: l
  end.

Fixpoint sort_rows (l : list (list pystr)) : list (list pystr) :=
  match l with
  | [] => []
  | x :: l' => insert_sorted x (sort_rows l')
  end.

(** A comparison that is a strict total order. *)
Record ordered {A} (cmp : A -> A -> comparison) : Prop := {
  cmp_eq : forall x y, cmp x y = Eq -> x = y;
  cmp_antisym : forall x y, cmp y x = CompOpp (cmp x y);
  cmp_trans : forall x y z, cmp x y = Lt -> cmp y z = Lt -> cmp x z = Lt
}.

(** *** Facts about comparison and sorting *)

Lemma char_compare_ordered : ordered char_compare.
Proof.
  unfold char_compare, code. split.
  - intros x y H. apply N.compare_eq in H.
    rewrite <- (ascii_N_embedding x), <- (ascii_N_embedding y), H. reflexivity.
  - intros x y. apply N.compare_antisym.
  - intros x y z. rewrite !N.compare_lt_iff. lia.
Qed.

Lemma lex_compare_ordered {A} (cmp : A -> A -> comparison) :
  ordered cmp -> ordered (lex_compare cmp).
Proof.
  intros [Heq Hanti Htrans]. split.
  - induction x as [|a x IH]; intros [|b y]; simpl; try discriminate; [reflexivity|].
    destruct (cmp a b) eqn:E; try discriminate.
    intros H. rewrite (Heq _ _ E), (IH _ H). reflexivity.
  - induction x as [|a x IH]; intros [|b y]; simpl; try reflexivity.
    rewrite (Hanti a b). destruct (cmp a b); simpl; auto.
  - induction x as [|a x IH]; intros [|b y] [|c z]; simpl; try discriminate; auto.
    destruct (cmp a b) eqn:Eab; try discriminate.
    + apply Heq in Eab. subst b. destruct (cmp a c); try discriminate; eauto.
    + destruct (cmp b c) eqn:Ebc; try discriminate.
      * apply Heq in Ebc. subst c. rewrite Eab. reflexivity.
      * rewrite (Htrans _ _ _ Eab Ebc). reflexivity.
Qed.

Lemma tuple_compare_ordered : ordered tuple_compare.
Proof. apply lex_compare_ordered, lex_compare_ordered, char_compare_ordered. Qed.

Lemma tuple_ltb_asym x y : tuple_ltb x y = true -> tuple_ltb y x = false.
Proof.
  unfold tuple_ltb. rewrite (cmp_antisym _ tuple_compare_ordered x y).
  destruct (tuple_compare x y); simpl; congruence.
Qed.

Lemma tuple_ltb_total x y : tuple_ltb x y = false -> tuple_ltb y x = false -> x = y.
Proof.
  unfold tuple_ltb. rewrite (cmp_antisym _ tuple_compare_ordered x y).
  destruct (tuple_compare x y) eqn:E; simpl; try congruence.
  intros _ _. apply (cmp_eq _ tuple_compare_ordered), E.
Qed.

Lemma tuple_ltb_trans x y z :
  tuple_ltb x y = true -> tuple_ltb y z = true -> tuple_ltb x z = true.
Proof.
  unfold tuple_ltb.
  destruct (tuple_compare x y) eqn:E1; try discriminate.
  destruct (tuple_compare y z) eqn:E2; try discriminate.
  rewrite (cmp_trans _ tuple_compare_ordered _ _ _ E1 E2). reflexivity.
Qed.

Lemma tuple_ltb_between z x y :
  tuple_ltb z x = false -> tuple_ltb z y = true -> tuple_ltb x y = true.
Proof.
  intros Hzx Hzy. destruct (tuple_ltb x z) eqn:Hxz.
  - eapply tuple_ltb_trans; eassumption.
  - rewrite (tuple_ltb_total _ _ Hxz Hzx). exact Hzy.
Qed.

Lemma insert_sorted_pair x y l :
  (if tuple_ltb y x then y :: x :: l else x :: y :: l)
  = (if tuple_ltb x y then x :: y :: l else y :: x :: l).
Proof.
  destruct (tuple_ltb y x) eqn:Eyx, (tuple_ltb x y) eqn:Exy; try reflexivity.
  - apply tuple_ltb_asym in Eyx. congruence.
  - rewrite (tuple_ltb_total _ _ Exy Eyx). reflexivity.
Qed.

Lemma insert_sorted_comm x y l :
  insert_sorted x (insert_sorted y l) = insert_sorted y (insert_sorted x l).
Proof.
  induction l as [|z l IH]; simpl.
  - apply insert_sorted_pair.
  - destruct (tuple_ltb z y) eqn:Ezy, (tuple_ltb z x) eqn:Ezx; simpl;
      rewrite ?Ezy, ?Ezx.
    + rewrite IH. reflexivity.
    + rewrite (tuple_ltb_between _ _ _ Ezx Ezy). reflexivity.
    + rewrite (tuple_ltb_between _ _ _ Ezy Ezx). reflexivity.
    + destruct (tuple_ltb y x) eqn:Eyx, (tuple_ltb x y) eqn:Exy; simpl;
        rewrite ?Ezx, ?Ezy; try reflexivity.
      * apply tuple_ltb_asym in Eyx. congruence.
      * rewrite (tuple_ltb_total _ _ Exy Eyx). reflexivity.
Qed.

(** Sorting forgets the order of its input. *)
Lemma sort_rows_permutation l1 l2 :
  Permutation l1 l2 -> sort_rows l1 = sort_rows l2.
Proof.
  induction 1 as [|x l1 l2 _ IH|x y l|l1 l2 l3 _ IH1 _ IH2]; simpl.
  - reflexivity.
  - rewrite IH. reflexivity.
  - apply insert_sorted_comm.
  - congruence.
Qed.

End PyRepr.

(** ** [core/results.py] *)
Module Results.
Import PyStr.

Record BenchmarkResult := {
  question : pystr;
  db_id : pystr;
  gold_sql : pystr;
  predicted_sql : pystr;
  exact_match : bool;
  execution_match : option bool;
  llm_judge_match : option bool;
  llm_judge_score : Z;
  llm_judge_reasoning : pystr;
  is_valid_sql : bool;
  error : option pystr;
  latency_ms : Q
}.

Record BenchmarkReport := {
  total_samples : Z;
  exact_match_count : Z;
  execution_match_count : Z;
  llm_judge_match_count : Z;
  llm_judge_total_score : Z;
  valid_sql_count : Z;
  error_count : Z;
  total_latency_ms : Q;
  results : list BenchmarkResult
}.

(** [BenchmarkReport()] *)
Definition new_report : BenchmarkReport := {|
  total_samples := 0;
  exact_match_count := 0;
  execution_match_count := 0;
  llm_judge_match_count := 0;
  llm_judge_total_score := 0;
  valid_sql_count := 0;
  error_count := 0;
  total_latency_ms := 0%Q;
  results := []
|}.

(** [x is not None] *)
Definition is_set {A} (o : option A) : bool :=
  match o with Some _ => true | None => false end.

(** [if x:] for an [Optional[bool]] *)
Definition is_true (o : option bool) : bool :=
  match o with Some true => true | _ => false end.

(** [sum(...)] of integers, from 0 *)
Definition py_sum (l : list Z) : Z := fold_left Z.add l 0%Z.

(** [x / y] on two [int]s, as the exact quotient the float result rounds. *)
Definition true_div (x y : Z) : Q := (inject_Z x / inject_Z y)%Q.

Definition exact_match_accuracy (self : BenchmarkReport) : Q :=
  if (total_samples self >? 0)%Z
  then true_div (exact_match_count self) (total_samples self) else 0%Q.

Definition execution_accuracy (self : BenchmarkReport) : Q :=
  let executed :=
    py_sum (map (fun _ => 1%Z)
              (List.filter (fun r => is_set (execution_match r)) (results self))) in
  if (executed =? 0)%Z then 0%Q
  else true_div (execution_match_count self) executed.

Definition llm_judge_accuracy (self : BenchmarkReport) : Q :=
  let judged :=
    py_sum (map (fun _ => 1%Z)
              (List.filter (fun r => is_set (llm_judge_match r)) (results self))) in
  if (judged =? 0)%Z then 0%Q
  else true_div (llm_judge_match_count self) judged.

Definition llm_judge_avg_score (self : BenchmarkReport) : Q :=
  let judged :=
    py_sum (map (fun _ => 1%Z)
              (List.filter (fun r => is_set (llm_judge_match r)) (results self))) in
  if (judged =? 0)%Z then 0%Q
  else true_div (llm_judge_total_score self) judged.

Definition valid_sql_rate (self : BenchmarkReport) : Q :=
  if (total_samples self >? 0)%Z
  then true_div (valid_sql_count self) (total_samples self) else 0%Q.

(** A result with the dataclass defaults and the given
    [execution_match]. *)
Definition result_with_execution (m : option bool) : BenchmarkResult := {|
  question := []; db_id := []; gold_sql := []; predicted_sql := [];
  exact_match := false;
  execution_match := m;
  llm_judge_match := None;
  llm_judge_score := 0;
  llm_judge_reasoning := [];
  is_valid_sql := true;
  error := None;
  latency_ms := 0%Q
|}.

(** Ten samples; the gold query ran for four of them, and three of those
    matched. *)
Definition ten_samples_four_executed : BenchmarkReport := {|
  total_samples := 10;
  exact_match_count := 0;
  execution_match_count := 3;
  llm_judge_match_count := 0;
  llm_judge_total_score := 0;
  valid_sql_count := 10;
  error_count := 0;
  total_latency_ms := 0%Q;
  results :=
    map result_with_execution
      [Some true; None; Some true; None; None; Some false; None; Some true;
       None; None]
|}.

(** The number of results that satisfy [p]. *)
Definition count (p : BenchmarkResult -> bool) (l : list BenchmarkResult) : Z :=
  Z.of_nat (length (List.filter p l)).

Lemma py_sum_ones {A} (l : list A) :
  py_sum (map (fun _ => 1%Z) l) = Z.of_nat (length l).
Proof.
  unfold py_sum. assert (H : forall acc,
    fold_left Z.add (map (fun _ : A => 1%Z) l) acc = (acc + Z.of_nat (length l))%Z).
  { induction l as [|x l IH]; intros acc; simpl length; simpl map; simpl fold_left.
    - lia.
    - rewrite IH. lia. }
  rewrite H. lia.
Qed.

(** C4.  [execution_accuracy] is [execution_match_count] divided by the
    number of results whose [execution_match] is set, and 0.0 when no
    result has it set; a report of 10 samples, 4 of them with
    [execution_match] set, 3 counted as matches, has accuracy 0.75 (and
    not 0.3, the quotient by [total_samples]). *)
Theorem execution_accuracy_denominator :
  (forall self : BenchmarkReport,
     let executed := count (fun r => is_set (execution_match r)) (results self) in
     execution_accuracy self =
       if (executed =? 0)%Z then 0%Q
       else (inject_Z (execution_match_count self) / inject_Z executed)%Q) /\
  (forall self : BenchmarkReport,
     total_samples self = 10%Z ->
     length (results self) = 10%nat ->
     count (fun r => is_set (execution_match r)) (results self) = 4%Z ->
     execution_match_count self = 3%Z ->
     (execution_accuracy self == 75 # 100)%Q /\
     ~ (execution_accuracy self ==
        inject_Z (execution_match_count self) / inject_Z (total_samples self))%Q).
Proof.
  assert (H : forall self : BenchmarkReport,
     execution_accuracy self =
       if (count (fun r => is_set (execution_match r)) (results self) =? 0)%Z then 0%Q
       else (inject_Z (execution_match_count self) /
            inject_Z (count (fun r => is_set (execution_match r)) (results self)))%Q).
  { intros self. unfold execution_accuracy, count, true_div.
    rewrite py_sum_ones. reflexivity. }
  split; [exact H|].
  intros self Ht Hl Hc Hm. rewrite H, Hc, Hm, Ht. simpl. split; [reflexivity|].
  intros E. discriminate E.
Qed.

Lemma execution_accuracy_denominator_witness :
  (execution_accuracy ten_samples_four_executed == 75 # 100)%Q /\
  ~ (execution_accuracy ten_samples_four_executed ==
     inject_Z (execution_match_count ten_samples_four_executed) /
     inject_Z (total_samples ten_samples_four_executed))%Q.
Proof.
  apply (proj2 execution_accuracy_denominator ten_samples_four_executed);
    reflexivity.
Defined.

(** Every derived ratio is 0.0 when its denominator is 0. *)
Theorem ratios_zero_on_zero_denominator (self : BenchmarkReport) :
  (total_samples self = 0%Z ->
   exact_match_accuracy self = 0%Q /\ valid_sql_rate self = 0%Q) /\
  (count (fun r => is_set (execution_match r)) (results self) = 0%Z ->
   execution_accuracy self = 0%Q) /\
  (count (fun r => is_set (llm_judge_match r)) (results self) = 0%Z ->
   llm_judge_accuracy self = 0%Q /\ llm_judge_avg_score self = 0%Q).
Proof.
  unfold exact_match_accuracy, valid_sql_rate, execution_accuracy,
    llm_judge_accuracy, llm_judge_avg_score, count.
  rewrite !py_sum_ones.
  split; [|split]; intros E; rewrite E; auto.
Qed.

Lemma ratios_zero_on_zero_denominator_witness :
  exact_match_accuracy new_report = 0%Q /\ valid_sql_rate new_report = 0%Q.
Proof.
  apply (proj1 (ratios_zero_on_zero_denominator new_report)). reflexivity.
Defined.

End Results.

(** ** The world the harness runs in

    The harness calls out to the file system, to [sqlite3], to the
    candidate pipeline, to [sqlparse], to the judge and to the clock.
    These are collaborators: nothing is assumed about them beyond their
    signatures, and every property below holds for all of them.  [W] is
    the state of the outside world; a call may change it and may raise. *)
Module Runtime.
Import PyStr.

(** An exception derived from [Exception]: whether it is an instance of
    [sqlite3.Error], and its text [str(e)]. *)
Record exn := {
  is_sqlite_error : bool;
  exn_text : pystr
}.

Inductive outcome (A : Type) : Type :=
  | Returned (a : A)
  | Raised (e : exn).
Arguments Returned {A} a.
Arguments Raised {A} e.

(** A value in a cell of a result row, as [sqlite3] hands it to Python:
    [None], an [int], a [float] (carried by its [repr]), a [str], or
    [bytes]. *)
Inductive sql_value :=
  | SqlNull
  | SqlInteger (z : Z)
  | SqlReal (repr : pystr)
  | SqlText (s : pystr)
  | SqlBlob (b : pystr).

Definition row := list sql_value.

(** A [pathlib.Path], by its components. *)
Definition path := list pystr.

(** What [judge_sql_equivalence] returns. *)
Record JudgeResult := {
  is_equivalent : bool;
  score : Z;
  reasoning : pystr
}.

Class Collaborators (W : Type) := {
  (** [Path.exists()]: its answer, or the [OSError] it raises when the
      underlying [stat] fails for another reason than a missing file *)
  path_exists : W -> path -> outcome bool;
  (** [sqlite3.connect(path, timeout=t)]: [None] when a connection is
      returned, the exception otherwise *)
  sqlite3_connect : W -> path -> Q -> option exn * W;
  (** [cursor.execute(sql)] on the connection with the given handle *)
  cursor_execute : W -> nat -> pystr -> option exn * W;
  (** [cursor.fetchall()] *)
  cursor_fetchall : W -> nat -> outcome (list row) * W;
  (** [conn.close()] *)
  connection_close : W -> nat -> W;
  (** the candidate pipeline, [(question, schema) -> predicted SQL] *)
  pipeline_func : W -> pystr -> pystr -> outcome pystr * W;
  (** [[s.get_type() for s in sqlparse.parse(sql)]] *)
  sqlparse_types : pystr -> outcome (list pystr);
  (** [judge_sql_equivalence(question, gold_sql, predicted_sql, client)] *)
  judge_sql_equivalence : W -> pystr -> pystr -> pystr -> outcome JudgeResult * W;
  (** [time.time()], in seconds *)
  time_time : W -> Q * W
}.

(** [Path.exists()] never raises in the worlds of [W]. *)
Definition paths_answer (W : Type) `{Collaborators W} : Prop :=
  forall (w : W) (p : path), exists b, path_exists w p = Returned b.

(** The state a run threads through: the outside world, the handles of the
    connections that are open, the next handle, the calls made to the
    judge so far, and the report object, which the orchestrator's methods
    update in place. *)
Record state (W : Type) := {
  world : W;
  open_connections : list nat;
  next_handle : nat;
  judge_calls : list (pystr * pystr * pystr);
  report : Results.BenchmarkReport
}.
Arguments world {W} _.
Arguments open_connections {W} _.
Arguments next_handle {W} _.
Arguments judge_calls {W} _.
Arguments report {W} _.

Definition initial_state {W} (w : W) : state W := {|
  world := w;
  open_connections := [];
  next_handle := 0;
  judge_calls := [];
  report := Results.new_report
|}.

Definition set_world {W} (w : W) (st : state W) : state W := {|
  world := w;
  open_connections := open_connections st;
  next_handle := next_handle st;
  judge_calls := judge_calls st;
  report := report st
|}.

Definition set_report {W} (r : Results.BenchmarkReport) (st : state W) : state W := {|
  world := world st;
  open_connections := open_connections st;
  next_handle := next_handle st;
  judge_calls := judge_calls st;
  report := r
|}.

(** Computations that read and change the state and may raise.  A raised
    exception keeps the state reached so far: what was mutated before the
    [raise] stays mutated. *)
Definition M (W A : Type) : Type := state W -> outcome A * state W.

Definition ret {W A} (a : A) : M W A := fun st => (Returned a, st).

Definition bind {W A B} (c : M W A) (k : A -> M W B) : M W B := fun st =>
  match c st with
  | (Returned a, st') => k a st'
  | (Raised e, st') => (Raised e, st')
  end.

(** [try: body except Exception as e: handler(e)] *)
Definition try_except {W A} (body : M W A) (handler : exn -> M W A) : M W A :=
  fun st =>
    match body st with
    | (Returned a, st') => (Returned a, st')
    | (Raised e, st') => handler e st'
    end.

Definition update_report {W} (f : Results.BenchmarkReport -> Results.BenchmarkReport)
  : M W unit :=
  fun st => (Returned tt, set_report (f (report st)) st).

(** A call that cannot raise. *)
Definition call {W A} (f : W -> A * W) : M W A := fun st =>
  let (a, w) := f (world st) in (Returned a, set_world w st).

(** A call that may raise. *)
Definition call_raising {W A} (f : W -> outcome A * W) : M W A := fun st =>
  let (r, w) := f (world st) in (r, set_world w st).

(** Remove the first occurrence of [h]. *)
Fixpoint forget (h : nat) (l : list nat) : list nat :=
  match l with
  | [] => []
  | x :: l' => if Nat.eqb x h then l' else x :: forget h l'
  end.

Section Calls.
Context {W : Type} `{Collaborators W}.

Definition exists_ (p : path) : M W bool :=
  call_raising (fun w => (path_exists w p, w)).

(** [sqlite3.connect]: on success the new connection is open. *)
Definition connect (p : path) (timeout : Q) : M W nat := fun st =>
  match sqlite3_connect (world st) p timeout with
  | (None, w) =>
      let h := next_handle st in
      (Returned h,
       {| world := w;
          open_connections := h :: open_connections st;
          next_handle := S h;
          judge_calls := judge_calls st;
          report := report st |})
  | (Some e, w) => (Raised e, set_world w st)
  end.

Definition execute (conn : nat) (sql : pystr) : M W unit := fun st =>
  match cursor_execute (world st) conn sql with
  | (None, w) => (Returned tt, set_world w st)
  | (Some e, w) => (Raised e, set_world w st)
  end.

Definition fetchall (conn : nat) : M W (list row) :=
  call_raising (fun w => cursor_fetchall w conn).

(** [conn.close()]: the connection is open no longer. *)
Definition close (conn : nat) : M W unit := fun st =>
  (Returned tt,
   {| world := connection_close (world st) conn;
      open_connections := forget conn (open_connections st);
      next_handle := next_handle st;
      judge_calls := judge_calls st;
      report := report st |}).

Definition run_pipeline (question schema : pystr) : M W pystr :=
  call_raising (fun w => pipeline_func w question schema).

(** A call to the judge, recorded in [judge_calls]. *)
Definition ask_judge (question gold predicted : pystr) : M W JudgeResult := fun st =>
  let (r, w) := judge_sql_equivalence (world st) question gold predicted in
  (r, {| world := w;
         open_connections := open_connections st;
         next_handle := next_handle st;
         judge_calls := judge_calls st ++ [(question, gold, predicted)];
         report := report st |}).

Definition now : M W Q := call time_time.

End Calls.

Declare Scope py_scope.
Delimit Scope py_scope with py.
Notation "x <- c1 ;; c2" := (bind c1 (fun x => c2))
  (at level 20, c1 at level 99, c2 at level 200) : py_scope.
Notation "' pat <- c1 ;; c2" := (bind c1 (fun x => match x with pat => c2 end))
  (at level 20, pat pattern, c1 at level 99, c2 at level 200) : py_scope.

End Runtime.

(** ** [evaluators/execution.py] *)
Module Execution.
Import PyStr PyRepr Runtime.
Local Open Scope py_scope.

(** [ExecutionEvaluator]; [databases_dir] is [Path(databases_dir)]. *)
Record ExecutionEvaluator := {
  databases_dir : path
}.

(** [str(v)] for a cell that is not [None] *)
Definition str_of_value (v : sql_value) : pystr :=
  match v with
  | SqlNull => py "None"
  | SqlInteger z => str_of_int z
  | SqlReal repr => repr
  | SqlText s => s
  | SqlBlob b => repr_bytes b
  end.

Definition normalize_cell (v : sql_value) : pystr :=
  match v with
  | SqlNull => py "null"
  | _ => strip (lower (str_of_value v))
  end.

Definition normalize_row (r : row) : list pystr := map normalize_cell r.

(** [ExecutionEvaluator.normalize_results] *)
Definition normalize_results (results : option (list row)) : pystr :=
  match results with
  | None => []
  | Some rows => str_of_rows (sort_rows (map normalize_row rows))
  end.

(** [ExecutionEvaluator.results_match] *)
Definition results_match (results1 results2 : option (list row)) : bool :=
  str_eqb (normalize_results results1) (normalize_results results2).

(** [f"{x}"] for an [Optional[str]] *)
Definition format_optional (o : option pystr) : pystr :=
  match o with Some s => s | None => py "None" end.

(** [len(x) if x else 0] for an [Optional[List]] *)
Definition len_or_zero (o : option (list row)) : Z :=
  match o with
  | Some (r :: rows) => Z.of_nat (length (r :: rows))
  | _ => 0
  end.

Definition default_timeout : Q := 30.

Section Evaluator.
Context {W : Type} `{Collaborators W}.

(** [ExecutionEvaluator.get_database_path] *)
Definition get_database_path (self : ExecutionEvaluator) (db_id : pystr)
  : M W (option path) :=
  let db_path := databases_dir self ++ [db_id; db_id ++ py ".sqlite"] in
  found <- exists_ db_path ;;
  if found then ret (Some db_path)
  else
    let db_path := databases_dir self ++ [db_id; py "database.sqlite"] in
    found <- exists_ db_path ;;
    if found then ret (Some db_path) else ret None.

(** [ExecutionEvaluator.execute_sql] *)
Definition execute_sql (self : ExecutionEvaluator) (sql db_id : pystr) (timeout : Q)
  : M W (bool * option (list row) * option pystr) :=
  db_path <- get_database_path self db_id ;;
  match db_path with
  | None => ret (false, None, Some (py "Database not found: " ++ db_id))
  | Some db_path =>
      try_except
        (conn <- connect db_path timeout ;;
         _ <- execute conn sql ;;
         results <- fetchall conn ;;
         _ <- close conn ;;
         ret (true, Some results, None))
        (fun e =>
           if is_sqlite_error e
           then ret (false, None, Some (py "SQL Error: " ++ exn_text e))
           else ret (false, None, Some (py "Execution Error: " ++ exn_text e)))
  end.

(** [ExecutionEvaluator.evaluate] *)
Definition evaluate (self : ExecutionEvaluator) (gold_sql predicted_sql db_id : pystr)
  : M W (bool * option bool * pystr) :=
  ' (gold_success, gold_results, gold_error) <-
      execute_sql self gold_sql db_id default_timeout ;;
  if negb gold_success
  then ret (false, None, py "Gold query failed: " ++ format_optional gold_error)
  else
    ' (pred_success, pred_results, pred_error) <-
        execute_sql self predicted_sql db_id default_timeout ;;
    if negb pred_success
    then ret (true, Some false,
              py "Predicted query failed: " ++ format_optional pred_error)
    else
      let match_ := results_match gold_results pred_results in
      if match_ then ret (true, Some true, py "Results match")
      else
        let gold_count := len_or_zero gold_results in
        let pred_count := len_or_zero pred_results in
        ret (true, Some false,
             py "Results differ (gold: " ++ str_of_int gold_count
             ++ py " rows, predicted: " ++ str_of_int pred_count ++ py " rows)").

(** [evaluate_execution], the module-level convenience function *)
Definition evaluate_execution (gold_sql predicted_sql db_id databases_dir : pystr)
  : M W (option bool * pystr) :=
  let evaluator := {| databases_dir := [databases_dir] |} in
  ' (could_execute, match_, message) <-
      evaluate evaluator gold_sql predicted_sql db_id ;;
  if negb could_execute then ret (None, message) else ret (match_, message).

End Evaluator.

(** A world with one database in which every statement fails with an
    engine-level error: the file exists, [sqlite3.connect] returns a
    connection, [cursor.execute] raises [sqlite3.OperationalError]. *)
Definition no_such_table : exn := {|
  is_sqlite_error := true;
  exn_text := py "no such table: singer"
|}.

Definition failing_statement_world : Collaborators unit := {|
  path_exists := fun _ _ => Returned true;
  sqlite3_connect := fun w _ _ => (None, w);
  cursor_execute := fun w _ _ => (Some no_such_table, w);
  cursor_fetchall := fun w _ => (Returned [], w);
  connection_close := fun w _ => w;
  pipeline_func := fun w _ _ => (Returned [], w);
  sqlparse_types := fun _ => Returned [];
  judge_sql_equivalence := fun w _ _ _ =>
    (Returned {| is_equivalent := false; score := 0; reasoning := [] |}, w);
  time_time := fun w => (0%Q, w)
|}.

(** A world with one database in which every statement runs and yields
    one row. *)
Definition one_row_world : Collaborators unit := {|
  path_exists := fun _ _ => Returned true;
  sqlite3_connect := fun w _ _ => (None, w);
  cursor_execute := fun w _ _ => (None, w);
  cursor_fetchall := fun w _ => (Returned [[SqlInteger 3]], w);
  connection_close := fun w _ => w;
  pipeline_func := fun w _ _ => (Returned [], w);
  sqlparse_types := fun _ => Returned [];
  judge_sql_equivalence := fun w _ _ _ =>
    (Returned {| is_equivalent := false; score := 0; reasoning := [] |}, w);
  time_time := fun w => (0%Q, w)
|}.

(** *** Facts about the evaluator *)

Ltac run_calls :=
  unfold execute_sql, get_database_path, exists_, connect, execute, fetchall,
    close, call, call_raising, try_except, bind, ret in *;
  simpl in *.

Ltac split_calls :=
  repeat match goal with
         | |- context [path_exists ?w ?p] =>
             destruct (path_exists w p) as [[|]|?] eqn:?
         | |- context [sqlite3_connect ?w ?p ?t] =>
             destruct (sqlite3_connect w p t) as [[?|] ?] eqn:?
         | |- context [cursor_execute ?w ?h ?s] =>
             destruct (cursor_execute w h s) as [[?|] ?] eqn:?
         | |- context [cursor_fetchall ?w ?h] =>
             destruct (cursor_fetchall w h) as [[?|?] ?] eqn:?
         | |- context [is_sqlite_error ?e] => destruct (is_sqlite_error e) eqn:?
         end; simpl.

Lemma set_world_world {W} (st : state W) : set_world (world st) st = st.
Proof. destruct st; reflexivity. Qed.

Section EvaluatorFacts.
Context {W : Type} `{Collaborators W}.

(** [get_database_path] raises what [Path.exists()] raises, and leaves
    the state as it is. *)
Lemma get_database_path_outcome self db_id (st : state W) :
  exists r,
    get_database_path self db_id st = (r, st) /\
    forall e, r = Raised e -> exists p, path_exists (world st) p = Raised e.
Proof.
  unfold get_database_path, exists_, call_raising, bind, ret.
  cbn [world set_world]. rewrite !set_world_world.
  destruct (path_exists (world st) _) as [[|]|e1] eqn:E1.
  - eexists. split; [reflexivity|]. discriminate.
  - cbn [world set_world]. rewrite !set_world_world.
    destruct (path_exists (world st) (_ ++ [_; py "database.sqlite"]))
      as [[|]|e2] eqn:E2;
      (eexists; split; [reflexivity|]); try discriminate.
    intros e [= <-]. eauto.
  - eexists. split; [reflexivity|]. intros e [= <-]. eauto.
Qed.

(** The outcome of [execute_sql] in every world: its three-part answer,
    or the exception [Path.exists()] raised on line 57, before the [try];
    the report and the record of judge calls are left alone. *)
Lemma execute_sql_outcome self sql db_id timeout (st : state W) :
  exists r st',
    execute_sql self sql db_id timeout st = (r, st') /\
    report st' = report st /\ judge_calls st' = judge_calls st /\
    match r with
    | Returned (ok, rows, err) =>
        (ok = true -> (exists r, rows = Some r) /\ err = None) /\
        (ok = false -> rows = None /\ exists msg, err = Some msg)
    | Raised e => st' = st /\ exists p, path_exists (world st) p = Raised e
    end.
Proof.
  destruct (get_database_path_outcome self db_id st) as (r & E & He).
  unfold execute_sql, bind. rewrite E.
  destruct r as [[db_path|]|e].
  - unfold try_except, bind, connect, execute, fetchall, close, call_raising, ret.
    simpl. split_calls;
      do 2 eexists; (split; [reflexivity|]); simpl;
      repeat split; try discriminate; eauto.
  - do 2 eexists. split; [reflexivity|]. simpl.
    repeat split; try discriminate; eauto.
  - do 2 eexists. split; [reflexivity|]. auto.
Qed.

(** Which connections are open after [execute_sql]: the ones that were,
    and, when the statement or the fetch raised, the one just opened. *)
Lemma execute_sql_connections self sql db_id timeout (st : state W) :
  let '(r, st') := execute_sql self sql db_id timeout st in
  match r with
  | Returned (true, _, _) => open_connections st' = open_connections st
  | Returned (false, _, _) =>
      open_connections st' = open_connections st \/
      open_connections st' = next_handle st :: open_connections st
  | Raised _ => open_connections st' = open_connections st
  end.
Proof.
  destruct (get_database_path_outcome self db_id st) as (r & E & He).
  unfold execute_sql, bind. rewrite E.
  destruct r as [[db_path|]|e]; [|simpl; auto|reflexivity].
  unfold try_except, bind, connect, execute, fetchall, close, call_raising, ret.
  simpl. split_calls; rewrite ?Nat.eqb_refl; auto.
Qed.

(** [list.sort()] then [str()] forgets the order of the rows. *)
Lemma normalize_results_permutation (rows rows' : list row) :
  Permutation rows rows' ->
  normalize_results (Some rows) = normalize_results (Some rows').
Proof.
  intros Hp. unfold normalize_results. f_equal.
  apply sort_rows_permutation, Permutation_map, Hp.
Qed.

(** [evaluate] and [evaluate_execution] leave the report and the record
    of judge calls alone, and raise only what [Path.exists()] raised. *)
Lemma evaluate_outcome self gold_sql predicted_sql db_id (st : state W) :
  exists r st',
    evaluate self gold_sql predicted_sql db_id st = (r, st') /\
    report st' = report st /\ judge_calls st' = judge_calls st /\
    forall e, r = Raised e -> exists w p, path_exists w p = Raised e.
Proof.
  destruct (execute_sql_outcome self gold_sql db_id default_timeout st)
    as (r1 & st1 & E1 & R1 & J1 & H1).
  unfold evaluate, bind. rewrite E1.
  destruct r1 as [[[ok1 rows1] err1]|e1].
  2:{ do 2 eexists. split; [reflexivity|]. repeat split; auto.
      intros e [= <-]. destruct H1 as [_ [p Hp]]. eauto. }
  destruct ok1; simpl;
    [|do 2 eexists; split; [reflexivity|]; repeat split; auto; discriminate].
  destruct (execute_sql_outcome self predicted_sql db_id default_timeout st1)
    as (r2 & st2 & E2 & R2 & J2 & H2).
  rewrite E2.
  destruct r2 as [[[ok2 rows2] err2]|e2].
  2:{ do 2 eexists. split; [reflexivity|]. repeat split; try congruence.
      intros e [= <-]. destruct H2 as [_ [p Hp]]. eauto. }
  destruct ok2; simpl;
    [|do 2 eexists; split; [reflexivity|]; repeat split; try congruence; discriminate].
  destruct (results_match rows1 rows2);
    do 2 eexists; (split; [reflexivity|]); repeat split; try congruence; discriminate.
Qed.

Lemma evaluate_execution_outcome gold_sql predicted_sql db_id dir (st : state W) :
  exists r st',
    evaluate_execution gold_sql predicted_sql db_id dir st = (r, st') /\
    report st' = report st /\ judge_calls st' = judge_calls st /\
    forall e, r = Raised e -> exists w p, path_exists w p = Raised e.
Proof.
  destruct (evaluate_outcome {| databases_dir := [dir] |} gold_sql predicted_sql
              db_id st) as (r & st' & E & R & J & He).
  unfold evaluate_execution, bind. rewrite E.
  destruct r as [[[c m] msg]|e].
  - destruct c; simpl; do 2 eexists; (split; [reflexivity|]);
      (split; [exact R|split; [exact J|discriminate]]).
  - do 2 eexists. split; [reflexivity|]. split; [exact R|split; [exact J|]].
    intros e0 [= <-]. apply He. reflexivity.
Qed.

(** [evaluate] keeps its three-way contract whenever [Path.exists()]
    answers: when the gold query fails the outcome is
    [(False, None, message)]; when the gold query runs and the predicted
    query fails it is [(True, False, message)]; when both run it is
    [(True, m, message)], where [m] tells whether the two normalized
    result sets are equal.  The only exceptions that escape are those
    that [Path.exists()] raises while the file of the database is looked
    for. *)
Theorem evaluate_three_way_contract self gold_sql predicted_sql db_id (st : state W) :
  exists r1 st1,
    execute_sql self gold_sql db_id default_timeout st = (r1, st1) /\
    match r1 with
    | Raised e =>
        evaluate self gold_sql predicted_sql db_id st = (Raised e, st1) /\
        exists p, path_exists (world st) p = Raised e
    | Returned (false, _, _) =>
        exists message,
          evaluate self gold_sql predicted_sql db_id st
            = (Returned (false, None, message), st1)
    | Returned (true, gold_results, _) =>
        exists r2 st2,
          execute_sql self predicted_sql db_id default_timeout st1 = (r2, st2) /\
          match r2 with
          | Raised e =>
              evaluate self gold_sql predicted_sql db_id st = (Raised e, st2) /\
              exists p, path_exists (world st1) p = Raised e
          | Returned (false, _, _) =>
              exists message,
                evaluate self gold_sql predicted_sql db_id st
                  = (Returned (true, Some false, message), st2)
          | Returned (true, pred_results, _) =>
              exists m message,
                evaluate self gold_sql predicted_sql db_id st
                  = (Returned (true, Some m, message), st2) /\
                (m = true <->
                 normalize_results gold_results = normalize_results pred_results)
          end
    end.
Proof.
  destruct (execute_sql_outcome self gold_sql db_id default_timeout st)
    as (r1 & st1 & E1 & _ & _ & H1).
  exists r1, st1. split; [exact E1|].
  remember (evaluate self gold_sql predicted_sql db_id st) as ev eqn:Hev.
  unfold evaluate, bind in Hev. rewrite E1 in Hev.
  destruct r1 as [[[ok1 rows1] err1]|e1]; [|split; [exact Hev|apply H1]].
  destruct ok1; simpl in Hev; [|eexists; exact Hev].
  destruct (execute_sql_outcome self predicted_sql db_id default_timeout st1)
    as (r2 & st2 & E2 & _ & _ & H2).
  exists r2, st2. split; [exact E2|].
  rewrite E2 in Hev.
  destruct r2 as [[[ok2 rows2] err2]|e2]; [|split; [exact Hev|apply H2]].
  destruct ok2; simpl in Hev; [|eexists; exact Hev].
  exists (results_match rows1 rows2).
  destruct (results_match rows1 rows2) eqn:Em; eexists; (split; [exact Hev|]);
    unfold results_match in Em.
  - apply str_eqb_eq in Em. tauto.
  - split; [discriminate|]. intros E. apply str_eqb_eq in E. congruence.
Qed.

End EvaluatorFacts.

(** The [OSError] of a [stat] on a name longer than the file system
    allows. *)
Definition name_too_long : exn := {|
  is_sqlite_error := false;
  exn_text := py "[Errno 36] File name too long"
|}.

(** A world whose file system takes names of at most 255 characters and
    holds the directory of the databases but no database file:
    [Path.exists()] raises for a path with a longer component and answers
    [False] for every other path. *)
Definition short_names_world : Collaborators unit := {|
  path_exists := fun _ p =>
    if existsb (fun name => (255 <? length name)%nat) p
    then Raised name_too_long else Returned false;
  sqlite3_connect := fun w _ _ => (None, w);
  cursor_execute := fun w _ _ => (None, w);
  cursor_fetchall := fun w _ => (Returned [], w);
  connection_close := fun w _ => w;
  pipeline_func := fun w _ _ => (Returned [], w);
  sqlparse_types := fun _ => Returned [];
  judge_sql_equivalence := fun w _ _ _ =>
    (Returned {| is_equivalent := false; score := 0; reasoning := [] |}, w);
  time_time := fun w => (0%Q, w)
|}.

(** C3 fails when the file of the database cannot be looked for.
    [execute_sql] calls [get_database_path] on line 57, before the [try]
    of line 61, so what [Path.exists()] raises is not turned into an
    error outcome: for a [db_id] of 300 characters [execute_sql] and
    [evaluate] raise the [OSError], where every failure after line 61
    gives [(False, None, message)]. *)
Theorem evaluate_lets_path_error_escape :
  execute_sql (H := short_names_world)
    {| databases_dir := [py "spider/database"] |}
    (py "SELECT count(*) FROM singer") (repeat "a"%char 300) default_timeout
    (initial_state tt)
  = (Raised name_too_long, initial_state tt) /\
  evaluate (H := short_names_world)
    {| databases_dir := [py "spider/database"] |}
    (py "SELECT count(*) FROM singer") (py "SELECT count(*) FROM singer")
    (repeat "a"%char 300) (initial_state tt)
  = (Raised name_too_long, initial_state tt).
Proof. split; vm_compute; reflexivity. Qed.

(** C2 fails on the error path.  In a world where the database file
    exists and the statement is rejected by the engine, [execute_sql]
    returns its error outcome from the [except] clause while the
    connection it opened (handle 0) is still open: [conn.close()] stands
    only on the success path. *)
Theorem execute_sql_error_path_leaves_connection_open :
  execute_sql (H := failing_statement_world)
    {| databases_dir := [py "spider/database"] |}
    (py "SELECT name FROM singer") (py "concert_singer") default_timeout
    (initial_state tt)
  = (Returned (false, None, Some (py "SQL Error: no such table: singer")),
     {| world := tt;
        open_connections := [0%nat];
        next_handle := 1;
        judge_calls := [];
        report := Results.new_report |}).
Proof. reflexivity. Qed.

(** C8.  [normalize_results] gives the same string for a list of rows
    and for every permutation of it, so [results_match] does not depend
    on the order of the rows; gold rows [("a",), ("b",)] and predicted
    rows [("b",), ("a",)] match. *)
Theorem normalize_results_row_order :
  (forall rows rows' : list row,
     Permutation rows rows' ->
     normalize_results (Some rows) = normalize_results (Some rows') /\
     results_match (Some rows) (Some rows') = true) /\
  results_match (Some [[SqlText (py "a")]; [SqlText (py "b")]])
                (Some [[SqlText (py "b")]; [SqlText (py "a")]]) = true.
Proof.
  assert (H : forall rows rows' : list row,
     Permutation rows rows' ->
     normalize_results (Some rows) = normalize_results (Some rows') /\
     results_match (Some rows) (Some rows') = true).
  { intros rows rows' Hp.
    pose proof (normalize_results_permutation rows rows' Hp) as E.
    split; [exact E|]. unfold results_match. apply str_eqb_eq, E. }
  split; [exact H|]. apply H. apply perm_swap.
Qed.

(** Three rows with an integer, a null and a text cell, rotated. *)
Lemma normalize_results_row_order_witness :
  normalize_results (Some [[SqlInteger 2; SqlNull]; [SqlText (py " Ab ")]; []])
  = normalize_results (Some [[]; [SqlInteger 2; SqlNull]; [SqlText (py " Ab ")]]) /\
  results_match (Some [[SqlInteger 2; SqlNull]; [SqlText (py " Ab ")]; []])
                (Some [[]; [SqlInteger 2; SqlNull]; [SqlText (py " Ab ")]]) = true.
Proof.
  apply (proj1 normalize_results_row_order).
  apply Permutation_sym.
  apply (Permutation_cons_append [[SqlInteger 2; SqlNull]; [SqlText (py " Ab ")]] []).
Defined.

(** C10.  [normalize_results] maps the absent row set to the empty string
    and the empty list of rows to ["[]"], so an absent result set matches
    no list of rows, the empty one included. *)
Theorem absent_results_differ_from_empty :
  normalize_results None = [] /\
  normalize_results (Some []) = py "[]" /\
  results_match None (Some []) = false /\
  results_match (Some []) None = false /\
  (forall rows, results_match None (Some rows) = false).
Proof.
  repeat split; try reflexivity.
Qed.

(** Swapping the columns of a row changes the normalized result. *)
Theorem normalize_results_column_order :
  normalize_results (Some [[SqlText (py "a"); SqlText (py "b")]])
  <> normalize_results (Some [[SqlText (py "b"); SqlText (py "a")]]) /\
  results_match (Some [[SqlText (py "a"); SqlText (py "b")]])
                (Some [[SqlText (py "b"); SqlText (py "a")]]) = false.
Proof. split; [vm_compute; discriminate|reflexivity]. Qed.

(** On its success path [execute_sql] closes the connection it opened:
    the open connections are those that were open before the call. *)
Theorem execute_sql_success_closes_connection {W : Type} `{Collaborators W}
    self sql db_id timeout (st st' : state W) rows err :
  execute_sql self sql db_id timeout st = (Returned (true, rows, err), st') ->
  open_connections st' = open_connections st.
Proof.
  intros E. pose proof (execute_sql_connections self sql db_id timeout st) as C.
  rewrite E in C. exact C.
Qed.

Lemma execute_sql_success_closes_connection_witness :
  open_connections
    (snd (execute_sql (H := one_row_world)
            {| databases_dir := [py "spider/database"] |}
            (py "SELECT count(*) FROM singer") (py "concert_singer")
            default_timeout (initial_state tt)))
  = open_connections (initial_state tt).
Proof.
  apply (execute_sql_success_closes_connection (H := one_row_world)
           {| databases_dir := [py "spider/database"] |}
           (py "SELECT count(*) FROM singer") (py "concert_singer")
           default_timeout (initial_state tt) _ (Some [[SqlInteger 3]]) None).
  reflexivity.
Defined.

Example normalize_results_example :
  normalize_results
    (Some [[SqlText (py " Bob "); SqlNull]; [SqlInteger 7; SqlText (py "it's")]])
  = ascii_of_N 91 :: py "('7', " ++ [dquote] ++ py "it's" ++ [dquote]
    ++ py "), ('bob', 'null')]".
Proof. vm_compute. reflexivity. Qed.

End Execution.

(** ** [core/data_loader.py] *)
Module DataLoader.
Import PyStr.

(** One record of [tables.json]; [primary_keys] may be missing. *)
Record TableInfo := {
  table_names_original : list pystr;
  column_names_original : list (Z * pystr);
  column_types : list pystr;
  primary_keys : option (list Z)
}.

(** The dictionary [{'name': ..., 'type': ..., 'idx': ...}] kept for a
    column. *)
Record Column := {
  col_name : pystr;
  col_type : pystr;
  col_idx : nat
}.

(** [enumerate(l)] *)
Definition enumerate {A} (l : list A) : list (nat * A) :=
  combine (seq 0 (length l)) l.

(** [column_types[idx] if idx < len(column_types) else 'TEXT'] *)
Definition type_of_column (column_types : list pystr) (idx : nat) : pystr :=
  if (idx <? length column_types)%nat then nth idx column_types []
  else py "TEXT".

(** The body of the first loop (lines 63-72). *)
Definition add_column (column_types : list pystr)
    (columns_by_table : gmap Z (list Column)) (entry : nat * (Z * pystr))
  : gmap Z (list Column) :=
  let '(idx, (table_idx, name)) := entry in
  if (table_idx =? -1)%Z then columns_by_table
  else
    let columns_by_table :=
      match columns_by_table !! table_idx with
      | None => <[table_idx := []]> columns_by_table
      | Some _ => columns_by_table
      end in
    let col := {| col_name := name;
                  col_type := type_of_column column_types idx;
                  col_idx := idx |} in
    <[table_idx := default [] (columns_by_table !! table_idx) ++ [col]]>
      columns_by_table.

(** [x in primary_keys] *)
Definition is_primary_key (primary_keys : list Z) (idx : nat) : bool :=
  existsb (Z.eqb (Z.of_nat idx)) primary_keys.

(** [f"    {col['name']} {col_type}{pk}"] *)
Definition column_definition (primary_keys : list Z) (col : Column) : pystr :=
  let col_type := upper (col_type col) in
  let pk := if is_primary_key primary_keys (col_idx col)
            then py " PRIMARY KEY" else [] in
  py "    " ++ col_name col ++ py " " ++ col_type ++ pk.

(** Lines 79-87: the statement for one table and its columns. *)
Definition create_statement (primary_keys : list Z) (table_name : pystr)
    (cols : list Column) : pystr :=
  let col_defs :=
    fold_left (fun col_defs col => col_defs ++ [column_definition primary_keys col])
      cols [] in
  let create_stmt := py "CREATE TABLE " ++ table_name ++ py " (" ++ [newline] in
  let create_stmt := create_stmt ++ join (py "," ++ [newline]) col_defs in
  let create_stmt := create_stmt ++ [newline] ++ py ");" in
  create_stmt.

(** The body of the second loop (lines 75-88). *)
Definition add_table (primary_keys : list Z)
    (columns_by_table : gmap Z (list Column))
    (schema_parts : list pystr) (entry : nat * pystr) : list pystr :=
  let '(table_idx, table_name) := entry in
  let cols := default [] (columns_by_table !! Z.of_nat table_idx) in
  match cols with
  | [] => schema_parts
  | _ => schema_parts ++ [create_statement primary_keys table_name cols]
  end.

(** [SpiderDataLoader._build_schema_string] *)
Definition _build_schema_string (table_info : TableInfo) : pystr :=
  let table_names := table_names_original table_info in
  let column_names := column_names_original table_info in
  let column_types := column_types table_info in
  let primary_keys := default [] (primary_keys table_info) in
  let columns_by_table :=
    fold_left (add_column column_types) (enumerate column_names) ∅ in
  let schema_parts :=
    fold_left (add_table primary_keys columns_by_table) (enumerate table_names) [] in
  join [newline; newline] schema_parts.

(** *** The schema text, said directly *)

(** The entries of a column list that belong to table [t]: those whose
    table index is [t], the sentinel entry (table index -1) left out, each
    with its position in the whole list and its type tag ([TEXT] when the
    list of types is too short). *)
Definition select_columns (tys : list pystr) (t : Z) (entries : list (nat * (Z * pystr)))
  : list Column :=
  flat_map
    (fun '(idx, (table_idx, name)) =>
       if (table_idx =? -1)%Z then []
       else if (table_idx =? t)%Z
       then [{| col_name := name;
                col_type := match nth_error tys idx with
                            | Some ty => ty
                            | None => py "TEXT"
                            end;
                col_idx := idx |}]
       else [])
    entries.

(** The columns of table [t]. *)
Definition columns_of (info : TableInfo) (t : Z) : list Column :=
  select_columns (column_types info) t (enumerate (column_names_original info)).

(** [<col> <TYPE>[ PRIMARY KEY]] for one column, after four blanks: the
    type is the type tag in capitals, and the column is a primary key
    when its position in the column list is among the primary keys (none
    when the record has no such entry). *)
Definition column_text (info : TableInfo) (col : Column) : pystr :=
  py "    " ++ col_name col ++ py " " ++ upper (col_type col)
  ++ (if existsb (fun k => (k =? Z.of_nat (col_idx col))%Z)
            (match primary_keys info with Some keys => keys | None => [] end)
      then py " PRIMARY KEY" else []).

(** [CREATE TABLE <name> (<col> <TYPE>[ PRIMARY KEY], ...);], one column
    to a line. *)
Definition create_table (info : TableInfo) (t : nat) (table_name : pystr) : pystr :=
  py "CREATE TABLE " ++ table_name ++ py " (" ++ [newline]
  ++ join (py "," ++ [newline]) (map (column_text info) (columns_of info (Z.of_nat t)))
  ++ [newline] ++ py ");".

(** The type tags of the record are texts on which [upper] is
    [str.upper]: none holds a code point whose capital lies beyond 255. *)
Definition capitals_below_256 (info : TableInfo) : Prop :=
  Forall (Forall (fun c => capital_below_256 c = true)) (column_types info).

(** The schema text as the specification words it: a statement for each
    table. *)
Definition schema_for_each_table (info : TableInfo) : pystr :=
  join [newline; newline]
    (map (fun '(t, table_name) => create_table info t table_name)
       (enumerate (table_names_original info))).

(** The schema text with the guard of line 77: a statement for each table
    that has a column. *)
Definition schema_for_each_table_with_columns (info : TableInfo) : pystr :=
  join [newline; newline]
    (flat_map
       (fun '(t, table_name) =>
          match columns_of info (Z.of_nat t) with
          | [] => []
          | _ => [create_table info t table_name]
          end)
       (enumerate (table_names_original info))).

(** A database with a table that owns no column. *)
Definition one_empty_table : TableInfo := {|
  table_names_original := [py "singer"; py "audit"];
  column_names_original := [(-1, py "*"); (0, py "Name"); (0, py "Age")]%Z;
  column_types := [py "text"; py "text"];
  primary_keys := Some [1%Z]
|}.

(** *** The loader builds that text *)

Lemma fold_left_snoc_map {A B} (f : A -> B) (l : list A) (acc : list B) :
  fold_left (fun acc x => acc ++ [f x]) l acc = acc ++ map f l.
Proof.
  revert acc. induction l as [|x l IH]; intros acc; simpl.
  - rewrite app_nil_r. reflexivity.
  - rewrite IH, <- app_assoc. reflexivity.
Qed.

Lemma type_of_column_nth_error tys idx :
  type_of_column tys idx =
  match nth_error tys idx with Some ty => ty | None => py "TEXT" end.
Proof.
  unfold type_of_column. destruct (Nat.ltb_spec idx (length tys)) as [Hlt|Hge].
  - destruct (nth_error tys idx) as [ty|] eqn:E.
    + apply nth_error_nth. exact E.
    + apply nth_error_None in E. lia.
  - apply nth_error_None in Hge. rewrite Hge. reflexivity.
Qed.

(** After the first loop, the dictionary holds under each table index the
    columns of that table, in the order of the column list. *)
Lemma add_column_lookup tys (t : Z) entries : forall m : gmap Z (list Column),
  default [] (fold_left (add_column tys) entries m !! t)
  = default [] (m !! t) ++ select_columns tys t entries.
Proof.
  induction entries as [|[idx [table_idx name]] entries IH]; intros m.
  - simpl. rewrite app_nil_r. reflexivity.
  - simpl fold_left. rewrite IH. unfold select_columns at 2. simpl flat_map.
    fold (select_columns tys t entries).
    unfold add_column. destruct (table_idx =? -1)%Z eqn:Es; [reflexivity|].
    rewrite type_of_column_nth_error.
    destruct (Z.eqb_spec table_idx t) as [->|Hne].
    + rewrite lookup_insert_eq. simpl.
      destruct (m !! t) as [cols|] eqn:Em.
      * rewrite Em. simpl. rewrite <- app_assoc. reflexivity.
      * rewrite lookup_insert_eq. simpl. reflexivity.
    + rewrite lookup_insert_ne by exact Hne.
      destruct (m !! table_idx); [reflexivity|].
      rewrite lookup_insert_ne by exact Hne. reflexivity.
Qed.

Lemma column_definition_text info col :
  column_definition (default [] (primary_keys info)) col = column_text info col.
Proof.
  unfold column_definition, column_text, is_primary_key. do 4 f_equal.
  destruct (primary_keys info) as [keys|]; [|reflexivity]. simpl.
  induction keys as [|k keys IH]; [reflexivity|].
  simpl. rewrite (Z.eqb_sym (Z.of_nat (col_idx col)) k).
  destruct (k =? Z.of_nat (col_idx col))%Z; simpl; [reflexivity|].
  destruct (existsb _ keys), (existsb _ keys); congruence.
Qed.

Lemma create_statement_eq info t table_name :
  create_statement (default [] (primary_keys info)) table_name
    (columns_of info (Z.of_nat t))
  = create_table info t table_name.
Proof.
  unfold create_statement, create_table.
  rewrite fold_left_snoc_map. simpl app at 1.
  rewrite (map_ext _ _ (column_definition_text info)).
  rewrite <- !app_assoc. reflexivity.
Qed.

(** C9 (as amended).  The schema text that [_build_schema_string] returns
    is determined by the table metadata alone: the columns are grouped by
    owning table index, the sentinel entry with table index -1 left out;
    each table that owns at least one column contributes
    [CREATE TABLE <name> (<col> <TYPE>[ PRIMARY KEY], ...);], the type being
    the type tag in capitals and [TEXT] where the list of types has no
    entry for the column; tables without columns contribute nothing; the
    statements are joined by a blank line.  It is stated for the type
    tags whose capitals are code points below 256, on which [upper] is
    [str.upper]. *)
Theorem build_schema_string_spec (table_info : TableInfo) :
  capitals_below_256 table_info ->
  _build_schema_string table_info = schema_for_each_table_with_columns table_info.
Proof.
  intros _.
  unfold _build_schema_string, schema_for_each_table_with_columns. f_equal.
  set (m := fold_left (add_column (column_types table_info))
              (enumerate (column_names_original table_info)) ∅).
  assert (Hm : forall t, default [] (m !! t) = columns_of table_info t).
  { intros t. unfold m. rewrite add_column_lookup, lookup_empty. reflexivity. }
  assert (Hl : forall l parts,
    fold_left (add_table (default [] (primary_keys table_info)) m) l parts
    = parts ++ flat_map
        (fun '(t, table_name) =>
           match columns_of table_info (Z.of_nat t) with
           | [] => []
           | _ => [create_table table_info t table_name]
           end) l).
  { induction l as [|[t table_name] l IH]; intros parts.
    - simpl. rewrite app_nil_r. reflexivity.
    - simpl fold_left. rewrite IH. simpl flat_map. rewrite app_assoc. f_equal.
      unfold add_table. rewrite Hm, <- create_statement_eq.
      destruct (columns_of table_info (Z.of_nat t)); [rewrite app_nil_r|];
        reflexivity. }
  apply Hl.
Qed.

(** A record with the tags [text] and [Straße]. *)
Definition street_table : TableInfo := {|
  table_names_original := [py "address"; py "audit"];
  column_names_original := [(-1, py "*"); (0, py "Id"); (0, py "Street"); (0, py "City")]%Z;
  column_types := [py "text"; py "number"; "S"%char :: py "tra" ++ [ascii_of_N 223; "e"%char]];
  primary_keys := Some [1%Z]
|}.

Lemma build_schema_string_spec_witness :
  _build_schema_string street_table = schema_for_each_table_with_columns street_table.
Proof.
  apply (build_schema_string_spec street_table).
  unfold capitals_below_256, street_table. simpl.
  repeat (constructor; try reflexivity).
Defined.

(** C9 as stated fails: a table that owns no column gets no statement. *)
Lemma build_schema_string_skips_empty_tables :
  _build_schema_string one_empty_table <> schema_for_each_table one_empty_table.
Proof. vm_compute. discriminate. Qed.

Example build_schema_string_street :
  _build_schema_string street_table
  = py "CREATE TABLE address (" ++ [newline]
    ++ py "    Id NUMBER PRIMARY KEY," ++ [newline]
    ++ py "    Street STRASSE," ++ [newline]
    ++ py "    City TEXT" ++ [newline] ++ py ");".
Proof. vm_compute. reflexivity. Qed.

Example build_schema_string_example :
  _build_schema_string one_empty_table
  = py "CREATE TABLE singer (" ++ [newline]
    ++ py "    Name TEXT PRIMARY KEY," ++ [newline]
    ++ py "    Age TEXT" ++ [newline] ++ py ");".
Proof. vm_compute. reflexivity. Qed.

End DataLoader.

(** ** [spider_benchmark.py] *)
Module Orchestrator.
Import PyStr Runtime Results.
Local Open Scope py_scope.

(** One example of the dataset: the dictionary with the keys
    ['question'], ['db_id'] and ['query']. *)
Record Sample := {
  sample_question : pystr;
  sample_db_id : pystr;
  sample_query : pystr
}.

(** [SpiderBenchmark]: the schema texts of its loader and the evaluator
    switches.  The pipeline and the judge client are collaborators. *)
Record SpiderBenchmark := {
  db_schemas : gmap pystr pystr;
  _use_llm_judge : bool;
  _use_execution : bool;
  _databases_dir : option pystr
}.

(** [SpiderDataLoader.get_schema] *)
Definition get_schema (self : SpiderBenchmark) (db_id : pystr) : pystr :=
  default [] (db_schemas self !! db_id).

(** [evaluate_exact_match] of [evaluators/exact_match.py] *)
Definition evaluate_exact_match (gold_sql predicted_sql : pystr) : bool :=
  Normalizer.exact_match gold_sql predicted_sql.

(** [if s:] for an [Optional[str]] *)
Definition truthy (o : option pystr) : bool :=
  match o with Some (_ :: _) => true | _ => false end.

(** [BenchmarkResult(question=..., db_id=..., gold_sql=...,
    predicted_sql=..., exact_match=..., is_valid_sql=..., error=...,
    latency_ms=...)], the other fields at their defaults. *)
Definition new_result (question db_id gold_sql predicted_sql : pystr)
    (exact_match is_valid_sql : bool) (error : option pystr) (latency_ms : Q)
  : BenchmarkResult := {|
  Results.question := question;
  Results.db_id := db_id;
  Results.gold_sql := gold_sql;
  Results.predicted_sql := predicted_sql;
  Results.exact_match := exact_match;
  Results.execution_match := None;
  Results.llm_judge_match := None;
  Results.llm_judge_score := 0;
  Results.llm_judge_reasoning := [];
  Results.is_valid_sql := is_valid_sql;
  Results.error := error;
  Results.latency_ms := latency_ms
|}.

(** [result.llm_judge_match = m; result.llm_judge_score = s;
    result.llm_judge_reasoning = why] *)
Definition set_llm_judge (result : BenchmarkResult) (m : option bool) (s : Z)
    (why : pystr) : BenchmarkResult := {|
  question := question result;
  db_id := db_id result;
  gold_sql := gold_sql result;
  predicted_sql := predicted_sql result;
  exact_match := exact_match result;
  execution_match := execution_match result;
  llm_judge_match := m;
  llm_judge_score := s;
  llm_judge_reasoning := why;
  is_valid_sql := is_valid_sql result;
  error := error result;
  latency_ms := latency_ms result
|}.

(** [result.execution_match = m] *)
Definition set_execution_match (result : BenchmarkResult) (m : option bool)
  : BenchmarkResult := {|
  question := question result;
  db_id := db_id result;
  gold_sql := gold_sql result;
  predicted_sql := predicted_sql result;
  exact_match := exact_match result;
  execution_match := m;
  llm_judge_match := llm_judge_match result;
  llm_judge_score := llm_judge_score result;
  llm_judge_reasoning := llm_judge_reasoning result;
  is_valid_sql := is_valid_sql result;
  error := error result;
  latency_ms := latency_ms result
|}.

(** The in-place updates of the report: [report.<field> += n] and
    [report.results.append(r)]. *)
Definition add_total_samples (n : Z) (r : BenchmarkReport) : BenchmarkReport := {|
  total_samples := total_samples r + n;
  exact_match_count := exact_match_count r;
  execution_match_count := execution_match_count r;
  llm_judge_match_count := llm_judge_match_count r;
  llm_judge_total_score := llm_judge_total_score r;
  valid_sql_count := valid_sql_count r;
  error_count := error_count r;
  total_latency_ms := total_latency_ms r;
  results := results r
|}.

Definition add_exact_match_count (n : Z) (r : BenchmarkReport) : BenchmarkReport := {|
  total_samples := total_samples r;
  exact_match_count := exact_match_count r + n;
  execution_match_count := execution_match_count r;
  llm_judge_match_count := llm_judge_match_count r;
  llm_judge_total_score := llm_judge_total_score r;
  valid_sql_count := valid_sql_count r;
  error_count := error_count r;
  total_latency_ms := total_latency_ms r;
  results := results r
|}.

Definition add_execution_match_count (n : Z) (r : BenchmarkReport) : BenchmarkReport := {|
  total_samples := total_samples r;
  exact_match_count := exact_match_count r;
  execution_match_count := execution_match_count r + n;
  llm_judge_match_count := llm_judge_match_count r;
  llm_judge_total_score := llm_judge_total_score r;
  valid_sql_count := valid_sql_count r;
  error_count := error_count r;
  total_latency_ms := total_latency_ms r;
  results := results r
|}.

Definition add_llm_judge_match_count (n : Z) (r : BenchmarkReport) : BenchmarkReport := {|
  total_samples := total_samples r;
  exact_match_count := exact_match_count r;
  execution_match_count := execution_match_count r;
  llm_judge_match_count := llm_judge_match_count r + n;
  llm_judge_total_score := llm_judge_total_score r;
  valid_sql_count := valid_sql_count r;
  error_count := error_count r;
  total_latency_ms := total_latency_ms r;
  results := results r
|}.

Definition add_llm_judge_total_score (n : Z) (r : BenchmarkReport) : BenchmarkReport := {|
  total_samples := total_samples r;
  exact_match_count := exact_match_count r;
  execution_match_count := execution_match_count r;
  llm_judge_match_count := llm_judge_match_count r;
  llm_judge_total_score := llm_judge_total_score r + n;
  valid_sql_count := valid_sql_count r;
  error_count := error_count r;
  total_latency_ms := total_latency_ms r;
  results := results r
|}.

Definition add_valid_sql_count (n : Z) (r : BenchmarkReport) : BenchmarkReport := {|
  total_samples := total_samples r;
  exact_match_count := exact_match_count r;
  execution_match_count := execution_match_count r;
  llm_judge_match_count := llm_judge_match_count r;
  llm_judge_total_score := llm_judge_total_score r;
  valid_sql_count := valid_sql_count r + n;
  error_count := error_count r;
  total_latency_ms := total_latency_ms r;
  results := results r
|}.

Definition add_error_count (n : Z) (r : BenchmarkReport) : BenchmarkReport := {|
  total_samples := total_samples r;
  exact_match_count := exact_match_count r;
  execution_match_count := execution_match_count r;
  llm_judge_match_count := llm_judge_match_count r;
  llm_judge_total_score := llm_judge_total_score r;
  valid_sql_count := valid_sql_count r;
  error_count := error_count r + n;
  total_latency_ms := total_latency_ms r;
  results := results r
|}.

Definition add_total_latency_ms (x : Q) (r : BenchmarkReport) : BenchmarkReport := {|
  total_samples := total_samples r;
  exact_match_count := exact_match_count r;
  execution_match_count := execution_match_count r;
  llm_judge_match_count := llm_judge_match_count r;
  llm_judge_total_score := llm_judge_total_score r;
  valid_sql_count := valid_sql_count r;
  error_count := error_count r;
  total_latency_ms := (total_latency_ms r + x)%Q;
  results := results r
|}.

Definition append_result (x : BenchmarkResult) (r : BenchmarkReport) : BenchmarkReport := {|
  total_samples := total_samples r;
  exact_match_count := exact_match_count r;
  execution_match_count := execution_match_count r;
  llm_judge_match_count := llm_judge_match_count r;
  llm_judge_total_score := llm_judge_total_score r;
  valid_sql_count := valid_sql_count r;
  error_count := error_count r;
  total_latency_ms := total_latency_ms r;
  results := results r ++ [x]
|}.

(** [if cond: report.<field> += ...] *)
Definition when {W} (cond : bool) (c : M W unit) : M W unit :=
  if cond then c else ret tt.

Section Benchmark.
Context {W : Type} `{Collaborators W}.

(** [SpiderBenchmark._is_valid_sql] *)
Definition _is_valid_sql (sql : pystr) : bool :=
  match sqlparse_types sql with
  | Returned (first :: _) => negb (str_eqb first (py "UNKNOWN"))
  | Returned [] => false
  | Raised _ => false
  end.

(** [SpiderBenchmark._evaluate_llm_judge]; the result object it updates
    in place is returned. *)
Definition _evaluate_llm_judge (self : SpiderBenchmark) (result : BenchmarkResult)
    (exact_match : bool) : M W BenchmarkResult :=
  if exact_match then
    let result := set_llm_judge result (Some true) 5 (py "Exact match") in
    _ <- update_report (add_llm_judge_match_count 1) ;;
    _ <- update_report (add_llm_judge_total_score 5) ;;
    ret result
  else if is_valid_sql result then
    judge_result <-
      ask_judge (question result) (gold_sql result) (predicted_sql result) ;;
    let result :=
      set_llm_judge result (Some (is_equivalent judge_result))
        (score judge_result) (reasoning judge_result) in
    _ <- when (is_equivalent judge_result)
           (update_report (add_llm_judge_match_count 1)) ;;
    _ <- update_report (add_llm_judge_total_score (score judge_result)) ;;
    ret result
  else ret result.

(** [SpiderBenchmark._evaluate_execution] *)
Definition _evaluate_execution (self : SpiderBenchmark) (result : BenchmarkResult)
  : M W BenchmarkResult :=
  ' (match_, message) <-
      Execution.evaluate_execution (gold_sql result) (predicted_sql result)
        (db_id result) (default [] (_databases_dir self)) ;;
  let result := set_execution_match result match_ in
  _ <- when (is_true match_) (update_report (add_execution_match_count 1)) ;;
  ret result.

(** [SpiderBenchmark._evaluate_sample] *)
Definition _evaluate_sample (self : SpiderBenchmark) (sample : Sample)
  : M W BenchmarkResult :=
  let question := sample_question sample in
  let db_id := sample_db_id sample in
  let gold_sql := sample_query sample in
  let schema := get_schema self db_id in
  start_time <- now ;;
  try_except
    (predicted_sql <- run_pipeline question schema ;;
     t <- now ;;
     let latency_ms := ((t - start_time) * 1000)%Q in
     let exact_match := evaluate_exact_match gold_sql predicted_sql in
     let is_valid := _is_valid_sql predicted_sql in
     let result :=
       new_result question db_id gold_sql predicted_sql exact_match is_valid
         None latency_ms in
     result <- (if _use_llm_judge self
                then _evaluate_llm_judge self result exact_match
                else ret result) ;;
     result <- (if _use_execution self && truthy (_databases_dir self)
                then _evaluate_execution self result
                else ret result) ;;
     _ <- when exact_match (update_report (add_exact_match_count 1)) ;;
     _ <- when is_valid (update_report (add_valid_sql_count 1)) ;;
     ret result)
    (fun e =>
       t <- now ;;
       let latency_ms := ((t - start_time) * 1000)%Q in
       let result :=
         new_result question db_id gold_sql [] false false
           (Some (exn_text e)) latency_ms in
       _ <- update_report (add_error_count 1) ;;
       ret result).

(** The loop of [SpiderBenchmark.run] (lines 99-106); the progress lines
    it prints are left out. *)
Fixpoint run_loop (self : SpiderBenchmark) (samples : list Sample) : M W unit :=
  match samples with
  | [] => ret tt
  | sample :: rest =>
      result <- _evaluate_sample self sample ;;
      _ <- update_report (append_result result) ;;
      _ <- update_report (add_total_samples 1) ;;
      _ <- update_report (add_total_latency_ms (latency_ms result)) ;;
      run_loop self rest
  end.

End Benchmark.

(** What one result adds to the counters of the report. *)
Definition one (b : bool) : Z := if b then 1 else 0.

Definition account (r : BenchmarkResult) (rep : BenchmarkReport) : BenchmarkReport := {|
  total_samples := total_samples rep;
  exact_match_count := exact_match_count rep + one (exact_match r);
  execution_match_count :=
    execution_match_count rep + one (is_true (execution_match r));
  llm_judge_match_count :=
    llm_judge_match_count rep + one (is_true (llm_judge_match r));
  llm_judge_total_score :=
    llm_judge_total_score rep
    + (if is_set (llm_judge_match r) then llm_judge_score r else 0);
  valid_sql_count := valid_sql_count rep + one (is_valid_sql r);
  error_count := error_count rep + one (is_set (error r));
  total_latency_ms := total_latency_ms rep;
  results := results rep
|}.

(** The invariant of the report: the number of samples is the number of
    results, and every counter is the number of results that satisfy its
    predicate. *)
Record consistent (rep : BenchmarkReport) : Prop := {
  total_samples_ok : total_samples rep = Z.of_nat (length (results rep));
  exact_match_count_ok :
    exact_match_count rep = count exact_match (results rep);
  execution_match_count_ok :
    execution_match_count rep
    = count (fun r => is_true (execution_match r)) (results rep);
  llm_judge_match_count_ok :
    llm_judge_match_count rep
    = count (fun r => is_true (llm_judge_match r)) (results rep);
  valid_sql_count_ok :
    valid_sql_count rep = count is_valid_sql (results rep);
  error_count_ok :
    error_count rep = count (fun r => is_set (error r)) (results rep)
}.

(** What stays in the judge counters when a sample ends in the handler
    after the judge had been counted: [dm] in [llm_judge_match_count]
    and [ds] in [llm_judge_total_score]. *)
Definition surplus (dm ds : Z) (rep : BenchmarkReport) : BenchmarkReport :=
  add_llm_judge_total_score ds (add_llm_judge_match_count dm rep).

(** The invariant that holds in every world: as [consistent], but
    [llm_judge_match_count] may exceed the number of results the judge
    matched. *)
Record accounted (rep : BenchmarkReport) : Prop := {
  accounted_total : total_samples rep = Z.of_nat (length (results rep));
  accounted_exact : exact_match_count rep = count exact_match (results rep);
  accounted_execution :
    execution_match_count rep
    = count (fun r => is_true (execution_match r)) (results rep);
  accounted_judge :
    (count (fun r => is_true (llm_judge_match r)) (results rep)
     <= llm_judge_match_count rep)%Z;
  accounted_valid : valid_sql_count rep = count is_valid_sql (results rep);
  accounted_error :
    error_count rep = count (fun r => is_set (error r)) (results rep)
}.

(** A benchmark on which no sample can fail after the judge was counted:
    the judge is off, or the execution evaluator is off, or
    [Path.exists()] never raises. *)
Definition no_late_failure {W} `{Collaborators W} (self : SpiderBenchmark) : Prop :=
  _use_llm_judge self = false \/
  _use_execution self && truthy (_databases_dir self) = false \/
  paths_answer W.

(** *** Two small worlds *)



(** A world in which the pipeline answers every question with the same
    statement, and the judge rejects whatever it is shown. *)
Definition constant_pipeline_world : Collaborators unit := {|
  path_exists := fun _ _ => Returned false;
  sqlite3_connect := fun w _ _ => (None, w);
  cursor_execute := fun w _ _ => (None, w);
  cursor_fetchall := fun w _ => (Returned [], w);
  connection_close := fun w _ => w;
  pipeline_func := fun w _ _ => (Returned (py "select COUNT(*)  from singer;"), w);
  sqlparse_types := fun _ => Returned [py "SELECT"];
  judge_sql_equivalence := fun w _ _ _ =>
    (Returned {| is_equivalent := false; score := 1; reasoning := [] |}, w);
  time_time := fun w => (0%Q, w)
|}.

Definition judged_benchmark : SpiderBenchmark := {|
  db_schemas := ∅;
  _use_llm_judge := true;
  _use_execution := false;
  _databases_dir := None
|}.

Definition singer_count : Sample := {|
  sample_question := py "How many singers are there?";
  sample_db_id := py "concert_singer";
  sample_query := py "SELECT count(*) FROM singer"
|}.

Definition singer_names : Sample := {|
  sample_question := py "List the names of all singers.";
  sample_db_id := py "concert_singer";
  sample_query := py "SELECT name FROM singer"
|}.

(** *** Facts about one sample *)

Lemma count_app p l x : count p (l ++ [x]) = (count p l + one (p x))%Z.
Proof.
  unfold count, one. rewrite List.filter_app, length_app. simpl.
  destruct (p x); simpl; lia.
Qed.

Lemma report_eq (a b : BenchmarkReport) :
  total_samples a = total_samples b ->
  exact_match_count a = exact_match_count b ->
  execution_match_count a = execution_match_count b ->
  llm_judge_match_count a = llm_judge_match_count b ->
  llm_judge_total_score a = llm_judge_total_score b ->
  valid_sql_count a = valid_sql_count b ->
  error_count a = error_count b ->
  total_latency_ms a = total_latency_ms b ->
  results a = results b ->
  a = b.
Proof. destruct a, b; simpl; intros; subst; reflexivity. Qed.

Ltac report_fields :=
  apply report_eq; simpl; unfold one; simpl;
  repeat match goal with
         | |- context [if ?b then _ else _] => destruct b; simpl
         end;
  try reflexivity; try lia.

Lemma new_report_consistent : consistent new_report.
Proof. split; reflexivity. Qed.

(** One pass of the loop body keeps the invariant. *)
Lemma consistent_step rep r :
  consistent rep ->
  consistent
    (add_total_latency_ms (latency_ms r)
       (add_total_samples 1 (append_result r (account r rep)))).
Proof.
  intros [H1 H2 H3 H4 H5 H6]. split; simpl; rewrite ?count_app; try congruence.
  rewrite length_app. simpl. lia.
Qed.

Lemma consistent_accounted rep : consistent rep -> accounted rep.
Proof. intros [H1 H2 H3 H4 H5 H6]. split; auto. lia. Qed.

(** One pass of the loop body keeps the weaker invariant, whatever stays
    in the judge counters. *)
Lemma accounted_step rep r dm ds :
  (0 <= dm)%Z ->
  accounted rep ->
  accounted
    (add_total_latency_ms (latency_ms r)
       (add_total_samples 1 (append_result r (surplus dm ds (account r rep))))).
Proof.
  intros Hd [H1 H2 H3 H4 H5 H6]. split; simpl; rewrite ?count_app; try congruence.
  - rewrite length_app. simpl. lia.
  - lia.
Qed.

Lemma surplus_none rep : surplus 0 0 rep = rep.
Proof. apply report_eq; simpl; try reflexivity; lia. Qed.

Lemma account_surplus r dm ds rep :
  account r (surplus dm ds rep) = surplus dm ds (account r rep).
Proof. apply report_eq; simpl; try reflexivity; lia. Qed.

Section BenchmarkFacts.
Context {W : Type} `{Collaborators W}.

(** [_evaluate_execution] sets [execution_match] and counts a match
    exactly when the field it set is [True]; when the evaluator raises,
    the report is as it was. *)
Lemma evaluate_execution_accounts self result (st : state W) :
  exists r st',
    _evaluate_execution self result st = (r, st') /\
    judge_calls st' = judge_calls st /\
    match r with
    | Returned result' =>
        exists m,
          result' = set_execution_match result m /\
          report st' = (if is_true m then add_execution_match_count 1 (report st)
                        else report st)
    | Raised e => report st' = report st /\ exists w p, path_exists w p = Raised e
    end.
Proof.
  destruct (Execution.evaluate_execution_outcome (gold_sql result)
              (predicted_sql result) (db_id result)
              (default [] (_databases_dir self)) st)
    as (r & st1 & E & R & J & He).
  unfold _evaluate_execution, bind. rewrite E.
  destruct r as [[m msg]|e].
  - unfold when. destruct (is_true m) eqn:Em; unfold update_report, ret; simpl;
      do 2 eexists; (split; [reflexivity|]); simpl; (split; [exact J|]);
      exists m; rewrite Em, ?R; auto.
  - do 2 eexists. split; [reflexivity|]. split; [exact J|]. split; [exact R|].
    apply He. reflexivity.
Qed.

(** The three ways through [_evaluate_llm_judge]. *)
Lemma evaluate_llm_judge_cases self result exact (st : state W) :
  _evaluate_llm_judge self result exact st =
  if exact then
    (Returned (set_llm_judge result (Some true) 5 (py "Exact match")),
     set_report
       (add_llm_judge_total_score 5 (add_llm_judge_match_count 1 (report st))) st)
  else if is_valid_sql result then
    match judge_sql_equivalence (world st) (question result) (gold_sql result)
            (predicted_sql result) with
    | (Returned j, w) =>
        (Returned (set_llm_judge result (Some (is_equivalent j)) (score j)
                     (reasoning j)),
         {| world := w;
            open_connections := open_connections st;
            next_handle := next_handle st;
            judge_calls :=
              judge_calls st
              ++ [(question result, gold_sql result, predicted_sql result)];
            report :=
              add_llm_judge_total_score (score j)
                (if is_equivalent j
                 then add_llm_judge_match_count 1 (report st)
                 else report st) |})
    | (Raised e, w) =>
        (Raised e,
         {| world := w;
            open_connections := open_connections st;
            next_handle := next_handle st;
            judge_calls :=
              judge_calls st
              ++ [(question result, gold_sql result, predicted_sql result)];
            report := report st |})
    end
  else (Returned result, st).
Proof.
  unfold _evaluate_llm_judge. destruct exact; [reflexivity|].
  destruct (is_valid_sql result); [|reflexivity].
  unfold bind, ask_judge.
  destruct (judge_sql_equivalence _ _ _ _) as [[j|e] w]; [|reflexivity].
  unfold when. destruct (is_equivalent j); reflexivity.
Qed.

(** The error handler of [_evaluate_sample] (lines 158-170). *)
Lemma error_handler_accounts (sample : Sample) (start_time : Q) (e : exn) (st : state W)
    (rep0 : BenchmarkReport) :
  report st = rep0 ->
  exists r st',
    (t <- now ;;
     _ <- update_report (add_error_count 1) ;;
     ret (new_result (sample_question sample) (sample_db_id sample)
            (sample_query sample) [] false false (Some (exn_text e))
            ((t - start_time) * 1000)%Q))%py st = (Returned r, st') /\
    report st' = account r rep0 /\
    judge_calls st' = judge_calls st /\
    predicted_sql r = [] /\ exact_match r = false /\ is_valid_sql r = false /\
    error r = Some (exn_text e) /\
    question r = sample_question sample /\
    db_id r = sample_db_id sample /\ gold_sql r = sample_query sample.
Proof.
  intros <-. unfold bind, now, call, update_report, ret.
  destruct (time_time (world st)) as [t w]. simpl.
  do 2 eexists. split; [reflexivity|]. simpl.
  repeat split. report_fields.
Qed.

(** [_evaluate_sample] returns a result in every world, whatever the
    pipeline, the judge and the execution evaluator do.  The report it
    leaves is the report it found with that one result accounted for,
    and with what the judge had counted when the execution evaluator
    raised after it. *)
Lemma evaluate_sample_accounts self sample (st : state W) :
  exists r st' dm ds,
    _evaluate_sample self sample st = (Returned r, st') /\
    report st' = surplus dm ds (account r (report st)) /\
    (0 <= dm <= 1)%Z /\
    ((dm = 0 /\ ds = 0)%Z \/
     (_use_llm_judge self = true /\
      _use_execution self && truthy (_databases_dir self) = true /\
      exists w p e, path_exists w p = Raised e)) /\
    question r = sample_question sample /\
    db_id r = sample_db_id sample /\
    gold_sql r = sample_query sample /\
    (exact_match r = true ->
     judge_calls st' = judge_calls st /\
     (_use_llm_judge self = true ->
      llm_judge_match r = Some true /\ llm_judge_score r = 5%Z)).
Proof.
  unfold _evaluate_sample. unfold bind at 1. unfold now at 1, call.
  destruct (time_time (world st)) as [t0 w0] eqn:Et0. cbv beta iota.
  match goal with
  | |- context [try_except ?b ?h _] => set (body := b); set (handler := h)
  end.
  unfold try_except, body. unfold bind at 1. unfold run_pipeline, call_raising.
  cbn [world set_world].
  destruct (pipeline_func w0 _ _) as [[p|e] w1] eqn:Ep; cbv beta iota.
  2:{ unfold handler.
      match goal with
      | |- context [bind now ?k ?s] =>
          destruct (error_handler_accounts sample t0 e s (report st) eq_refl)
            as (r & st' & E & R & _ & _ & Q0 & _ & _ & Q1 & Q2 & Q3)
      end.
      exists r, st', 0%Z, 0%Z. split; [exact E|].
      rewrite surplus_none. repeat split; auto; try lia; congruence. }
  unfold bind at 1. unfold now at 1, call. cbn [world set_world].
  destruct (time_time w1) as [t1 w2] eqn:Et1. cbv beta iota zeta.
  remember (evaluate_exact_match (sample_query sample) p) as em eqn:Hem.
  remember (_is_valid_sql p) as iv eqn:Hiv.
  remember ((t1 - t0) * 1000)%Q as lat eqn:Hlat.
  set (r0 := new_result (sample_question sample) (sample_db_id sample)
               (sample_query sample) p em iv None lat).
  set (st2 := set_world w2 (set_world w1 (set_world w0 st))).
  assert (R2 : report st2 = report st) by reflexivity.
  assert (J2 : judge_calls st2 = judge_calls st) by reflexivity.
  clearbody st2.
  (* the judge *)
  assert (Hj :
    (exists e st3,
       (if _use_llm_judge self then _evaluate_llm_judge self r0 em else ret r0) st2
         = (Raised e, st3) /\ report st3 = report st) \/
    (exists m s why st3,
       (if _use_llm_judge self then _evaluate_llm_judge self r0 em else ret r0) st2
         = (Returned (if is_set m then set_llm_judge r0 m s why else r0), st3) /\
       report st3 =
         (if is_set m
          then add_llm_judge_total_score s
                 (if is_true m then add_llm_judge_match_count 1 (report st)
                  else report st)
          else report st) /\
       (is_set m = true -> _use_llm_judge self = true) /\
       (em = true ->
        judge_calls st3 = judge_calls st /\
        (_use_llm_judge self = true -> m = Some true /\ s = 5%Z)))).
  { destruct (_use_llm_judge self).
    - rewrite evaluate_llm_judge_cases.
      destruct em.
      + right. exists (Some true), 5%Z, (py "Exact match"). eexists.
        split; [reflexivity|]. simpl. rewrite R2. auto.
      + destruct (is_valid_sql r0).
        * destruct (judge_sql_equivalence _ _ _ _) as [[j|e] w].
          -- right. exists (Some (is_equivalent j)), (score j), (reasoning j).
             eexists. split; [reflexivity|]. simpl. rewrite R2.
             split; [destruct (is_equivalent j); reflexivity|].
             split; [reflexivity|discriminate].
          -- left. do 2 eexists. split; [reflexivity|]. simpl. exact R2.
        * right. exists None, 0%Z, []. eexists. split; [reflexivity|].
          simpl. split; [exact R2|]. split; discriminate.
    - right. exists None, 0%Z, []. eexists. split; [reflexivity|].
      simpl. split; [exact R2|]. split; [discriminate|].
      intros _. split; [exact J2|discriminate]. }
  unfold bind at 1.
  destruct Hj as [(e & st3 & E3 & R3)|(m & s & why & st3 & E3 & R3 & U3 & J3)];
    rewrite E3; cbv beta iota.
  { unfold handler.
    destruct (error_handler_accounts sample t0 e st3 (report st) R3)
      as (r & st' & E & R & _ & _ & Q0 & _ & _ & Q1 & Q2 & Q3).
    exists r, st', 0%Z, 0%Z. split; [exact E|].
    rewrite surplus_none. repeat split; auto; try lia; congruence. }
  set (r1 := if is_set m then set_llm_judge r0 m s why else r0) in *.
  (* the execution evaluator *)
  assert (Hx :
    (exists e st4,
       (if _use_execution self && truthy (_databases_dir self)
        then _evaluate_execution self r1 else ret r1) st3 = (Raised e, st4) /\
       report st4 = report st3 /\
       _use_execution self && truthy (_databases_dir self) = true /\
       exists w p, path_exists w p = Raised e) \/
    (exists x st4,
      (if _use_execution self && truthy (_databases_dir self)
       then _evaluate_execution self r1 else ret r1) st3
        = (Returned (match x with Some v => set_execution_match r1 v | None => r1 end),
           st4) /\
      report st4 =
        (if match x with Some v => is_true v | None => false end
         then add_execution_match_count 1 (report st3) else report st3) /\
      judge_calls st4 = judge_calls st3)).
  { destruct (_use_execution self && truthy (_databases_dir self)).
    - destruct (evaluate_execution_accounts self r1 st3) as (rx & st4 & E4 & J4 & H4).
      destruct rx as [r2|e].
      + destruct H4 as (v & -> & R4). right. exists (Some v), st4. auto.
      + destruct H4 as (R4 & Hp). left. exists e, st4. auto.
    - right. exists None, st3. repeat split; reflexivity. }
  destruct Hx as [(e & st4 & E4 & R4 & X4 & w & q & Hp)|(x & st4 & E4 & R4 & J4)].
  { unfold bind at 1. rewrite E4. cbv beta iota. unfold handler.
    destruct (error_handler_accounts sample t0 e st4 (report st4) eq_refl)
      as (r & st' & E & R & _ & Q4 & Q0 & Q5 & Q6 & Q1 & Q2 & Q3).
    exists r, st', (if is_set m then one (is_true m) else 0%Z),
      (if is_set m then s else 0%Z).
    split; [exact E|]. split.
    - rewrite R, R4, R3. apply report_eq; unfold surplus, account;
        cbn [total_samples exact_match_count execution_match_count
             llm_judge_match_count llm_judge_total_score valid_sql_count
             error_count total_latency_ms results add_llm_judge_total_score
             add_llm_judge_match_count];
        destruct m as [[]|]; simpl; try reflexivity; lia.
    - split; [destruct m as [[]|]; simpl; lia|].
      split; [|repeat split; auto; congruence].
      destruct (is_set m) eqn:Em; [right|left; auto].
      split; [apply U3; reflexivity|]. split; [exact X4|]. eauto. }
  unfold bind at 1. rewrite E4. cbv beta iota.
  set (r2 := match x with Some v => set_execution_match r1 v | None => r1 end) in *.
  exists r2.
  assert (Hfields : exact_match r2 = em /\ is_valid_sql r2 = iv /\
                    error r2 = None /\
                    llm_judge_match r2 = (if is_set m then m else None) /\
                    llm_judge_score r2 = (if is_set m then s else 0%Z) /\
                    execution_match r2 = match x with Some v => v | None => None end /\
                    question r2 = sample_question sample /\
                    db_id r2 = sample_db_id sample /\
                    gold_sql r2 = sample_query sample).
  { unfold r2, r1, r0. destruct x, m; simpl; repeat split. }
  destruct Hfields as (F1 & F2 & F3 & F4 & F5 & F6 & F7 & F8 & F9).
  clearbody r2.
  unfold bind, when, update_report, ret.
  assert (Hexact : exact_match r2 = true ->
            judge_calls st4 = judge_calls st /\
            (_use_llm_judge self = true ->
             llm_judge_match r2 = Some true /\ llm_judge_score r2 = 5%Z)).
  { rewrite F1. intros Hem'. destruct (J3 Hem') as [J3a J3b].
    split; [congruence|]. intros Hu. destruct (J3b Hu) as [-> ->].
    rewrite F4, F5. auto. }
  destruct em, iv; cbv beta iota; eexists; exists 0%Z, 0%Z; (split; [reflexivity|]);
    rewrite surplus_none;
    (split; [|split; [lia|split; [left; split; reflexivity|auto 10]]]);
    cbn [report set_report];
    rewrite R4, R3; apply report_eq; unfold account; cbn [total_samples
      exact_match_count execution_match_count llm_judge_match_count
      llm_judge_total_score valid_sql_count error_count total_latency_ms results];
    rewrite ?F1, ?F2, ?F3, ?F4, ?F5, ?F6; unfold one;
    destruct x as [[[]|]|], m as [[]|]; simpl; try reflexivity; try lia.
Qed.

(** One iteration of the loop. *)
Lemma run_loop_cons self sample rest (st : state W) :
  exists r st1 dm ds,
    _evaluate_sample self sample st = (Returned r, st1) /\
    report st1 = surplus dm ds (account r (report st)) /\
    (0 <= dm)%Z /\
    (no_late_failure self -> report st1 = account r (report st)) /\
    question r = sample_question sample /\
    run_loop self (sample :: rest) st
    = run_loop self rest
        (set_report
           (add_total_latency_ms (latency_ms r)
              (add_total_samples 1 (append_result r (report st1)))) st1).
Proof.
  destruct (evaluate_sample_accounts self sample st)
    as (r & st1 & dm & ds & E & R & D & Hd & Q1 & _).
  exists r, st1, dm, ds. split; [exact E|]. split; [exact R|].
  split; [lia|]. split; [|split; [exact Q1|]].
  - intros Hq. rewrite R.
    destruct Hd as [[-> ->]|(U & X & w & p & e & Hp)]; [apply surplus_none|].
    destruct Hq as [Hq|[Hq|Hq]]; try congruence.
    destruct (Hq w p) as [b Hb]. congruence.
  - simpl run_loop. unfold bind at 1. rewrite E. reflexivity.
Qed.

(** The loop never raises, keeps the weaker invariant in every world,
    and appends one result for each sample, in order. *)
Lemma run_loop_accounted self samples : forall st : state W,
  accounted (report st) ->
  exists st',
    run_loop self samples st = (Returned tt, st') /\
    accounted (report st') /\
    map question (results (report st'))
    = map question (results (report st)) ++ map sample_question samples.
Proof.
  induction samples as [|sample rest IH]; intros st Hc.
  - exists st. simpl. rewrite app_nil_r. auto.
  - destruct (run_loop_cons self sample rest st)
      as (r & st1 & dm & ds & E & R & D & _ & Q1 & L).
    rewrite L.
    match goal with
    | |- context [run_loop self rest ?s] => destruct (IH s) as (st' & E' & C' & M')
    end.
    { simpl. rewrite R. apply accounted_step; assumption. }
    exists st'. split; [exact E'|]. split; [exact C'|].
    rewrite M'. simpl. rewrite R. simpl. rewrite map_app. simpl.
    rewrite Q1, <- app_assoc. reflexivity.
Qed.

(** On a benchmark without late failures the loop keeps the invariant
    with every counter exact. *)
Lemma run_loop_consistent self samples : no_late_failure self ->
  forall st : state W,
  consistent (report st) ->
  exists st',
    run_loop self samples st = (Returned tt, st') /\
    consistent (report st') /\
    map question (results (report st'))
    = map question (results (report st)) ++ map sample_question samples.
Proof.
  intros Hq. induction samples as [|sample rest IH]; intros st Hc.
  - exists st. simpl. rewrite app_nil_r. auto.
  - destruct (run_loop_cons self sample rest st)
      as (r & st1 & dm & ds & E & _ & _ & R & Q1 & L).
    specialize (R Hq). rewrite L.
    match goal with
    | |- context [run_loop self rest ?s] => destruct (IH s) as (st' & E' & C' & M')
    end.
    { simpl. rewrite R. apply consistent_step, Hc. }
    exists st'. split; [exact E'|]. split; [exact C'|].
    rewrite M'. simpl. rewrite R. simpl. rewrite map_app. simpl.
    rewrite Q1, <- app_assoc. reflexivity.
Qed.

(** Running the loop on [done ++ rest] is running it on [done] and then
    on [rest]. *)
Lemma run_loop_app self done rest : forall st : state W,
  run_loop self (done ++ rest) st
  = match run_loop self done st with
    | (Returned _, st') => run_loop self rest st'
    | (Raised e, st') => (Raised e, st')
    end.
Proof.
  induction done as [|sample done IH]; intros st; [reflexivity|].
  destruct (run_loop_cons self sample (done ++ rest) st)
    as (r & st1 & dm & ds & E & _ & _ & _ & _ & L).
  destruct (run_loop_cons self sample done st)
    as (r' & st1' & dm' & ds' & E' & _ & _ & _ & _ & L').
  rewrite E in E'. injection E' as <- <-.
  simpl app. rewrite L, L'. apply IH.
Qed.



(** C7.  In [_evaluate_llm_judge] the judge is called exactly when
    [exact_match] is false and the result is valid SQL; on an exact match
    the result gets [llm_judge_match = True] and [llm_judge_score = 5]
    without a call.  With the judge enabled, every result of
    [_evaluate_sample] that is an exact match carries these values, and no
    call to the judge was made for it. *)
Theorem judge_called_only_when_needed :
  (forall self result exact (st : state W),
     judge_calls (snd (_evaluate_llm_judge self result exact st))
     = (if negb exact && is_valid_sql result
        then judge_calls st
             ++ [(question result, gold_sql result, predicted_sql result)]
        else judge_calls st) /\
     (exact = true ->
      exists r,
        fst (_evaluate_llm_judge self result exact st) = Returned r /\
        llm_judge_match r = Some true /\ llm_judge_score r = 5%Z)) /\
  (forall self sample (st : state W),
     _use_llm_judge self = true ->
     exists r st',
       _evaluate_sample self sample st = (Returned r, st') /\
       (exact_match r = true ->
        llm_judge_match r = Some true /\ llm_judge_score r = 5%Z /\
        judge_calls st' = judge_calls st)).
Proof.
  split.
  - intros self result exact st. rewrite evaluate_llm_judge_cases.
    destruct exact; simpl.
    + split; [reflexivity|]. intros _. eexists. split; [reflexivity|]. auto.
    + split; [|discriminate].
      destruct (is_valid_sql result); [|reflexivity].
      destruct (judge_sql_equivalence _ _ _ _) as [[j|e] w]; reflexivity.
  - intros self sample st Hu.
    destruct (evaluate_sample_accounts self sample st)
      as (r & st' & dm & ds & E & _ & _ & _ & _ & _ & _ & Hx).
    exists r, st'. split; [exact E|]. intros He.
    destruct (Hx He) as [J Hl]. destruct (Hl Hu) as [L1 L2]. auto.
Qed.

(** From a fresh report, the state reached after any number of
    iterations of the loop (the samples [done] processed, [rest] still to
    come) holds a report in which [total_samples] is the number of
    results and [exact_match_count], [execution_match_count],
    [valid_sql_count] and [error_count] are the numbers of results that
    satisfy their predicates, while [llm_judge_match_count] is at least
    the number of results the judge matched; it is that number on a
    benchmark on which no sample can fail after the judge was counted. *)
Theorem report_accounted_after_each_iteration self (w : W) (done rest : list Sample) :
  exists st,
    run_loop self done (initial_state w) = (Returned tt, st) /\
    run_loop self (done ++ rest) (initial_state w) = run_loop self rest st /\
    accounted (report st) /\
    (no_late_failure self -> consistent (report st)) /\
    length (results (report st)) = length done.
Proof.
  destruct (run_loop_accounted self done (initial_state w)
              (consistent_accounted _ new_report_consistent))
    as (st & E & C & M).
  exists st. split; [exact E|]. split; [rewrite run_loop_app, E; reflexivity|].
  split; [exact C|]. split.
  - intros Hq.
    destruct (run_loop_consistent self done Hq (initial_state w) new_report_consistent)
      as (st' & E' & C' & _).
    rewrite E in E'. injection E' as <-. exact C'.
  - apply (f_equal (@length pystr)) in M. simpl in M.
    rewrite !length_map in M. exact M.
Qed.

End BenchmarkFacts.


Lemma judge_called_only_when_needed_witness :
  exists r st',
    _evaluate_sample (H := constant_pipeline_world) judged_benchmark singer_count
      (initial_state tt) = (Returned r, st') /\
    (exact_match r = true ->
     llm_judge_match r = Some true /\ llm_judge_score r = 5%Z /\
     judge_calls st' = judge_calls (initial_state tt)).
Proof.
  apply (proj2 (judge_called_only_when_needed (H := constant_pipeline_world))
           judged_benchmark singer_count (initial_state tt)).
  reflexivity.
Defined.

(** A benchmark with the judge and the execution evaluator enabled. *)
Definition checked_benchmark : SpiderBenchmark := {|
  db_schemas := ∅;
  _use_llm_judge := true;
  _use_execution := true;
  _databases_dir := Some (py "spider/database")
|}.

(** A world in which the pipeline answers every question with the same
    statement, the judge rejects whatever it is shown, and the file
    system takes names of at most 255 characters and holds the directory
    of the databases but no database file. *)
Definition short_names_pipeline_world : Collaborators unit := {|
  path_exists := fun _ p =>
    if existsb (fun name => (255 <? length name)%nat) p
    then Raised Execution.name_too_long else Returned false;
  sqlite3_connect := fun w _ _ => (None, w);
  cursor_execute := fun w _ _ => (None, w);
  cursor_fetchall := fun w _ => (Returned [], w);
  connection_close := fun w _ => w;
  pipeline_func := fun w _ _ => (Returned (py "select COUNT(*)  from singer;"), w);
  sqlparse_types := fun _ => Returned [py "SELECT"];
  judge_sql_equivalence := fun w _ _ _ =>
    (Returned {| is_equivalent := false; score := 1; reasoning := [] |}, w);
  time_time := fun w => (0%Q, w)
|}.

(** The sample of a database whose name has 300 characters. *)
Definition long_name_sample : Sample := {|
  sample_question := py "How many singers are there?";
  sample_db_id := repeat "a"%char 300;
  sample_query := py "SELECT count(*) FROM singer"
|}.

(** C5 fails for [llm_judge_match_count].  With the judge and the
    execution evaluator enabled, [_evaluate_llm_judge] adds to the judge
    counters of the report (lines 181-182) before [_evaluate_execution]
    runs; when that raises (here [Path.exists()] on a name of 300
    characters), the handler of lines 158-170 builds a new result without
    the verdict of the judge and takes nothing back.  After this one
    iteration [llm_judge_match_count] is 1 and no result has
    [llm_judge_match] set; after one more sample, an exact match in a
    database whose file is just missing, the counter is 2 for one result
    the judge matched, and [llm_judge_accuracy] is 2. *)
Theorem judge_count_outlives_discarded_result :
  (let '(out, st) :=
     run_loop (H := short_names_pipeline_world) checked_benchmark
       [long_name_sample] (initial_state tt) in
   out = Returned tt /\
   map llm_judge_match (results (report st)) = [None] /\
   map error (results (report st)) = [Some (exn_text Execution.name_too_long)] /\
   total_samples (report st) = 1%Z /\
   error_count (report st) = 1%Z /\
   llm_judge_match_count (report st) = 1%Z /\
   count (fun r => is_true (llm_judge_match r)) (results (report st)) = 0%Z /\
   ~ consistent (report st)) /\
  (let '(out, st) :=
     run_loop (H := short_names_pipeline_world) checked_benchmark
       [long_name_sample; singer_count] (initial_state tt) in
   out = Returned tt /\
   map llm_judge_match (results (report st)) = [None; Some true] /\
   llm_judge_match_count (report st) = 2%Z /\
   (llm_judge_accuracy (report st) == 2)%Q).
Proof.
  split.
  - vm_compute. repeat split.
    intros C. apply llm_judge_match_count_ok in C. vm_compute in C. discriminate C.
  - vm_compute. repeat split.
Qed.

(** Scenario A of the specification: the pipeline returns the gold query
    in another casing and spacing; the result is an exact match, the judge
    is not called, and the report counts it. *)
Example exact_match_scenario :
  let '(out, st) :=
    run_loop (H := constant_pipeline_world) judged_benchmark [singer_count]
      (initial_state tt) in
  out = Returned tt /\
  map exact_match (results (report st)) = [true] /\
  map llm_judge_match (results (report st)) = [Some true] /\
  judge_calls st = [] /\
  exact_match_count (report st) = 1%Z /\
  total_samples (report st) = 1%Z.
Proof. vm_compute. repeat split. Qed.

(** The judge is called for a valid statement that is not an exact
    match. *)
Example judge_called_scenario :
  let '(out, st) :=
    run_loop (H := constant_pipeline_world) judged_benchmark [singer_names]
      (initial_state tt) in
  out = Returned tt /\
  map exact_match (results (report st)) = [false] /\
  map llm_judge_match (results (report st)) = [Some false] /\
  judge_calls st
  = [(sample_question singer_names, sample_query singer_names,
      py "select COUNT(*)  from singer;")].
Proof. vm_compute. repeat split. Qed.

End Orchestrator.

(** ** The normal form of a statement *)
Module NormalForm.
Import PyStr Regex Normalizer.

(** [c in s] *)
Definition has_char (c : ascii) (s : pystr) : bool := existsb (ch_eqb c) s.

Lemma join_split_render l : solid l -> join [space] (split (render l)) = render l.
Proof.
  intros Hl. rewrite join_split, gaps_render by exact Hl.
  destruct l as [|[b c] l]; reflexivity.
Qed.

Lemma has_char_false c s :
  Forall (fun x => ch_eqb x c = false) s -> has_char c s = false.
Proof.
  induction 1 as [|x s Hx Hs IH]; [reflexivity|].
  simpl. unfold ch_eqb in *. rewrite Ascii.eqb_sym, Hx. exact IH.
Qed.

(** What [normalize] returns is in lower case, holds no double quote, has
    no whitespace at its ends, has single spaces as its only whitespace,
    and is left unchanged by the spacing passes of lines 35-42. *)
Theorem normalize_normal_form (s : pystr) :
  let t := normalize s in
  lower t = t /\
  has_char dquote t = false /\
  strip t = t /\
  join [space] (split t) = t /\
  re_sub ws_run t = t /\
  respace t = t.
Proof.
  intros t. unfold t.
  destruct (normalize_respaced s) as [x Hx].
  destruct (respace_render x) as [l [Hl Hr]].
  assert (Ht : normalize s = render l) by congruence.
  split; [apply lower_fixed, normalize_lowercase|].
  split; [apply has_char_false, normalize_no_dquote|].
  rewrite Ht.
  split; [apply strip_render, Hl|].
  split; [apply join_split_render, Hl|].
  split; [apply ws_run_render, Hl|].
  rewrite <- Ht, Hx. apply respace_idempotent.
Qed.

End NormalForm.

(** ** The ratios of a report *)
Module Ratios.
Import PyStr Runtime Results Orchestrator.

(** A ratio between 0 and 1. *)
Definition unit_interval (q : Q) : Prop := (0 <= q)%Q /\ (q <= 1)%Q.

Lemma true_div_unit (a b : Z) :
  (0 <= a <= b)%Z -> (0 < b)%Z -> unit_interval (true_div a b).
Proof.
  intros Ha Hb. unfold unit_interval, true_div, Qdiv, Qle, Qmult, Qinv, inject_Z.
  destruct b as [|b|b]; try lia. simpl. split; nia.
Qed.

Lemma zero_unit : unit_interval 0%Q.
Proof. split; discriminate. Qed.

Lemma count_bounds p l : (0 <= count p l <= Z.of_nat (length l))%Z.
Proof.
  unfold count. pose proof (List.filter_length_le p l). lia.
Qed.

Lemma count_le_count p q l :
  (forall r, p r = true -> q r = true) -> (count p l <= count q l)%Z.
Proof.
  intros Hpq. unfold count. apply inj_le.
  induction l as [|r l IH]; simpl; [lia|].
  destruct (p r) eqn:Ep.
  - rewrite (Hpq r Ep). simpl. lia.
  - destruct (q r); simpl; lia.
Qed.

(** In a report that keeps the invariant of the loop, the accuracies
    whose counters are exact are numbers between 0 and 1. *)
Lemma accounted_ratios rep :
  accounted rep ->
  unit_interval (exact_match_accuracy rep) /\
  unit_interval (valid_sql_rate rep) /\
  unit_interval (execution_accuracy rep).
Proof.
  intros [H1 H2 H3 H4 H5 H6].
  unfold exact_match_accuracy, valid_sql_rate, execution_accuracy.
  rewrite !py_sum_ones.
  fold (count (fun r => is_set (execution_match r)) (results rep)).
  split; [|split].
  - destruct (Z.gtb_spec (total_samples rep) 0); [|apply zero_unit].
    apply true_div_unit; [|lia]. rewrite H2, H1. apply count_bounds.
  - destruct (Z.gtb_spec (total_samples rep) 0); [|apply zero_unit].
    apply true_div_unit; [|lia]. rewrite H5, H1. apply count_bounds.
  - destruct (Z.eqb_spec (count (fun r => is_set (execution_match r)) (results rep)) 0);
      [apply zero_unit|].
    pose proof (count_bounds (fun r => is_set (execution_match r)) (results rep)).
    apply true_div_unit; [|lia]. rewrite H3. split; [apply count_bounds|].
    apply count_le_count. intros r. destruct (execution_match r) as [[]|]; auto.
Qed.

Lemma consistent_judge_ratio rep :
  consistent rep -> unit_interval (llm_judge_accuracy rep).
Proof.
  intros [H1 H2 H3 H4 H5 H6]. unfold llm_judge_accuracy. rewrite !py_sum_ones.
  fold (count (fun r => is_set (llm_judge_match r)) (results rep)).
  destruct (Z.eqb_spec (count (fun r => is_set (llm_judge_match r)) (results rep)) 0);
    [apply zero_unit|].
  pose proof (count_bounds (fun r => is_set (llm_judge_match r)) (results rep)).
  apply true_div_unit; [|lia]. rewrite H4. split; [apply count_bounds|].
  apply count_le_count. intros r. destruct (llm_judge_match r) as [[]|]; auto.
Qed.

(** After the loop has run over any list of samples, from a fresh report
    and in any world, [exact_match_accuracy], [valid_sql_rate] and
    [execution_accuracy] lie between 0 and 1; so does
    [llm_judge_accuracy] on a benchmark on which no sample can fail after
    the judge was counted (the judge or the execution evaluator is off,
    or [Path.exists()] never raises). *)
Theorem accuracies_between_zero_and_one {W : Type} `{Collaborators W}
    (self : SpiderBenchmark) (w : W) (samples : list Sample) :
  exists st,
    run_loop self samples (initial_state w) = (Returned tt, st) /\
    unit_interval (exact_match_accuracy (report st)) /\
    unit_interval (valid_sql_rate (report st)) /\
    unit_interval (execution_accuracy (report st)) /\
    (no_late_failure self -> unit_interval (llm_judge_accuracy (report st))).
Proof.
  destruct (run_loop_accounted self samples (initial_state w)
              (consistent_accounted _ new_report_consistent))
    as (st & E & C & _).
  exists st. split; [exact E|].
  destruct (accounted_ratios _ C) as (A1 & A2 & A3).
  do 3 (split; [assumption|]). intros Hq.
  destruct (run_loop_consistent self samples Hq (initial_state w) new_report_consistent)
    as (st' & E' & C' & _).
  rewrite E in E'. injection E' as <-. apply consistent_judge_ratio, C'.
Qed.

End Ratios.

(** ** What [results_match] compares *)
Module ResultSets.
Import PyStr PyRepr Runtime Execution.

(** *** Reading [repr] back

    [repr] of a string can be read back character by character, and the
    closing quote tells where it ends.  [read_char] reads one character
    of the body of [repr(s)], [q] being the enclosing quote; it is used
    only to show that [repr] loses nothing. *)

Definition unhex (c : ascii) : N :=
  let n := code c in if (n <? 58)%N then (n - 48)%N else (n - 87)%N.

Definition read_char (q : ascii) (s : pystr) : option (ascii * pystr) :=
  match s with
  | [] => None
  | c :: s' =>
      if ch_eqb c q then None
      else if ch_eqb c backslash then
        match s' with
        | [] => None
        | d :: s'' =>
            if ch_eqb d "t"%char then Some (ascii_of_N 9, s'')
            else if ch_eqb d "n"%char then Some (ascii_of_N 10, s'')
            else if ch_eqb d "r"%char then Some (ascii_of_N 13, s'')
            else if ch_eqb d "x"%char then
              match s'' with
              | h :: l :: rest => Some (ascii_of_N (16 * unhex h + unhex l), rest)
              | _ => None
              end
            else Some (d, s'')
        end
      else Some (c, s')
  end.

(** The rest of [", ".join(words)] after its first word. *)
Definition join_tail (words : list pystr) : pystr :=
  match words with
  | [] => []
  | _ => py ", " ++ join (py ", ") words
  end.

(** [a <= b] on tuples of strings *)
Definition tuple_leb (a b : list pystr) : bool := negb (tuple_ltb b a).

(** A list of rows in ascending order. *)
Fixpoint ascending (l : list (list pystr)) : bool :=
  match l with
  | [] => true
  | x :: l' => forallb (tuple_leb x) l' && ascending l'
  end.

Lemma read_repr_char q c rest :
  q = squote \/ q = dquote ->
  read_char q (repr_char q c ++ rest) = Some (c, rest).
Proof.
  intros [-> | ->]; destruct c as [[] [] [] [] [] [] [] []]; reflexivity.
Qed.

Lemma read_quote q rest : read_char q (q :: rest) = None.
Proof. unfold read_char, ch_eqb. rewrite Ascii.eqb_refl. reflexivity. Qed.

Lemma repr_quote_cases s : repr_quote s = squote \/ repr_quote s = dquote.
Proof. unfold repr_quote. destruct (_ && _); auto. Qed.

Lemma repr_body_inj q : q = squote \/ q = dquote ->
  forall s s' r r',
    flat_map (repr_char q) s ++ q :: r = flat_map (repr_char q) s' ++ q :: r' ->
    s = s' /\ r = r'.
Proof.
  intros Hq. induction s as [|c s IH]; intros [|c' s'] r r' E; simpl in E.
  - injection E as <-. auto.
  - apply (f_equal (read_char q)) in E.
    rewrite <- app_assoc, read_quote, read_repr_char in E by exact Hq. discriminate.
  - apply (f_equal (read_char q)) in E.
    rewrite <- app_assoc, read_quote, read_repr_char in E by exact Hq. discriminate.
  - apply (f_equal (read_char q)) in E.
    rewrite <- !app_assoc, !read_repr_char in E by exact Hq.
    injection E as -> E. destruct (IH _ _ _ E) as [-> ->]. auto.
Qed.

(** [repr] of a string is injective, and tells where it ends. *)
Lemma repr_str_inj s s' r r' :
  repr_str s ++ r = repr_str s' ++ r' -> s = s' /\ r = r'.
Proof.
  unfold repr_str. simpl. rewrite <- !app_assoc. simpl. intros E.
  injection E as Eq E. rewrite <- Eq in E.
  apply (repr_body_inj _ (repr_quote_cases s)) in E. exact E.
Qed.

Lemma repr_str_head s r c r' :
  repr_str s ++ r = c :: r' -> c = squote \/ c = dquote.
Proof.
  unfold repr_str. simpl. intros [= <- _]. apply repr_quote_cases.
Qed.

Lemma join_cons sep w ws :
  join sep (w :: ws) = w ++ match ws with [] => [] | _ => sep ++ join sep ws end.
Proof. destruct ws; simpl; [rewrite app_nil_r|]; reflexivity. Qed.

Section Sequences.
Context {A : Type} (enc : A -> pystr) (close : ascii).
Hypothesis enc_inj : forall x y r r', enc x ++ r = enc y ++ r' -> x = y /\ r = r'.
Hypothesis enc_head : forall x r r', enc x ++ r <> close :: r'.
Hypothesis close_not_comma : close <> ","%char.

(** A comma-separated sequence of self-delimiting items, closed by a
    bracket, determines its items. *)
Lemma join_inj : forall l l' r r',
  join (py ", ") (map enc l) ++ close :: r
  = join (py ", ") (map enc l') ++ close :: r' ->
  l = l' /\ r = r'.
Proof.
  induction l as [|x l IH]; intros [|y l'] r r' E.
  - injection E as <-. auto.
  - simpl map in E. rewrite join_cons, <- app_assoc in E. simpl app at 1 in E.
    symmetry in E. apply enc_head in E. contradiction.
  - simpl map in E. rewrite join_cons, <- app_assoc in E. simpl app at 3 in E.
    apply enc_head in E. contradiction.
  - simpl map in E. rewrite !join_cons, <- !app_assoc in E.
    apply enc_inj in E. destruct E as [-> E].
    destruct l as [|x' l], l' as [|y' l'].
    + injection E as <-. auto.
    + simpl in E. injection E as E _. contradiction.
    + simpl in E. injection E as E _. symmetry in E. contradiction.
    + change (map enc (x' :: l)) with (enc x' :: map enc l) in E.
      change (map enc (y' :: l')) with (enc y' :: map enc l') in E.
      cbv iota in E. rewrite <- !app_assoc in E. simpl app at 1 3 in E.
      injection E as E.
      destruct (IH (y' :: l') r r' E) as [-> ->]. auto.
Qed.

End Sequences.

Lemma repr_tuple_app t r :
  repr_tuple t ++ r
  = "("%char ::
    match t with
    | [] => ")"%char :: r
    | [x] => repr_str x ++ ","%char :: ")"%char :: r
    | x :: t' =>
        repr_str x ++ ","%char :: " "%char
        :: join (py ", ") (map repr_str t') ++ ")"%char :: r
    end.
Proof.
  destruct t as [|x [|y t]]; unfold repr_tuple; simpl map.
  - reflexivity.
  - generalize (repr_str x) as a. intros a. simpl. rewrite <- !app_assoc. reflexivity.
  - rewrite join_cons.
    generalize (repr_str x) as a, (join (py ", ") (repr_str y :: map repr_str t)) as b.
    intros a b. simpl. rewrite <- !app_assoc. reflexivity.
Qed.

(** [repr] of a tuple of strings is injective, and tells where it ends. *)
Lemma repr_tuple_inj t t' r r' :
  repr_tuple t ++ r = repr_tuple t' ++ r' -> t = t' /\ r = r'.
Proof.
  assert (Hhead : forall x r r', repr_str x ++ r <> ")"%char :: r').
  { intros x r0 r0' E. apply repr_str_head in E. destruct E; discriminate. }
  assert (Hj := join_inj repr_str ")"%char repr_str_inj Hhead ltac:(discriminate)).
  rewrite !repr_tuple_app. intros E. injection E as E.
  destruct t as [|x [|y t]], t' as [|x' [|y' t']].
  - injection E as <-. auto.
  - symmetry in E. apply Hhead in E. contradiction.
  - symmetry in E. apply Hhead in E. contradiction.
  - apply Hhead in E. contradiction.
  - apply repr_str_inj in E. destruct E as [-> [= ->]]. auto.
  - apply repr_str_inj in E. destruct E as [_ E]. discriminate E.
  - apply Hhead in E. contradiction.
  - apply repr_str_inj in E. destruct E as [_ E]. discriminate E.
  - apply repr_str_inj in E. destruct E as [-> E]. injection E as E.
    apply (Hj (y :: t) (y' :: t')) in E. destruct E as [[= -> ->] ->]. auto.
Qed.

(** [str] of a list of tuples of strings is injective. *)
Lemma str_of_rows_inj l l' : str_of_rows l = str_of_rows l' -> l = l'.
Proof.
  unfold str_of_rows. intros E. injection E as E.
  assert (Hhead : forall x r r', repr_tuple x ++ r <> "]"%char :: r').
  { intros [|x [|y t]] r r'; discriminate. }
  apply (join_inj repr_tuple "]"%char repr_tuple_inj Hhead ltac:(discriminate)
           l l' [] []) in E.
  apply E.
Qed.

(** *** Sorting *)

Lemma insert_sorted_perm x l : Permutation (insert_sorted x l) (x :: l).
Proof.
  induction l as [|y l IH]; simpl; [reflexivity|].
  destruct (tuple_ltb y x); [|reflexivity].
  rewrite IH. apply perm_swap.
Qed.

Lemma sort_rows_perm l : Permutation (sort_rows l) l.
Proof.
  induction l as [|x l IH]; simpl; [reflexivity|].
  rewrite insert_sorted_perm, IH. reflexivity.
Qed.

Lemma tuple_leb_trans x y z :
  tuple_leb x y = true -> tuple_leb y z = true -> tuple_leb x z = true.
Proof.
  unfold tuple_leb. rewrite !negb_true_iff. intros Hyx Hzy.
  destruct (tuple_ltb z x) eqn:Hzx; [|reflexivity].
  pose proof (tuple_ltb_between _ _ _ Hzy Hzx). congruence.
Qed.

Lemma insert_sorted_ascending x l :
  ascending l = true -> ascending (insert_sorted x l) = true.
Proof.
  induction l as [|y l IH]; simpl; [reflexivity|].
  rewrite andb_true_iff. intros [Hy Hl].
  destruct (tuple_ltb y x) eqn:Hyx; simpl.
  - rewrite (IH Hl), andb_true_r.
    apply forallb_forall. intros z Hz.
    apply (Permutation_in _ (insert_sorted_perm x l)) in Hz.
    destruct Hz as [<-|Hz].
    + unfold tuple_leb. rewrite (tuple_ltb_asym _ _ Hyx). reflexivity.
    + rewrite forallb_forall in Hy. apply Hy, Hz.
  - rewrite Hy, Hl, !andb_true_r.
    assert (Hxy : tuple_leb x y = true) by (unfold tuple_leb; rewrite Hyx; reflexivity).
    rewrite Hxy. simpl.
    apply forallb_forall. intros z Hz. rewrite forallb_forall in Hy.
    apply (tuple_leb_trans _ _ _ Hxy), Hy, Hz.
Qed.

Lemma sort_rows_ascending l : ascending (sort_rows l) = true.
Proof.
  induction l as [|x l IH]; simpl; [reflexivity|].
  apply insert_sorted_ascending, IH.
Qed.

(** Two ascending lists with the same rows are the same list. *)
Lemma ascending_unique l : forall l',
  ascending l = true -> ascending l' = true -> Permutation l l' -> l = l'.
Proof.
  induction l as [|x l IH]; intros [|y l'] Hl Hl' Hp.
  - reflexivity.
  - apply Permutation_nil in Hp. discriminate.
  - symmetry in Hp. apply Permutation_nil in Hp. discriminate.
  - simpl in Hl, Hl'. rewrite andb_true_iff, forallb_forall in Hl, Hl'.
    destruct Hl as [Hx Hl], Hl' as [Hy Hl'].
    assert (Exy : x = y).
    { assert (Hyl : In y (x :: l)).
      { apply (Permutation_in _ (Permutation_sym Hp)). left. reflexivity. }
      assert (Hxl : In x (y :: l')).
      { apply (Permutation_in _ Hp). left. reflexivity. }
      destruct Hyl as [E|Hyl]; [exact E|].
      destruct Hxl as [E|Hxl]; [symmetry; exact E|].
      pose proof (Hx _ Hyl) as H1. pose proof (Hy _ Hxl) as H2.
      unfold tuple_leb in H1, H2. rewrite negb_true_iff in H1, H2.
      apply tuple_ltb_total; assumption. }
    subst y. f_equal. apply IH; try assumption.
    apply Permutation_cons_inv in Hp. exact Hp.
Qed.

(** *** Cells *)

Lemma is_space_lower_char c : is_space (lower_char c) = is_space c.
Proof. destruct c as [[] [] [] [] [] [] [] []]; reflexivity. Qed.

Lemma lower_drop_while s :
  lower (drop_while is_space s) = drop_while is_space (lower s).
Proof.
  induction s as [|c s IH]; [reflexivity|].
  unfold lower in *. simpl. rewrite is_space_lower_char.
  destruct (is_space c); [exact IH|reflexivity].
Qed.

Lemma lower_rev s : lower (rev s) = rev (lower s).
Proof. unfold lower. apply map_rev. Qed.

Lemma lower_strip s : lower (strip s) = strip (lower s).
Proof.
  unfold strip, rstrip, rstrip_by, lstrip.
  rewrite lower_rev, lower_drop_while, lower_rev, lower_drop_while. reflexivity.
Qed.

Lemma lower_lower s : lower (lower s) = lower s.
Proof.
  unfold lower. rewrite map_map. apply map_ext. apply lower_char_idempotent.
Qed.

Lemma head_drop_while p s : head_is p (drop_while p s) = false.
Proof.
  destruct (drop_while p s) as [|c r] eqn:E; [reflexivity|].
  simpl. apply (drop_while_head _ _ _ _ E).
Qed.

Lemma drop_while_snoc p l c :
  p c = false -> drop_while p (l ++ [c]) = drop_while p l ++ [c].
Proof.
  intros Hc. induction l as [|d l IH]; simpl; [rewrite Hc; reflexivity|].
  destruct (p d); [exact IH|reflexivity].
Qed.

Lemma head_rstrip_by p s : head_is p s = false -> head_is p (rstrip_by p s) = false.
Proof.
  destruct s as [|c s]; [reflexivity|]. simpl. intros Hc.
  unfold rstrip_by. simpl rev. rewrite drop_while_snoc by exact Hc.
  rewrite rev_app_distr. simpl. exact Hc.
Qed.

Lemma strip_strip s : strip (strip s) = strip s.
Proof.
  unfold strip at 1. unfold lstrip, rstrip.
  rewrite drop_while_id, rstrip_by_id; [reflexivity| |].
  - unfold strip, rstrip, rstrip_by, ends_with. rewrite rev_involutive.
    apply head_drop_while.
  - unfold strip, rstrip, lstrip. apply head_rstrip_by, head_drop_while.
Qed.

Lemma normalize_cell_again v :
  normalize_cell (SqlText (normalize_cell v)) = normalize_cell v.
Proof.
  destruct v; try reflexivity; unfold normalize_cell;
    cbn [str_of_value]; rewrite lower_strip, lower_lower, strip_strip; reflexivity.
Qed.

(** *** The comparison *)

(** [results_match] on two lists of rows is true exactly when the
    normalised rows of one are a rearrangement of the normalised rows of
    the other: the order of the rows is all that the comparison forgets
    once the cells are normalised. *)
Theorem results_match_iff_same_rows (rows1 rows2 : list row) :
  results_match (Some rows1) (Some rows2) = true <->
  Permutation (map normalize_row rows1) (map normalize_row rows2).
Proof.
  unfold results_match. rewrite str_eqb_eq. unfold normalize_results. split.
  - intros E. apply str_of_rows_inj in E.
    rewrite <- (sort_rows_perm (map normalize_row rows1)), E.
    apply sort_rows_perm.
  - intros Hp. f_equal. apply sort_rows_permutation, Hp.
Qed.

(** The list that [normalized.sort()] leaves is the ascending arrangement
    of the rows, and there is only one: whatever the order of the rows
    fetched, [normalize_results] prints the same ascending list. *)
Theorem sort_rows_is_the_ascending_arrangement (l : list (list pystr)) :
  Permutation (sort_rows l) l /\
  ascending (sort_rows l) = true /\
  forall l', Permutation l' l -> ascending l' = true -> l' = sort_rows l.
Proof.
  split; [apply sort_rows_perm|]. split; [apply sort_rows_ascending|].
  intros l' Hp Ha. apply ascending_unique; [exact Ha|apply sort_rows_ascending|].
  rewrite Hp. symmetry. apply sort_rows_perm.
Qed.

(** The comparison sees a cell only through its normalised text: a cell
    and the text cell that holds its normalised text are normalised
    alike, so a list of rows matches the list of its normalised texts.
    [None] and the text [null], the integer 7 and the text [7], a text
    and the same text in capitals or padded with blanks are not told
    apart. *)
Theorem cells_are_compared_as_text :
  (forall v : sql_value,
     normalize_cell (SqlText (normalize_cell v)) = normalize_cell v) /\
  (forall rows : list row,
     results_match (Some rows)
       (Some (map (map (fun v => SqlText (normalize_cell v))) rows)) = true).
Proof.
  split; [exact normalize_cell_again|].
  intros rows. unfold results_match. apply str_eqb_eq.
  unfold normalize_results. do 2 f_equal.
  rewrite map_map. apply map_ext. intros r. unfold normalize_row.
  rewrite map_map. apply map_ext. intros v. symmetry. apply normalize_cell_again.
Qed.

End ResultSets.

(** ** The paths through the execution evaluator *)
Module EvaluatorPaths.
Import PyStr PyRepr Runtime Execution.
Local Open Scope py_scope.

(** The two places where [get_database_path] looks for the file of a
    database. *)
Definition candidate_paths (self : ExecutionEvaluator) (db_id : pystr) : list path :=
  [databases_dir self ++ [db_id; db_id ++ py ".sqlite"];
   databases_dir self ++ [db_id; py "database.sqlite"]].

(** A world without any database file. *)
Definition no_database_world : Collaborators unit := {|
  path_exists := fun _ _ => Returned false;
  sqlite3_connect := fun w _ _ => (None, w);
  cursor_execute := fun w _ _ => (None, w);
  cursor_fetchall := fun w _ => (Returned [], w);
  connection_close := fun w _ => w;
  pipeline_func := fun w _ _ => (Returned [], w);
  sqlparse_types := fun _ => Returned [];
  judge_sql_equivalence := fun w _ _ _ =>
    (Returned {| is_equivalent := false; score := 0; reasoning := [] |}, w);
  time_time := fun w => (0%Q, w)
|}.

Section Paths.
Context {W : Type} `{Collaborators W}.

Lemma get_database_path_missing self db_id (st : state W) :
  Forall (fun p => path_exists (world st) p = Returned false)
    (candidate_paths self db_id) ->
  get_database_path self db_id st = (Returned None, st).
Proof.
  intros Hp. unfold candidate_paths in Hp.
  pose proof (List.Forall_inv Hp) as H1.
  pose proof (List.Forall_inv (List.Forall_inv_tail Hp)) as H2.
  cbv beta in H1, H2.
  unfold get_database_path, bind, exists_, call_raising, ret.
  rewrite H1, set_world_world. cbv beta iota.
  rewrite H2, set_world_world. reflexivity.
Qed.

Lemma execute_sql_missing self sql db_id timeout (st : state W) :
  Forall (fun p => path_exists (world st) p = Returned false) (candidate_paths self db_id) ->
  execute_sql self sql db_id timeout st
  = (Returned (false, None, Some (py "Database not found: " ++ db_id)), st).
Proof.
  intros Hp. unfold execute_sql, bind.
  rewrite (get_database_path_missing _ _ _ Hp). reflexivity.
Qed.

(** When the file of the database is at neither of the two places,
    [execute_sql] reports [Database not found] for every statement,
    [evaluate] gives [(False, None, "Gold query failed: Database not
    found: <db_id>")], and neither touches the world: no connection is
    opened. *)
Theorem missing_database_is_reported self gold_sql predicted_sql db_id (st : state W) :
  Forall (fun p => path_exists (world st) p = Returned false)
    (candidate_paths self db_id) ->
  (forall sql timeout,
     execute_sql self sql db_id timeout st
     = (Returned (false, None, Some (py "Database not found: " ++ db_id)), st)) /\
  evaluate self gold_sql predicted_sql db_id st
  = (Returned (false, None,
               py "Gold query failed: Database not found: " ++ db_id), st).
Proof.
  intros Hp. split; [intros sql timeout; apply execute_sql_missing, Hp|].
  unfold evaluate, bind. rewrite (execute_sql_missing _ _ _ _ _ Hp). reflexivity.
Qed.

(** Whatever the outcome of [evaluate], the connections open afterwards
    are those open before and at most one more, which [evaluate] left
    open because its statement failed: none when the results match, and
    none when [evaluate] raises, which only [Path.exists()] makes it do,
    before a connection is opened. *)
Theorem evaluate_leaves_failed_connections_open
    self gold_sql predicted_sql db_id (st : state W) :
  exists r st' leaked,
    evaluate self gold_sql predicted_sql db_id st = (r, st') /\
    open_connections st' = leaked ++ open_connections st /\
    length leaked <= 1 /\
    match r with
    | Returned (could_execute, m, _) =>
        (could_execute = false -> m = None) /\ (m = Some true -> leaked = [])
    | Raised e => leaked = [] /\ exists w p, path_exists w p = Raised e
    end.
Proof.
  destruct (execute_sql_outcome self gold_sql db_id default_timeout st)
    as (r1 & st1 & E1 & _ & _ & H1).
  pose proof (execute_sql_connections self gold_sql db_id default_timeout st) as C1.
  rewrite E1 in C1.
  destruct (execute_sql_outcome self predicted_sql db_id default_timeout st1)
    as (r2 & st2 & E2 & _ & _ & H2).
  pose proof (execute_sql_connections self predicted_sql db_id default_timeout st1) as C2.
  rewrite E2 in C2.
  unfold evaluate, bind. rewrite E1.
  destruct r1 as [[[ok1 rows1] err1]|e1].
  2:{ do 2 eexists. exists []. split; [reflexivity|]. split; [exact C1|].
      split; [simpl; lia|]. split; [reflexivity|].
      destruct H1 as [_ [p Hp]]. eauto. }
  destruct ok1; cbn [negb].
  - rewrite E2. destruct r2 as [[[ok2 rows2] err2]|e2].
    2:{ do 2 eexists. exists []. split; [reflexivity|].
        split; [simpl; congruence|]. split; [simpl; lia|]. split; [reflexivity|].
        destruct H2 as [_ [p Hp]]. eauto. }
    destruct ok2; cbn [negb].
    + destruct (results_match rows1 rows2);
        do 2 eexists; exists []; (split; [reflexivity|]);
        (split; [simpl; congruence|]); simpl;
        repeat split; try discriminate; auto.
    + destruct C2 as [C2|C2];
        do 2 eexists; [exists []|exists [next_handle st1]];
        (split; [reflexivity|]); (split; [simpl; congruence|]); simpl;
        repeat split; try discriminate; auto.
  - destruct C1 as [C1|C1];
      do 2 eexists; [exists []|exists [next_handle st]];
      (split; [reflexivity|]); (split; [simpl; congruence|]); simpl;
      repeat split; try discriminate; auto.
Qed.

End Paths.

Lemma missing_database_is_reported_witness :
  (forall sql timeout,
     execute_sql (H := no_database_world) {| databases_dir := [py "spider/database"] |}
       sql (py "concert_singer") timeout (initial_state tt)
     = (Returned (false, None, Some (py "Database not found: concert_singer")),
        initial_state tt)) /\
  evaluate (H := no_database_world) {| databases_dir := [py "spider/database"] |}
    (py "SELECT count(*) FROM singer") (py "SELECT 1") (py "concert_singer")
    (initial_state tt)
  = (Returned (false, None,
               py "Gold query failed: Database not found: concert_singer"),
     initial_state tt).
Proof.
  apply (missing_database_is_reported (H := no_database_world)
           {| databases_dir := [py "spider/database"] |}
           (py "SELECT count(*) FROM singer") (py "SELECT 1") (py "concert_singer")
           (initial_state tt)).
  repeat constructor.
Defined.

End EvaluatorPaths.

(** ** The results of a run *)
Module RunFacts.
Import PyStr Runtime Results Orchestrator.
Local Open Scope py_scope.

(** [self._use_execution and self._databases_dir] (line 149) *)
Definition execution_enabled (self : SpiderBenchmark) : bool :=
  _use_execution self && truthy (_databases_dir self).

(** What every result that [_evaluate_sample] returns looks like. *)
Record well_formed (self : SpiderBenchmark) (r : BenchmarkResult) : Prop := {
  error_shape :
    is_set (error r) = true ->
    predicted_sql r = [] /\ exact_match r = false /\ is_valid_sql r = false /\
    llm_judge_match r = None /\ execution_match r = None;
  judge_off : _use_llm_judge self = false -> llm_judge_match r = None;
  execution_off : execution_enabled self = false -> execution_match r = None;
  judge_on :
    _use_llm_judge self = true -> error r = None ->
    is_set (llm_judge_match r) = exact_match r || is_valid_sql r;
  judge_exact :
    _use_llm_judge self = true -> exact_match r = true ->
    llm_judge_match r = Some true /\ llm_judge_score r = 5%Z;
  unjudged_score : llm_judge_match r = None -> llm_judge_score r = 0%Z
}.

(** What a call leaves alone in the state when an evaluator is off. *)
Definition framed {W} (self : SpiderBenchmark) (st st' : state W) : Prop :=
  (_use_llm_judge self = false -> judge_calls st' = judge_calls st) /\
  (execution_enabled self = false ->
   open_connections st' = open_connections st /\ next_handle st' = next_handle st).

Definition judge_timeout : exn := {|
  is_sqlite_error := false;
  exn_text := py "judge timed out"
|}.

(** A world in which the pipeline answers with a valid statement that is
    not the gold query, and the judge raises. *)
Definition failing_judge_world : Collaborators unit := {|
  path_exists := fun _ _ => Returned false;
  sqlite3_connect := fun w _ _ => (None, w);
  cursor_execute := fun w _ _ => (None, w);
  cursor_fetchall := fun w _ => (Returned [], w);
  connection_close := fun w _ => w;
  pipeline_func := fun w _ _ => (Returned (py "SELECT name FROM singer"), w);
  sqlparse_types := fun _ => Returned [py "SELECT"];
  judge_sql_equivalence := fun w _ _ _ => (Raised judge_timeout, w);
  time_time := fun w => (0%Q, w)
|}.

Lemma py_sum_cons x l : py_sum (x :: l) = (x + py_sum l)%Z.
Proof.
  unfold py_sum. simpl.
  assert (G : forall l a b, fold_left Z.add l (a + b)%Z = (a + fold_left Z.add l b)%Z).
  { clear. induction l as [|y l IH]; intros a b; simpl; [reflexivity|].
    rewrite <- Z.add_assoc. apply IH. }
  rewrite <- G. f_equal. lia.
Qed.

Lemma count_unset {A} (field : BenchmarkResult -> option A) (f : option A -> bool) l :
  Forall (fun r => field r = None) l -> f None = false ->
  count (fun r => f (field r)) l = 0%Z.
Proof.
  intros Hn Hf0. unfold count. induction Hn as [|r l Hr Hl IH]; [reflexivity|].
  simpl. rewrite Hr, Hf0. exact IH.
Qed.

Lemma py_sum_zeros {A} (f : A -> Z) l :
  Forall (fun r => f r = 0%Z) l -> py_sum (map f l) = 0%Z.
Proof.
  induction 1 as [|r l Hr Hl IH]; [reflexivity|].
  simpl map. rewrite py_sum_cons, Hr, IH. reflexivity.
Qed.

Lemma count_disjoint p q (l : list BenchmarkResult) :
  Forall (fun r => p r = true -> q r = false) l ->
  (count p l + count q l <= Z.of_nat (length l))%Z.
Proof.
  unfold count. induction 1 as [|r l Hr Hl IH]; simpl; [lia|].
  destruct (p r); [rewrite Hr by reflexivity|destruct (q r)]; simpl; lia.
Qed.

Lemma count_le_Forall p q (l : list BenchmarkResult) :
  Forall (fun r => p r = true -> q r = true) l -> (count p l <= count q l)%Z.
Proof.
  unfold count. induction 1 as [|r l Hr Hl IH]; simpl; [lia|].
  destruct (p r); [rewrite Hr by reflexivity|destruct (q r)]; simpl; lia.
Qed.

Lemma true_div_le (a b c d : Z) :
  (0 <= a <= c)%Z -> (0 < d <= b)%Z -> (true_div a b <= true_div c d)%Q.
Proof.
  intros Ha Hd. unfold true_div, Qdiv, Qle, Qmult, Qinv, inject_Z.
  destruct b as [|b|b], d as [|d|d]; try lia. simpl. nia.
Qed.

Section Samples.
Context {W : Type} `{Collaborators W}.

Lemma evaluate_sample_shape self sample (st : state W) :
  exists r st',
    _evaluate_sample self sample st = (Returned r, st') /\
    well_formed self r /\ framed self st st'.
Proof.
  unfold _evaluate_sample. unfold bind at 1. unfold now at 1, call.
  destruct (time_time (world st)) as [t0 w0] eqn:Et0. cbv beta iota.
  unfold try_except. unfold bind at 1. unfold run_pipeline, call_raising.
  cbn [world set_world].
  destruct (pipeline_func w0 _ _) as [[p|e] w1] eqn:Ep; cbv beta iota.
  2:{ unfold bind, now, call, update_report, ret. cbn [world set_world].
      destruct (time_time w1) as [t1 w2]. cbv beta iota.
      do 2 eexists. split; [reflexivity|].
      split; [split; cbn; intros; auto; try discriminate|split; intros; cbn; auto]. }
  unfold bind at 1. unfold now at 1, call. cbn [world set_world].
  destruct (time_time w1) as [t1 w2] eqn:Et1. cbv beta iota zeta.
  remember (evaluate_exact_match (sample_query sample) p) as em eqn:Hem.
  remember (_is_valid_sql p) as iv eqn:Hiv.
  remember ((t1 - t0) * 1000)%Q as lat eqn:Hlat.
  set (r0 := new_result (sample_question sample) (sample_db_id sample)
               (sample_query sample) p em iv None lat).
  set (st2 := set_world w2 (set_world w1 (set_world w0 st))).
  assert (J2 : judge_calls st2 = judge_calls st) by reflexivity.
  assert (O2 : open_connections st2 = open_connections st) by reflexivity.
  assert (N2 : next_handle st2 = next_handle st) by reflexivity.
  clearbody st2.
  (* the judge *)
  assert (Hj :
    (exists e st3,
       (if _use_llm_judge self then _evaluate_llm_judge self r0 em else ret r0) st2
         = (Raised e, st3) /\
       _use_llm_judge self = true /\
       open_connections st3 = open_connections st /\
       next_handle st3 = next_handle st) \/
    (exists r1 st3,
       (if _use_llm_judge self then _evaluate_llm_judge self r0 em else ret r0) st2
         = (Returned r1, st3) /\
       open_connections st3 = open_connections st /\
       next_handle st3 = next_handle st /\
       (_use_llm_judge self = false ->
        judge_calls st3 = judge_calls st /\ llm_judge_match r1 = None) /\
       (_use_llm_judge self = true -> is_set (llm_judge_match r1) = em || iv) /\
       (_use_llm_judge self = true -> em = true ->
        llm_judge_match r1 = Some true /\ llm_judge_score r1 = 5%Z) /\
       (llm_judge_match r1 = None -> llm_judge_score r1 = 0%Z) /\
       exact_match r1 = em /\ is_valid_sql r1 = iv /\ error r1 = None /\
       execution_match r1 = None)).
  { destruct (_use_llm_judge self).
    - rewrite evaluate_llm_judge_cases.
      destruct em.
      + right. do 2 eexists. split; [reflexivity|]. cbn.
        repeat split; auto; discriminate.
      + change (is_valid_sql r0) with iv. destruct iv.
        * destruct (judge_sql_equivalence _ _ _ _) as [[j|e] w].
          -- right. do 2 eexists. split; [reflexivity|]. cbn.
             repeat split; auto; discriminate.
          -- left. do 2 eexists. split; [reflexivity|]. cbn. auto.
        * right. do 2 eexists. split; [reflexivity|]. cbn.
          repeat split; auto; discriminate.
    - right. do 2 eexists. split; [reflexivity|]. cbn.
      repeat split; auto; discriminate. }
  unfold bind at 1.
  destruct Hj as [(e & st3 & E3 & U3 & O3 & N3)|
                  (r1 & st3 & E3 & O3 & N3 & Joff & Jon & Jex & Jsc & F1 & F2 & F3 & F4)];
    rewrite E3; cbv beta iota.
  { unfold bind, now, call, update_report, ret. cbn [world set_world].
    destruct (time_time (world st3)) as [t2 w3]. cbv beta iota.
    do 2 eexists. split; [reflexivity|].
    split; [split; cbn; intros; auto; try discriminate|].
    split; [congruence|]. intros _. cbn. auto. }
  clear E3.
  (* the execution evaluator *)
  fold (execution_enabled self).
  assert (Hx :
    (exists e st4,
       (if execution_enabled self then _evaluate_execution self r1 else ret r1) st3
         = (Raised e, st4) /\
       judge_calls st4 = judge_calls st3 /\ execution_enabled self = true) \/
    (exists r2 st4,
      (if execution_enabled self then _evaluate_execution self r1 else ret r1) st3
        = (Returned r2, st4) /\
      judge_calls st4 = judge_calls st3 /\
      (execution_enabled self = false ->
       execution_match r2 = None /\
       open_connections st4 = open_connections st3 /\
       next_handle st4 = next_handle st3) /\
      llm_judge_match r2 = llm_judge_match r1 /\
      llm_judge_score r2 = llm_judge_score r1 /\
      exact_match r2 = exact_match r1 /\ is_valid_sql r2 = is_valid_sql r1 /\
      error r2 = error r1)).
  { destruct (execution_enabled self).
    - destruct (evaluate_execution_accounts self r1 st3) as (rx & st4 & E4 & J4 & H4).
      destruct rx as [r2|e].
      + destruct H4 as (v & -> & R4). right.
        exists (set_execution_match r1 v), st4. split; [exact E4|].
        split; [exact J4|]. split; [discriminate|]. cbn. auto.
      + left. exists e, st4. auto.
    - right. exists r1, st3. split; [reflexivity|]. auto 10. }
  destruct Hx as [(e & st4 & E4 & J4 & X4)|
                  (r2 & st4 & E4 & J4 & Xoff & G1 & G2 & G3 & G4 & G5)].
  { unfold bind at 1. rewrite E4. cbv beta iota.
    unfold bind, now, call, update_report, ret. cbn [world set_world].
    destruct (time_time (world st4)) as [t2 w3]. cbv beta iota.
    do 2 eexists. split; [reflexivity|].
    split; [split; cbn; intros; auto; try discriminate|].
    split.
    - intros U. cbn. rewrite J4. apply Joff, U.
    - intros U. congruence. }
  unfold bind at 1. rewrite E4. cbv beta iota.
  exists r2.
  assert (Hw : well_formed self r2).
  { split.
    - rewrite G5, F3. discriminate.
    - intros U. rewrite G1. apply Joff, U.
    - intros U. apply Xoff, U.
    - intros U _. rewrite G1, G3, G4, F1, F2. apply Jon, U.
    - intros U. rewrite G3, F1, G1, G2. apply Jex, U.
    - rewrite G1, G2. exact Jsc. }
  assert (Hf : forall st', judge_calls st' = judge_calls st4 ->
            open_connections st' = open_connections st4 ->
            next_handle st' = next_handle st4 -> framed self st st').
  { intros st' J' O' N'. split.
    - intros U. rewrite J', J4. apply Joff, U.
    - intros U. destruct (Xoff U) as (_ & O4 & N4). split; congruence. }
  clear E4. clearbody r0.
  unfold bind, when, update_report, ret.
  destruct em, iv; cbv beta iota; eexists; (split; [reflexivity|]);
    (split; [exact Hw|apply Hf; reflexivity]).
Qed.


(** One iteration of the loop, with the shape of its result. *)
Lemma run_loop_step self sample rest (st : state W) :
  exists r st1 dm ds,
    well_formed self r /\ framed self st st1 /\
    report st1 = surplus dm ds (account r (report st)) /\
    (no_late_failure self -> dm = 0%Z /\ ds = 0%Z) /\
    question r = sample_question sample /\
    db_id r = sample_db_id sample /\
    gold_sql r = sample_query sample /\
    run_loop self (sample :: rest) st
    = run_loop self rest
        (set_report
           (add_total_latency_ms (latency_ms r)
              (add_total_samples 1 (append_result r (report st1)))) st1).
Proof.
  destruct (evaluate_sample_accounts self sample st)
    as (r & st1 & dm & ds & E & R & _ & Hd & Q1 & Q2 & Q3 & _).
  destruct (evaluate_sample_shape self sample st) as (r' & st1' & E' & Hw & Hf).
  rewrite E in E'. injection E' as <- <-.
  exists r, st1, dm, ds. do 3 (split; [assumption|]). split.
  - intros Hq. destruct Hd as [Hd|(U & X & w & p & e & Hp)]; [exact Hd|].
    destruct Hq as [Hq|[Hq|Hq]]; try congruence.
    destruct (Hq w p) as [b Hb]. congruence.
  - do 3 (split; [assumption|]).
    simpl run_loop. unfold bind at 1. rewrite E. reflexivity.
Qed.

Lemma framed_trans self (a b c : state W) :
  framed self a b -> framed self b c -> framed self a c.
Proof.
  intros [J1 X1] [J2 X2]. split.
  - intros U. rewrite (J2 U). apply J1, U.
  - intros U. destruct (X1 U), (X2 U). split; congruence.
Qed.

(** The loop gives each sample one well-formed result, in order, and
    adds to the latency total what the results carry; on a benchmark
    without late failures it does so for the score total too. *)
Lemma run_loop_shape self samples : forall st : state W,
  exists st' rs,
    run_loop self samples st = (Returned tt, st') /\
    results (report st') = results (report st) ++ rs /\
    Forall (well_formed self) rs /\
    framed self st st' /\
    map (fun r => (question r, db_id r, gold_sql r)) rs
    = map (fun s => (sample_question s, sample_db_id s, sample_query s)) samples /\
    (no_late_failure self ->
     llm_judge_total_score (report st')
     = (llm_judge_total_score (report st) + py_sum (map llm_judge_score rs))%Z) /\
    total_latency_ms (report st')
    = fold_left Qplus (map latency_ms rs) (total_latency_ms (report st)).
Proof.
  induction samples as [|sample rest IH]; intros st.
  - exists st, []. simpl. rewrite app_nil_r. repeat split; auto.
    unfold py_sum. simpl. lia.
  - destruct (run_loop_step self sample rest st)
      as (r & st1 & dm & ds & Hw & Hf & R & Hd & Q1 & Q2 & Q3 & L).
    rewrite L.
    match goal with
    | |- context [run_loop self rest ?s] =>
        destruct (IH s) as (st' & rs & E' & A' & W' & F' & M' & S' & T')
    end.
    exists st', (r :: rs). split; [exact E'|].
    split; [rewrite A'; simpl; rewrite R; simpl; rewrite <- app_assoc; reflexivity|].
    split; [constructor; assumption|].
    split; [eapply framed_trans; [exact Hf|]; destruct F' as [F1 F2]; split; exact F1 || exact F2|].
    split; [simpl; rewrite Q1, Q2, Q3, M'; reflexivity|].
    split.
    + intros Hq. rewrite (S' Hq). destruct (Hd Hq) as [-> ->].
      simpl. rewrite R. simpl. rewrite py_sum_cons.
      pose proof (unjudged_score _ _ Hw) as U.
      destruct (llm_judge_match r); simpl; [lia|]. rewrite U by reflexivity. lia.
    + rewrite T'. simpl. rewrite R. reflexivity.
Qed.

(** The state the loop reaches from a fresh report, with all that is
    known of it. *)
Lemma run_loop_fresh self samples (w : W) :
  exists st',
    run_loop self samples (initial_state w) = (Returned tt, st') /\
    accounted (report st') /\
    (no_late_failure self -> consistent (report st')) /\
    Forall (well_formed self) (results (report st')) /\
    framed self (initial_state w) st' /\
    map (fun r => (question r, db_id r, gold_sql r)) (results (report st'))
    = map (fun s => (sample_question s, sample_db_id s, sample_query s)) samples /\
    (no_late_failure self ->
     llm_judge_total_score (report st')
     = py_sum (map llm_judge_score (results (report st')))) /\
    total_latency_ms (report st')
    = fold_left Qplus (map latency_ms (results (report st'))) 0%Q.
Proof.
  destruct (run_loop_accounted self samples (initial_state w)
              (consistent_accounted _ new_report_consistent))
    as (st' & E & C & _).
  destruct (run_loop_shape self samples (initial_state w))
    as (st'' & rs & E' & A & Hw & Hf & M & S & T).
  rewrite E in E'. injection E' as <-. simpl in A. subst rs.
  exists st'. split; [exact E|]. split; [exact C|]. split.
  { intros Hq.
    destruct (run_loop_consistent self samples Hq (initial_state w)
                new_report_consistent) as (st2 & E2 & C2 & _).
    rewrite E in E2. injection E2 as <-. exact C2. }
  do 3 (split; [assumption|]). split; [exact S|exact T].
Qed.

(** An evaluator that is switched off is never called.  Without the
    judge, no call to the judge is made, no result has
    [llm_judge_match] set, and the judge counters and ratios stay 0.
    Without execution evaluation (also when [_use_execution] is set but
    [_databases_dir] is empty or [None]), no connection is opened, no
    result has [execution_match] set, and the execution counter and
    ratio stay 0. *)
Theorem disabled_evaluators_are_not_run self samples (w : W) :
  exists st',
    run_loop self samples (initial_state w) = (Returned tt, st') /\
    (_use_llm_judge self = false ->
     judge_calls st' = [] /\
     Forall (fun r => llm_judge_match r = None) (results (report st')) /\
     llm_judge_match_count (report st') = 0%Z /\
     llm_judge_total_score (report st') = 0%Z /\
     llm_judge_accuracy (report st') = 0%Q /\
     llm_judge_avg_score (report st') = 0%Q) /\
    (_use_execution self && truthy (_databases_dir self) = false ->
     open_connections st' = [] /\ next_handle st' = 0 /\
     Forall (fun r => execution_match r = None) (results (report st')) /\
     execution_match_count (report st') = 0%Z /\
     execution_accuracy (report st') = 0%Q).
Proof.
  destruct (run_loop_fresh self samples w)
    as (st' & E & A & C & Hw & [Fj Fx] & _ & S & _).
  exists st'. split; [exact E|]. split.
  - intros U.
    assert (Hq : no_late_failure self) by (left; exact U).
    specialize (C Hq). specialize (S Hq).
    assert (Hn : Forall (fun r => llm_judge_match r = None) (results (report st'))).
    { eapply List.Forall_impl; [|exact Hw]. intros r Hr. apply (judge_off _ _ Hr U). }
    assert (Hs : py_sum (map llm_judge_score (results (report st'))) = 0%Z).
    { apply py_sum_zeros. eapply List.Forall_impl; [|exact Hw].
      intros r Hr. apply (unjudged_score _ _ Hr), (judge_off _ _ Hr U). }
    split; [exact (Fj U)|]. split; [exact Hn|].
    split; [rewrite (llm_judge_match_count_ok _ C);
            apply (count_unset llm_judge_match is_true _ Hn); reflexivity|].
    split; [congruence|].
    unfold llm_judge_accuracy, llm_judge_avg_score. rewrite !py_sum_ones.
    fold (count (fun r => is_set (llm_judge_match r)) (results (report st'))).
    rewrite (count_unset llm_judge_match is_set _ Hn) by reflexivity. auto.
  - intros U. fold (execution_enabled self) in U.
    assert (Hn : Forall (fun r => execution_match r = None) (results (report st'))).
    { eapply List.Forall_impl; [|exact Hw]. intros r Hr. apply (execution_off _ _ Hr U). }
    destruct (Fx U) as [O N].
    split; [exact O|]. split; [exact N|]. split; [exact Hn|].
    split; [rewrite (accounted_execution _ A);
            apply (count_unset execution_match is_true _ Hn); reflexivity|].
    unfold execution_accuracy. rewrite !py_sum_ones.
    fold (count (fun r => is_set (execution_match r)) (results (report st'))).
    rewrite (count_unset execution_match is_set _ Hn) by reflexivity. auto.
Qed.

(** A sample that ends in an error is neither valid SQL nor an exact
    match, and an exact match is a judge match: after the loop
    [error_count + valid_sql_count] and [error_count + exact_match_count]
    do not exceed [total_samples], and with the judge enabled
    [llm_judge_match_count] is at least [exact_match_count] and
    [llm_judge_accuracy] is at least [exact_match_accuracy]. *)
Theorem judge_accuracy_dominates_exact_match self samples (w : W) :
  exists st',
    run_loop self samples (initial_state w) = (Returned tt, st') /\
    (error_count (report st') + valid_sql_count (report st')
     <= total_samples (report st'))%Z /\
    (error_count (report st') + exact_match_count (report st')
     <= total_samples (report st'))%Z /\
    (_use_llm_judge self = true ->
     (exact_match_count (report st') <= llm_judge_match_count (report st'))%Z /\
     (exact_match_accuracy (report st') <= llm_judge_accuracy (report st'))%Q).
Proof.
  destruct (run_loop_fresh self samples w) as (st' & E & C & _ & Hw & _).
  exists st'. split; [exact E|].
  destruct C as [C1 C2 C3 C4 C5 C6].
  split; [|split].
  - rewrite C6, C5, C1. apply count_disjoint.
    eapply List.Forall_impl; [|exact Hw]. intros r Hr He.
    apply (error_shape _ _ Hr He).
  - rewrite C6, C2, C1. apply count_disjoint.
    eapply List.Forall_impl; [|exact Hw]. intros r Hr He.
    apply (error_shape _ _ Hr He).
  - intros U.
    assert (Hle : (count exact_match (results (report st'))
                   <= count (fun r => is_true (llm_judge_match r))
                        (results (report st')))%Z).
    { apply count_le_Forall. eapply List.Forall_impl; [|exact Hw].
      intros r Hr He. destruct (judge_exact _ _ Hr U He) as [-> _]. reflexivity. }
    split; [rewrite C2; lia|].
    unfold exact_match_accuracy, llm_judge_accuracy. rewrite py_sum_ones.
    fold (count (fun r => is_set (llm_judge_match r)) (results (report st'))).
    rewrite C1, C2.
    pose proof (Ratios.count_bounds exact_match (results (report st'))) as B1.
    pose proof (Ratios.count_bounds (fun r => is_set (llm_judge_match r))
                  (results (report st'))) as B2.
    assert (Hjs : (count (fun r => is_true (llm_judge_match r)) (results (report st'))
                   <= count (fun r => is_set (llm_judge_match r))
                        (results (report st')))%Z).
    { apply Ratios.count_le_count. intros r. destruct (llm_judge_match r) as [[]|]; auto. }
    destruct (Z.gtb_spec (Z.of_nat (length (results (report st')))) 0) as [Hpos|Hzero];
      destruct (Z.eqb_spec (count (fun r => is_set (llm_judge_match r))
                              (results (report st'))) 0) as [Hj0|Hj1].
    + assert (E0 : count exact_match (results (report st')) = 0%Z) by lia.
      rewrite E0. unfold true_div, Qdiv, Qle. simpl. lia.
    + apply true_div_le; lia.
    + apply Qle_refl.
    + lia.
Qed.

(** The results the loop appends carry the question, the database and
    the gold query of the samples, in order, and [total_latency_ms] is
    the sum of their latencies.  On a benchmark on which no sample can
    fail after the judge was counted (the judge or the execution
    evaluator is off, or [Path.exists()] never raises),
    [llm_judge_total_score] is the sum of the scores of the results; a
    result the judge did not see has score 0. *)
Theorem report_totals_are_sums self samples (w : W) :
  exists st',
    run_loop self samples (initial_state w) = (Returned tt, st') /\
    map (fun r => (question r, db_id r, gold_sql r)) (results (report st'))
    = map (fun s => (sample_question s, sample_db_id s, sample_query s)) samples /\
    Forall (fun r => llm_judge_match r = None -> llm_judge_score r = 0%Z)
      (results (report st')) /\
    total_latency_ms (report st')
    = fold_left Qplus (map latency_ms (results (report st'))) 0%Q /\
    (no_late_failure self ->
     llm_judge_total_score (report st')
     = py_sum (map llm_judge_score (results (report st')))).
Proof.
  destruct (run_loop_fresh self samples w) as (st' & E & _ & _ & Hw & _ & M & S & T).
  exists st'. split; [exact E|]. split; [exact M|]. split; [|split; assumption].
  eapply List.Forall_impl; [|exact Hw]. intros r Hr. apply (unjudged_score _ _ Hr).
Qed.

(** When the judge raises, the handler of [_evaluate_sample] takes over:
    the result is an error record with the text of the exception, the
    predicted SQL is dropped and the sample is counted neither as valid
    SQL nor as judged, although the pipeline had answered with a valid
    statement; the call to the judge was made. *)
Theorem judge_failure_discards_prediction self sample (st : state W)
    (t0 t1 : Q) (w0 w1 w2 w3 : W) (p : pystr) (e : exn) :
  _use_llm_judge self = true ->
  time_time (world st) = (t0, w0) ->
  pipeline_func w0 (sample_question sample)
    (get_schema self (sample_db_id sample)) = (Returned p, w1) ->
  time_time w1 = (t1, w2) ->
  evaluate_exact_match (sample_query sample) p = false ->
  _is_valid_sql p = true ->
  judge_sql_equivalence w2 (sample_question sample) (sample_query sample) p
  = (Raised e, w3) ->
  exists r st',
    _evaluate_sample self sample st = (Returned r, st') /\
    predicted_sql r = [] /\ is_valid_sql r = false /\ exact_match r = false /\
    error r = Some (exn_text e) /\
    llm_judge_match r = None /\ execution_match r = None /\
    report st' = add_error_count 1 (report st) /\
    judge_calls st'
    = judge_calls st ++ [(sample_question sample, sample_query sample, p)] /\
    open_connections st' = open_connections st.
Proof.
  intros U Et0 Ep Et1 Hem Hiv Ej.
  unfold _evaluate_sample. unfold bind at 1. unfold now at 1, call.
  rewrite Et0. cbv beta iota.
  unfold try_except. unfold bind at 1. unfold run_pipeline, call_raising.
  cbn [world set_world]. rewrite Ep. cbv beta iota.
  unfold bind at 1. unfold now at 1, call. cbn [world set_world].
  rewrite Et1. cbv beta iota zeta. rewrite U, Hem, Hiv.
  unfold bind at 1. rewrite evaluate_llm_judge_cases.
  cbn [is_valid_sql new_result world set_world question gold_sql predicted_sql].
  rewrite Ej. cbv beta iota.
  unfold bind, now, call, update_report, ret. cbn [world set_world].
  destruct (time_time w3) as [t2 w4]. cbv beta iota.
  do 2 eexists. split; [reflexivity|]. repeat split.
Qed.

End Samples.
Lemma judge_failure_discards_prediction_witness :
  exists r st',
    _evaluate_sample (H := failing_judge_world) judged_benchmark singer_count
      (initial_state tt) = (Returned r, st') /\
    predicted_sql r = [] /\ is_valid_sql r = false /\ exact_match r = false /\
    error r = Some (exn_text judge_timeout) /\
    llm_judge_match r = None /\ execution_match r = None /\
    report st' = add_error_count 1 (report (initial_state tt)) /\
    judge_calls st'
    = judge_calls (initial_state tt)
      ++ [(sample_question singer_count, sample_query singer_count,
           py "SELECT name FROM singer")] /\
    open_connections st' = open_connections (initial_state tt).
Proof.
  apply (judge_failure_discards_prediction (H := failing_judge_world)
           judged_benchmark singer_count (initial_state tt)
           0%Q 0%Q tt tt tt tt (py "SELECT name FROM singer") judge_timeout);
    vm_compute; reflexivity.
Defined.

End RunFacts.

(** ** [SpiderDataLoader] of [core/data_loader.py] *)
Module Loader.
Import PyStr Runtime DataLoader.

(** A dictionary whose order of keys the code goes through: the pairs in
    the order in which the keys were first set. *)
Definition dict (V : Type) : Type := list (pystr * V).

(** [d[k] = v] *)
Fixpoint dict_set {V} (k : pystr) (v : V) (d : dict V) : dict V :=
  match d with
  | [] => [(k, v)]
  | (k', v') :: d' =>
      if str_eqb k' k then (k', v) :: d' else (k', v') :: dict_set k v d'
  end.

(** [d.get(k)] *)
Fixpoint dict_get {V} (k : pystr) (d : dict V) : option V :=
  match d with
  | [] => None
  | (k', v') :: d' => if str_eqb k' k then Some v' else dict_get k d'
  end.

(** [SpiderDataLoader]: [tables] goes from a database to its record of
    [tables.json], [db_schemas] to its schema text. *)
Record SpiderDataLoader := {
  spider_dir : path;
  dev_data : list Orchestrator.Sample;
  tables : dict TableInfo;
  db_schemas : gmap pystr pystr
}.

(** [SpiderDataLoader(spider_dir)] *)
Definition new_loader (spider_dir : path) : SpiderDataLoader := {|
  spider_dir := spider_dir;
  dev_data := [];
  tables := [];
  db_schemas := ∅
|}.

Definition set_dev_data (data : list Orchestrator.Sample) (self : SpiderDataLoader)
  : SpiderDataLoader := {|
  spider_dir := spider_dir self;
  dev_data := data;
  tables := tables self;
  db_schemas := db_schemas self
|}.

Definition set_tables (t : dict TableInfo) (self : SpiderDataLoader)
  : SpiderDataLoader := {|
  spider_dir := spider_dir self;
  dev_data := dev_data self;
  tables := t;
  db_schemas := db_schemas self
|}.

(** [self.db_schemas[db_id] = schema] *)
Definition set_schema (db_id schema : pystr) (self : SpiderDataLoader)
  : SpiderDataLoader := {|
  spider_dir := spider_dir self;
  dev_data := dev_data self;
  tables := tables self;
  db_schemas := <[db_id := schema]> (db_schemas self)
|}.

(** What the loader reads and draws: [json.load] on the two files of the
    dataset, whose content has the layout of Spider (a list of examples,
    a list of table records with their [db_id]), and
    [random.seed(seed); random.sample(population, k)] for a [k] between 0
    and the size of the population. *)
Class Dataset (W : Type) := {
  load_dev_json : W -> path -> outcome (list Orchestrator.Sample) * W;
  load_tables_json : W -> path -> outcome (list (pystr * TableInfo)) * W;
  random_sample : Z -> list Orchestrator.Sample -> nat -> list Orchestrator.Sample
}.

(** [{t['db_id']: t for t in tables_list}] *)
Definition tables_by_db_id (tables_list : list (pystr * TableInfo)) : dict TableInfo :=
  fold_left (fun d t => dict_set (fst t) (snd t) d) tables_list [].

(** [l[:n]] *)
Definition slice_to {A} (l : list A) (n : Z) : list A :=
  if (n <? 0)%Z then firstn (Z.to_nat (Z.max 0 (Z.of_nat (length l) + n))) l
  else firstn (Z.to_nat n) l.

(** The [ValueError] of [random.sample] for a negative sample size. *)
Definition negative_sample : exn := {|
  is_sqlite_error := false;
  exn_text := py "Sample larger than population or is negative"
|}.

Section Methods.
Context {W : Type} `{Collaborators W} `{Dataset W}.

(** Lines 36-51 of [load]: the two files are read. *)
Definition read_files (self : SpiderDataLoader) (dev_path tables_path : path)
    (st : state W) : outcome bool * SpiderDataLoader * state W :=
  match load_dev_json (world st) dev_path with
  | (Raised e, w) => (Raised e, self, set_world w st)
  | (Returned data, w) =>
      let self := set_dev_data data self in
      match load_tables_json w tables_path with
      | (Raised e, w) => (Raised e, self, set_world w st)
      | (Returned tables_list, w) =>
          let self := set_tables (tables_by_db_id tables_list) self in
          let self :=
            fold_left
              (fun self item =>
                 set_schema (fst item) (_build_schema_string (snd item)) self)
              (tables self) self in
          (Returned true, self, set_world w st)
      end
  end.

(** [SpiderDataLoader.load]; the loader it updates in place is returned
    with the outcome, also when [Path.exists()] or a read raises.  The
    lines it prints are left out. *)
Definition load (self : SpiderDataLoader) (st : state W)
  : outcome bool * SpiderDataLoader * state W :=
  let dev_path := spider_dir self ++ [py "dev.json"] in
  let tables_path := spider_dir self ++ [py "tables.json"] in
  match path_exists (world st) dev_path with
  | Raised e => (Raised e, self, st)
  | Returned false => (Returned false, self, st)
  | Returned true =>
      match path_exists (world st) tables_path with
      | Raised e => (Raised e, self, st)
      | Returned false => (Returned false, self, st)
      | Returned true => read_files self dev_path tables_path st
      end
  end.

(** [SpiderDataLoader.get_samples] *)
Definition get_samples (self : SpiderDataLoader) (n : Z) (shuffle : bool) (seed : Z)
  : outcome (list Orchestrator.Sample) :=
  if shuffle then
    let k := Z.min n (Z.of_nat (length (dev_data self))) in
    if (k <? 0)%Z then Raised negative_sample
    else Returned (random_sample seed (dev_data self) (Z.to_nat k))
  else Returned (slice_to (dev_data self) n).

End Methods.

(** [SpiderDataLoader.get_schema] *)
Definition get_schema (self : SpiderDataLoader) (db_id : pystr) : pystr :=
  default [] (db_schemas self !! db_id).

(** [SpiderDataLoader.get_table_info]; [None] stands for the empty
    dictionary it returns for a database it does not know. *)
Definition get_table_info (self : SpiderDataLoader) (db_id : pystr) : option TableInfo :=
  dict_get db_id (tables self).

(** The last record of a list of table records that carries [db_id]. *)
Fixpoint last_record (db_id : pystr) (tables_list : list (pystr * TableInfo))
  : option TableInfo :=
  match tables_list with
  | [] => None
  | (k, t) :: rest =>
      match last_record db_id rest with
      | Some t' => Some t'
      | None => if str_eqb k db_id then Some t else None
      end
  end.

(** *** Facts about the dictionary *)

Lemma str_eqb_refl a : str_eqb a a = true.
Proof. apply str_eqb_eq. reflexivity. Qed.

Lemma str_eqb_neq a b : a <> b -> str_eqb a b = false.
Proof.
  intros Hn. destruct (str_eqb a b) eqn:E; [|reflexivity].
  apply str_eqb_eq in E. contradiction.
Qed.

Lemma dict_get_set {V} k k' (v : V) d :
  dict_get k' (dict_set k v d) = if str_eqb k k' then Some v else dict_get k' d.
Proof.
  induction d as [|[k0 v0] d IH]; simpl.
  - reflexivity.
  - destruct (str_eqb k0 k) eqn:E0; simpl.
    + apply str_eqb_eq in E0. subst k0.
      destruct (str_eqb k k'); reflexivity.
    + rewrite IH. destruct (str_eqb k0 k') eqn:E1; [|reflexivity].
      apply str_eqb_eq in E1. subst k0.
      destruct (str_eqb k k') eqn:E2; [|reflexivity].
      apply str_eqb_eq in E2. subst k'. rewrite str_eqb_refl in E0. discriminate.
Qed.

Lemma tables_by_db_id_get db_id tables_list : forall d,
  dict_get db_id (fold_left (fun d t => dict_set (fst t) (snd t) d) tables_list d)
  = match last_record db_id tables_list with
    | Some t => Some t
    | None => dict_get db_id d
    end.
Proof.
  induction tables_list as [|[k t] rest IH]; intros d; simpl; [reflexivity|].
  rewrite IH. destruct (last_record db_id rest); [reflexivity|].
  rewrite dict_get_set. destruct (str_eqb k db_id); reflexivity.
Qed.

Lemma dict_set_keys {V} k (v : V) d :
  List.NoDup (map fst d) -> List.NoDup (map fst (dict_set k v d)) /\
  (forall k', In k' (map fst (dict_set k v d)) <-> k' = k \/ In k' (map fst d)).
Proof.
  induction d as [|[k0 v0] d IH]; simpl; intros Hn.
  - split; [repeat constructor; intros []|]. intros k'. intuition congruence.
  - apply List.NoDup_cons_iff in Hn. destruct Hn as [Hk Hn].
    destruct (IH Hn) as [IH1 IH2].
    destruct (str_eqb k0 k) eqn:E0; simpl.
    + apply str_eqb_eq in E0. subst k0. split; [constructor; assumption|].
      intros k'. intuition congruence.
    + split.
      * constructor; [|exact IH1]. rewrite IH2. intros [->|Hin]; [|contradiction].
        rewrite str_eqb_refl in E0. discriminate.
      * intros k'. rewrite IH2. intuition congruence.
Qed.

Lemma tables_by_db_id_keys tables_list : List.NoDup (map fst (tables_by_db_id tables_list)).
Proof.
  unfold tables_by_db_id.
  assert (G : forall d : dict TableInfo, List.NoDup (map fst d) ->
    List.NoDup (map fst (fold_left (fun d t => dict_set (fst t) (snd t) d) tables_list d))).
  { induction tables_list as [|t rest IH]; intros d Hd; simpl; [exact Hd|].
    apply IH, dict_set_keys, Hd. }
  apply G. constructor.
Qed.

Lemma firstn_min {A} k (l : list A) : firstn (Nat.min k (length l)) l = firstn k l.
Proof.
  destruct (Nat.le_gt_cases k (length l)) as [Hle|Hgt].
  - rewrite Nat.min_l by exact Hle. reflexivity.
  - rewrite Nat.min_r by lia. rewrite firstn_all, firstn_all2 by lia. reflexivity.
Qed.

(** The schemas after the loop of lines 46-47. *)
Lemma schemas_after_loop (d : dict TableInfo) db_id : forall self,
  List.NoDup (map fst d) ->
  db_schemas
    (fold_left
       (fun self item => set_schema (fst item) (_build_schema_string (snd item)) self)
       d self) !! db_id
  = match dict_get db_id d with
    | Some t => Some (_build_schema_string t)
    | None => db_schemas self !! db_id
    end.
Proof.
  induction d as [|[k t] d IH]; intros self Hn; simpl; [reflexivity|].
  apply List.NoDup_cons_iff in Hn. destruct Hn as [Hk Hn].
  rewrite IH by exact Hn. simpl.
  destruct (str_eqb k db_id) eqn:E.
  - apply str_eqb_eq in E. subst k.
    destruct (dict_get db_id d) as [t'|] eqn:Eg.
    + exfalso. apply Hk. clear -Eg. induction d as [|[k0 v0] d IH]; [discriminate|].
      simpl in *. destruct (str_eqb k0 db_id) eqn:E0.
      * apply str_eqb_eq in E0. auto.
      * auto.
    + rewrite lookup_insert_eq. reflexivity.
  - destruct (dict_get db_id d); [reflexivity|].
    rewrite lookup_insert_ne; [reflexivity|].
    intros ->. rewrite str_eqb_refl in E. discriminate.
Qed.

Lemma fold_set_schema_fields (d : dict TableInfo) : forall self,
  let self' :=
    fold_left
      (fun self item => set_schema (fst item) (_build_schema_string (snd item)) self)
      d self in
  spider_dir self' = spider_dir self /\ dev_data self' = dev_data self /\
  tables self' = tables self.
Proof.
  induction d as [|item d IH]; intros self; simpl; [auto|].
  destruct (IH (set_schema (fst item) (_build_schema_string (snd item)) self))
    as (A & B & C). simpl in *. auto.
Qed.

(** A world with the two files of a small dataset: two examples, and
    three table records of which the first and the last are for the same
    database. *)
Definition two_examples : list Orchestrator.Sample :=
  [Orchestrator.singer_count; Orchestrator.singer_names].

Definition stale_record : TableInfo := {|
  table_names_original := [py "singer"];
  column_names_original := [(-1, py "*"); (0, py "Name")]%Z;
  column_types := [py "text"; py "text"];
  primary_keys := None
|}.

Definition three_records : list (pystr * TableInfo) :=
  [(py "concert_singer", stale_record); (py "pets", stale_record);
   (py "concert_singer", one_empty_table)].

Definition files_present_world : Collaborators unit := {|
  path_exists := fun _ _ => Returned true;
  sqlite3_connect := fun w _ _ => (None, w);
  cursor_execute := fun w _ _ => (None, w);
  cursor_fetchall := fun w _ => (Returned [], w);
  connection_close := fun w _ => w;
  pipeline_func := fun w _ _ => (Returned (py "select COUNT(*)  from singer;"), w);
  sqlparse_types := fun _ => Returned [py "SELECT"];
  judge_sql_equivalence := fun w _ _ _ =>
    (Returned {| is_equivalent := false; score := 1; reasoning := [] |}, w);
  time_time := fun w => (0%Q, w)
|}.

Definition small_dataset : Dataset unit := {|
  load_dev_json := fun w _ => (Returned two_examples, w);
  load_tables_json := fun w _ => (Returned three_records, w);
  random_sample := fun _ population k => firstn k population
|}.

Section Loading.
Context {W : Type} `{Collaborators W} `{Dataset W}.

(** After a load that found and read both files, the loader holds the
    examples read; for each database it gives the last record of
    [tables.json] that carries its [db_id] and the schema text built from
    that record.  For a database without a record in the file it knows no
    record any more, but still gives the schema text it had before the
    load: [tables] is replaced, [db_schemas] is only added to. *)
Theorem load_keeps_last_record_and_old_schemas (self : SpiderDataLoader) (st : state W)
    (data : list Orchestrator.Sample) (tables_list : list (pystr * TableInfo))
    (w1 w2 : W) :
  path_exists (world st) (spider_dir self ++ [py "dev.json"]) = Returned true ->
  path_exists (world st) (spider_dir self ++ [py "tables.json"]) = Returned true ->
  load_dev_json (world st) (spider_dir self ++ [py "dev.json"])
  = (Returned data, w1) ->
  load_tables_json w1 (spider_dir self ++ [py "tables.json"])
  = (Returned tables_list, w2) ->
  exists self',
    load self st = (Returned true, self', set_world w2 st) /\
    spider_dir self' = spider_dir self /\
    dev_data self' = data /\
    forall db_id,
      get_table_info self' db_id = last_record db_id tables_list /\
      get_schema self' db_id
      = match last_record db_id tables_list with
        | Some t => _build_schema_string t
        | None => get_schema self db_id
        end.
Proof.
  intros E1 E2 E3 E4. unfold load. cbv zeta. rewrite E1, E2.
  unfold read_files. rewrite E3. cbv beta iota zeta.
  cbn [spider_dir set_dev_data]. rewrite E4.
  eexists. split; [reflexivity|].
  match goal with
  | |- context [fold_left ?f ?d ?s] =>
      destruct (fold_set_schema_fields d s) as (A & B & C)
  end.
  cbn [tables set_tables] in *.
  split; [exact A|]. split; [exact B|]. intros db_id.
  unfold get_table_info, get_schema. rewrite C. cbn [tables set_tables].
  unfold tables_by_db_id at 1. rewrite tables_by_db_id_get. simpl dict_get.
  split; [destruct (last_record db_id tables_list); reflexivity|].
  rewrite schemas_after_loop by apply tables_by_db_id_keys.
  unfold tables_by_db_id. rewrite tables_by_db_id_get. simpl dict_get.
  destruct (last_record db_id tables_list); reflexivity.
Qed.

(** Without shuffling, [get_samples] gives the first [n] examples, all of
    them when there are fewer; for a negative [n] it gives all but the
    last [-n] examples.  With shuffling, a negative [n] makes
    [random.sample] raise. *)
Theorem get_samples_takes_a_prefix (self : SpiderDataLoader) (n seed : Z) :
  (exists samples,
     get_samples self n false seed = Returned samples /\
     samples = firstn (length samples) (dev_data self) /\
     Z.of_nat (length samples)
     = if (n <? 0)%Z then Z.max 0 (Z.of_nat (length (dev_data self)) + n)
       else Z.min n (Z.of_nat (length (dev_data self)))) /\
  ((n < 0)%Z -> get_samples self n true seed = Raised negative_sample).
Proof.
  split.
  - unfold get_samples, slice_to. eexists. split; [reflexivity|].
    destruct (Z.ltb_spec n 0); rewrite length_firstn;
      (split; [symmetry; apply firstn_min|lia]).
  - intros Hn. unfold get_samples.
    destruct (Z.ltb_spec (Z.min n (Z.of_nat (length (dev_data self)))) 0);
      [reflexivity|lia].
Qed.

End Loading.

Lemma load_keeps_last_record_and_old_schemas_witness :
  exists self',
    load (H := files_present_world) (H0 := small_dataset)
      (set_schema (py "flights") (py "CREATE TABLE flight (no INT);")
         (new_loader [py "spider"]))
      (initial_state tt)
    = (Returned true, self', set_world tt (initial_state tt)) /\
    spider_dir self' = [py "spider"] /\
    dev_data self' = two_examples /\
    forall db_id,
      get_table_info self' db_id = last_record db_id three_records /\
      get_schema self' db_id
      = match last_record db_id three_records with
        | Some t => _build_schema_string t
        | None =>
            get_schema
              (set_schema (py "flights") (py "CREATE TABLE flight (no INT);")
                 (new_loader [py "spider"])) db_id
        end.
Proof.
  apply (load_keeps_last_record_and_old_schemas
           (H := files_present_world) (H0 := small_dataset)
           (set_schema (py "flights") (py "CREATE TABLE flight (no INT);")
              (new_loader [py "spider"]))
           (initial_state tt) two_examples three_records tt tt); reflexivity.
Defined.

End Loader.

(** ** [SpiderBenchmark.run] *)
Module Runner.
Import PyStr Runtime Results Loader.

(** [SpiderBenchmark] with its loader.  [has_pipeline_func] tells whether
    [self.pipeline_func] is set; the function itself is the pipeline of
    the world, and so is the judge client. *)
Record SpiderBenchmark := {
  loader : SpiderDataLoader;
  has_pipeline_func : bool;
  _use_llm_judge : bool;
  _use_execution : bool;
  _databases_dir : option pystr
}.

(** [SpiderBenchmark(spider_dir, pipeline_func)] *)
Definition new_benchmark (spider_dir : path) (pipeline_given : bool) : SpiderBenchmark := {|
  loader := new_loader spider_dir;
  has_pipeline_func := pipeline_given;
  _use_llm_judge := false;
  _use_execution := false;
  _databases_dir := None
|}.

(** [SpiderBenchmark.set_pipeline] *)
Definition set_pipeline (self : SpiderBenchmark) : SpiderBenchmark := {|
  loader := loader self;
  has_pipeline_func := true;
  _use_llm_judge := _use_llm_judge self;
  _use_execution := _use_execution self;
  _databases_dir := _databases_dir self
|}.

(** [SpiderBenchmark.enable_execution_eval] *)
Definition enable_execution_eval (self : SpiderBenchmark) (databases_dir : pystr)
  : SpiderBenchmark := {|
  loader := loader self;
  has_pipeline_func := has_pipeline_func self;
  _use_llm_judge := _use_llm_judge self;
  _use_execution := true;
  _databases_dir := Some databases_dir
|}.

(** The loader is one object: what [load] does to it shows in
    [self.loader]. *)
Definition set_loader (ld : SpiderDataLoader) (self : SpiderBenchmark)
  : SpiderBenchmark := {|
  loader := ld;
  has_pipeline_func := has_pipeline_func self;
  _use_llm_judge := _use_llm_judge self;
  _use_execution := _use_execution self;
  _databases_dir := _databases_dir self
|}.

Definition set_use_llm_judge (enabled : bool) (self : SpiderBenchmark)
  : SpiderBenchmark := {|
  loader := loader self;
  has_pipeline_func := has_pipeline_func self;
  _use_llm_judge := enabled;
  _use_execution := _use_execution self;
  _databases_dir := _databases_dir self
|}.

(** The benchmark as the methods that evaluate a sample see it. *)
Definition evaluating (self : SpiderBenchmark) : Orchestrator.SpiderBenchmark := {|
  Orchestrator.db_schemas := db_schemas (loader self);
  Orchestrator._use_llm_judge := _use_llm_judge self;
  Orchestrator._use_execution := _use_execution self;
  Orchestrator._databases_dir := _databases_dir self
|}.

(** [ValueError("Pipeline function not set. Call set_pipeline() first.")] *)
Definition pipeline_not_set : exn := {|
  is_sqlite_error := false;
  exn_text := py "Pipeline function not set. Call set_pipeline() first."
|}.

(** [RuntimeError("Failed to load Spider dataset")] *)
Definition load_failed : exn := {|
  is_sqlite_error := false;
  exn_text := py "Failed to load Spider dataset"
|}.

(** What [run] calls besides the loader and the evaluators:
    [create_judge_client()] of the judge module, and the writing of the
    results file ([mkdir], [open] and [json.dump] in [_save_results]),
    given the output directory, the report and the two switches. *)
Class Services (W : Type) := {
  create_judge_client : W -> option exn * W;
  write_results : W -> pystr -> BenchmarkReport -> bool -> bool -> option exn * W
}.

(** Services that never fail. *)
Definition obliging_services : Services unit := {|
  create_judge_client := fun w => (None, w);
  write_results := fun w _ _ _ _ => (None, w)
|}.

Section Run.
Context {W : Type} `{Collaborators W} `{Dataset W} `{Services W}.

(** [SpiderBenchmark.enable_llm_judge]: the switch is set before the
    client is created. *)
Definition enable_llm_judge (self : SpiderBenchmark) (enabled : bool) (st : state W)
  : outcome unit * SpiderBenchmark * state W :=
  let self := set_use_llm_judge enabled self in
  if enabled then
    match create_judge_client (world st) with
    | (None, w) => (Returned tt, self, set_world w st)
    | (Some e, w) => (Raised e, self, set_world w st)
    end
  else (Returned tt, self, st).

(** [SpiderBenchmark._save_results] *)
Definition _save_results (self : SpiderBenchmark) (report : BenchmarkReport)
    (output_dir : pystr) (st : state W) : outcome unit * state W :=
  match write_results (world st) output_dir report (_use_llm_judge self)
          (_use_execution self) with
  | (None, w) => (Returned tt, set_world w st)
  | (Some e, w) => (Raised e, set_world w st)
  end.

(** [SpiderBenchmark.run]; the report it creates is the report of the
    state.  The lines it prints are left out, so [verbose] has no
    effect. *)
Definition run (self : SpiderBenchmark) (n_samples : Z) (shuffle : bool) (seed : Z)
    (verbose save_results : bool) (output_dir : pystr) (use_llm_judge : bool)
    (st : state W) : outcome BenchmarkReport * SpiderBenchmark * state W :=
  if negb (has_pipeline_func self) then (Raised pipeline_not_set, self, st)
  else
    match load (loader self) st with
    | (Raised e, ld, st) => (Raised e, set_loader ld self, st)
    | (Returned false, ld, st) => (Raised load_failed, set_loader ld self, st)
    | (Returned true, ld, st) =>
        let self := set_loader ld self in
        match (if use_llm_judge then enable_llm_judge self true st
               else (Returned tt, self, st)) with
        | (Raised e, self, st) => (Raised e, self, st)
        | (Returned _, self, st) =>
            match get_samples (loader self) n_samples shuffle seed with
            | Raised e => (Raised e, self, st)
            | Returned samples =>
                let st := set_report new_report st in
                match Orchestrator.run_loop (evaluating self) samples st with
                | (Raised e, st) => (Raised e, self, st)
                | (Returned _, st) =>
                    match (if save_results
                           then _save_results self (report st) output_dir st
                           else (Returned tt, st)) with
                    | (Raised e, st) => (Raised e, self, st)
                    | (Returned _, st) => (Returned (report st), self, st)
                    end
                end
            end
        end
    end.

Lemma set_loader_same self : set_loader (loader self) self = self.
Proof. destruct self; reflexivity. Qed.

(** [run] does not start without a pipeline or without the two files of
    the dataset: it raises, and nothing has been read, evaluated or
    changed. *)
Theorem run_refuses_to_start (self : SpiderBenchmark) (n_samples seed : Z)
    (shuffle verbose save_results use_llm_judge : bool) (output_dir : pystr)
    (st : state W) :
  (has_pipeline_func self = false ->
   run self n_samples shuffle seed verbose save_results output_dir use_llm_judge st
   = (Raised pipeline_not_set, self, st)) /\
  (has_pipeline_func self = true ->
   path_exists (world st) (spider_dir (loader self) ++ [py "dev.json"])
   = Returned false \/
   path_exists (world st) (spider_dir (loader self) ++ [py "dev.json"])
   = Returned true /\
   path_exists (world st) (spider_dir (loader self) ++ [py "tables.json"])
   = Returned false ->
   run self n_samples shuffle seed verbose save_results output_dir use_llm_judge st
   = (Raised load_failed, self, st)).
Proof.
  split.
  - intros E. unfold run. rewrite E. reflexivity.
  - intros E Hp. unfold run. rewrite E. cbn [negb].
    assert (L : load (loader self) st = (Returned false, loader self, st)).
    { unfold load. cbv zeta. destruct Hp as [Hp|[Hd Hp]].
      - rewrite Hp. reflexivity.
      - rewrite Hd, Hp. reflexivity. }
    rewrite L, set_loader_same. reflexivity.
Qed.

(** When the dataset loads, the judge client can be created if it is
    asked for, the samples can be drawn and the results file can be
    written, [run] returns a fresh report of exactly the samples drawn,
    in order, with consistent counters.  The judge stays enabled when it
    was enabled before, also when [use_llm_judge] is false. *)
Theorem run_reports_the_samples_drawn (self : SpiderBenchmark) (n_samples seed : Z)
    (shuffle verbose save_results use_llm_judge : bool) (output_dir : pystr)
    (st st1 : state W) (ld : SpiderDataLoader) (samples : list Orchestrator.Sample) :
  has_pipeline_func self = true ->
  load (loader self) st = (Returned true, ld, st1) ->
  (use_llm_judge = true -> fst (create_judge_client (world st1)) = None) ->
  get_samples ld n_samples shuffle seed = Returned samples ->
  (save_results = true ->
   forall w dir rep j x, fst (write_results w dir rep j x) = None) ->
  exists rep self' st',
    run self n_samples shuffle seed verbose save_results output_dir use_llm_judge st
    = (Returned rep, self', st') /\
    loader self' = ld /\
    _use_llm_judge self' = use_llm_judge || _use_llm_judge self /\
    rep = report st' /\
    Orchestrator.accounted rep /\
    (Orchestrator.no_late_failure (evaluating self') -> Orchestrator.consistent rep) /\
    total_samples rep = Z.of_nat (length samples) /\
    map (fun r => (question r, db_id r, gold_sql r)) (results rep)
    = map (fun s => (Orchestrator.sample_question s, Orchestrator.sample_db_id s,
                     Orchestrator.sample_query s)) samples.
Proof.
  intros Hp Hl Hj Hs Hw. unfold run. rewrite Hp, Hl. cbn [negb].
  cbv zeta.
  assert (Hen : exists self2 st2,
    (if use_llm_judge then enable_llm_judge (set_loader ld self) true st1
     else (Returned tt, set_loader ld self, st1)) = (Returned tt, self2, st2) /\
    loader self2 = ld /\
    _use_llm_judge self2 = use_llm_judge || _use_llm_judge self).
  { destruct use_llm_judge.
    - unfold enable_llm_judge. specialize (Hj eq_refl).
      destruct (create_judge_client (world st1)) as [[e|] w]; [discriminate|].
      do 2 eexists. split; [reflexivity|]. split; reflexivity.
    - do 2 eexists. split; [reflexivity|]. split; reflexivity. }
  destruct Hen as (self2 & st2 & E2 & L2 & U2). rewrite E2, L2, Hs.
  destruct (Orchestrator.run_loop_accounted (evaluating self2) samples
              (set_report new_report st2)
              (Orchestrator.consistent_accounted _ Orchestrator.new_report_consistent))
    as (st3 & E3 & C3 & _).
  destruct (RunFacts.run_loop_shape (evaluating self2) samples
              (set_report new_report st2))
    as (st3' & rs & E3' & A3 & _ & _ & M3 & _).
  rewrite E3 in E3'. injection E3' as <-. simpl in A3.
  rewrite E3.
  assert (Hsv : exists st4,
    (if save_results then _save_results self2 (report st3) output_dir st3
     else (Returned tt, st3)) = (Returned tt, st4) /\ report st4 = report st3).
  { destruct save_results.
    - unfold _save_results. specialize (Hw eq_refl).
      specialize (Hw (world st3) output_dir (report st3) (_use_llm_judge self2)
                    (_use_execution self2)).
      destruct (write_results _ _ _ _ _) as [[e|] w]; [discriminate|].
      eexists. split; reflexivity.
    - eexists. split; reflexivity. }
  destruct Hsv as (st4 & E4 & R4). rewrite E4.
  exists (report st4), self2, st4. split; [reflexivity|].
  split; [exact L2|]. split; [exact U2|]. split; [reflexivity|].
  rewrite R4. split; [exact C3|].
  split.
  { intros Hq.
    destruct (Orchestrator.run_loop_consistent (evaluating self2) samples Hq
                (set_report new_report st2) Orchestrator.new_report_consistent)
      as (st5 & E5 & C5 & _).
    rewrite E3 in E5. injection E5 as <-. exact C5. }
  split.
  - rewrite (Orchestrator.accounted_total _ C3), A3.
    apply (f_equal (@length _)) in M3. rewrite !length_map in M3. congruence.
  - rewrite A3. exact M3.
Qed.

End Run.

Lemma run_reports_the_samples_drawn_witness :
  exists rep self' st',
    run (H := files_present_world) (H0 := small_dataset) (H1 := obliging_services)
      (new_benchmark [py "spider"] true) 1 false 42 true true
      (py "benchmarks/results") true (initial_state tt)
    = (Returned rep, self', st') /\
    loader self'
    = snd (fst (load (H := files_present_world) (H0 := small_dataset)
                  (new_loader [py "spider"]) (initial_state tt))) /\
    _use_llm_judge self' = true || _use_llm_judge (new_benchmark [py "spider"] true) /\
    rep = report st' /\
    Orchestrator.accounted rep /\
    (Orchestrator.no_late_failure (H := files_present_world) (evaluating self') ->
     Orchestrator.consistent rep) /\
    total_samples rep = Z.of_nat (length [Orchestrator.singer_count]) /\
    map (fun r => (question r, db_id r, gold_sql r)) (results rep)
    = map (fun s => (Orchestrator.sample_question s, Orchestrator.sample_db_id s,
                     Orchestrator.sample_query s)) [Orchestrator.singer_count].
Proof.
  apply (run_reports_the_samples_drawn
           (H := files_present_world) (H0 := small_dataset) (H1 := obliging_services)
           (new_benchmark [py "spider"] true) 1 42 false true true true
           (py "benchmarks/results") (initial_state tt) (initial_state tt)).
  - reflexivity.
  - reflexivity.
  - reflexivity.
  - reflexivity.
  - reflexivity.
Defined.

End Runner.

(** ** Statements that differ in spacing *)
Module Spacing.
Import PyStr Regex Normalizer.

(** [s] holds neither a dash nor a slash, so no comment can start in it. *)
Definition comment_free (s : pystr) : bool :=
  negb (NormalForm.has_char "-"%char s) && negb (NormalForm.has_char "/"%char s).

Lemma comment_free_cons c s :
  comment_free (c :: s) = true ->
  ch_eqb "-"%char c = false /\ ch_eqb "/"%char c = false /\ comment_free s = true.
Proof.
  unfold comment_free, NormalForm.has_char. cbn [existsb]. intros Hs.
  apply andb_prop in Hs. destruct Hs as [A B].
  apply negb_true_iff, orb_false_elim in A. apply negb_true_iff, orb_false_elim in B.
  destruct A as [A1 A2], B as [B1 B2]. rewrite A2, B2. auto.
Qed.

Lemma comment_free_lower s : comment_free s = true -> comment_free (lower s) = true.
Proof.
  induction s as [|c s IH]; [reflexivity|]. intros Hc.
  destruct (comment_free_cons _ _ Hc) as (H1 & H2 & H3).
  specialize (IH H3). unfold comment_free, NormalForm.has_char in *.
  unfold lower. cbn [map existsb]. fold (lower s).
  assert (E1 : ch_eqb "-" (lower_char c) = false).
  { revert H1. destruct c as [[] [] [] [] [] [] [] []]; intros H1; try reflexivity;
      discriminate H1. }
  assert (E2 : ch_eqb "/" (lower_char c) = false).
  { revert H2. destruct c as [[] [] [] [] [] [] [] []]; intros H2; try reflexivity;
      discriminate H2. }
  rewrite E1, E2. exact IH.
Qed.

Lemma ch_eqb_sym a b : ch_eqb a b = ch_eqb b a.
Proof. unfold ch_eqb. apply Ascii.eqb_sym. Qed.

(** No comment starts in a text without dashes and slashes. *)
Lemma comment_free_no_match s :
  comment_free s = true ->
  no_match line_comment s = true /\ no_match block_comment s = true.
Proof.
  induction s as [|c s IH]; [auto|]. intros Hc.
  destruct (comment_free_cons _ _ Hc) as (H1 & H2 & H3).
  destruct (IH H3) as [IH1 IH2].
  rewrite ch_eqb_sym in H1, H2. split.
  - simpl. destruct s as [|d s']; [reflexivity|]. rewrite H1. simpl. exact IH1.
  - simpl. destruct s as [|d s']; [reflexivity|]. rewrite H2. simpl. exact IH2.
Qed.

(** The whitespace pass, on the gaps of the text. *)
Lemma ws_run_gaps n : forall s, length s < n ->
  re_sub ws_run s
  = render_tail (fst (gaps_from false s)) ++ blank (snd (gaps_from false s)).
Proof.
  induction n as [|n IH]; intros s Hn; [lia|].
  destruct s as [|c s]; [reflexivity|].
  destruct (is_space c) eqn:Ec.
  - rewrite (re_sub_match ws_run ws_run_consuming (c :: s) [space]
               (drop_while is_space s)) by (simpl; rewrite Ec; reflexivity).
    pose proof (drop_while_length is_space s) as Hd.
    rewrite IH by (simpl in Hn; lia).
    simpl gaps_from. rewrite Ec.
    rewrite (gaps_from_drop_ws s true). simpl orb.
    destruct (drop_while is_space s) as [|x d] eqn:Ed; [reflexivity|].
    pose proof (drop_while_head _ _ _ _ Ed) as Hx.
    simpl. rewrite Hx. reflexivity.
  - rewrite re_sub_skip by (apply ws_run_consuming || (simpl; rewrite Ec; reflexivity)).
    rewrite IH by (simpl in Hn; lia).
    simpl gaps_from. rewrite Ec. reflexivity.
Qed.

Lemma rstrip_by_blank p s b :
  p space = true -> rstrip_by p (s ++ blank b) = rstrip_by p s.
Proof.
  intros Hp. destruct b; simpl; [|rewrite app_nil_r; reflexivity].
  unfold rstrip_by. rewrite rev_app_distr. simpl. rewrite Hp. reflexivity.
Qed.

(** Collapsing the runs of whitespace and stripping the ends leaves the
    words joined by single spaces. *)
Lemma strip_ws_run s : strip (re_sub ws_run s) = join [space] (split s).
Proof.
  rewrite (ws_run_gaps (S (length s))) by lia. rewrite join_split. unfold gaps.
  pose proof (gaps_from_solid s false) as Hs.
  destruct (gaps_from false s) as [l e]. simpl fst in *. simpl snd.
  destruct Hs as [|[b c] l Hc Hl]; [destruct e; reflexivity|].
  simpl in Hc. unfold strip, lstrip, rstrip. simpl render_tail.
  assert (Hd : drop_while is_space ((blank b ++ c :: render_tail l) ++ blank e)
               = (c :: render_tail l) ++ blank e).
  { destruct b; simpl; rewrite Hc; reflexivity. }
  rewrite Hd, rstrip_by_blank by reflexivity.
  apply rstrip_by_id. apply (render_ends ((false, c) :: l)).
  constructor; assumption.
Qed.

Lemma split_from_lower s : forall cur,
  split_from (lower cur) (lower s) = map lower (split_from cur s).
Proof.
  induction s as [|c s IH]; intros cur.
  - destruct cur; reflexivity.
  - unfold lower at 2. simpl map. fold (lower s). simpl split_from.
    rewrite ResultSets.is_space_lower_char.
    destruct (is_space c).
    + specialize (IH []). change (lower []) with (@nil ascii) in IH.
      destruct cur; simpl; rewrite IH; reflexivity.
    + rewrite <- IH. f_equal. unfold lower. rewrite map_app. reflexivity.
Qed.

(** The normal form of a text without comments is found from its words in
    lower case. *)
Lemma normalize_from_words s :
  comment_free s = true ->
  normalize s
  = strip (respace (replace_char dquote squote
      (rstrip_semicolons (join [space] (map lower (split s)))))).
Proof.
  intros Hc. rewrite normalize_unfold.
  destruct (comment_free_no_match _ (comment_free_lower _ Hc)) as [H1 H2].
  rewrite (re_sub_no_match line_comment) by exact H1.
  rewrite (re_sub_no_match block_comment) by exact H2.
  rewrite strip_ws_run. unfold split.
  rewrite <- (split_from_lower s []). reflexivity.
Qed.

(** Two statements without dashes and slashes that have the same words,
    up to the case of the letters, have the same normal form and are an
    exact match: line breaks, tabs and the number of blanks between the
    words, before the first and after the last do not count. *)
Theorem normalize_ignores_spacing (a b : pystr) :
  comment_free a = true -> comment_free b = true ->
  map lower (split a) = map lower (split b) ->
  normalize a = normalize b /\ exact_match a b = true.
Proof.
  intros Ha Hb E.
  assert (N : normalize a = normalize b)
    by (rewrite (normalize_from_words a Ha), (normalize_from_words b Hb), E;
        reflexivity).
  split; [exact N|]. unfold exact_match. apply str_eqb_eq, N.
Qed.

Lemma normalize_ignores_spacing_witness :
  normalize (py "  SELECT name" ++ [newline] ++ py "FROM   singer ")
  = normalize (py "select Name from singer") /\
  exact_match (py "  SELECT name" ++ [newline] ++ py "FROM   singer ")
    (py "select Name from singer") = true.
Proof.
  apply (normalize_ignores_spacing
           (py "  SELECT name" ++ [newline] ++ py "FROM   singer ")
           (py "select Name from singer")); vm_compute; reflexivity.
Defined.

End Spacing.
